(** * vpbench blog script: the CSV pipelines of [script.js]

    A shallow embedding of the data path of [script.js]: the CSV reader, the
    two field normalizers, the marker dataset builder, the visualization
    updater and the JPEG rank renderer, followed by the properties the
    specification states about them.  The temporary button labels and the
    page initialisation are embedded as well, and the file closes with
    further properties of the code.

    Conventions of the embedding.
    - A JavaScript string is a sequence of UTF-16 code units.  Here a string
      is a Rocq [string]; each [ascii] stands for the code unit with the same
      number, so the strings covered are those whose code units are below
      256 (Basic Latin and Latin-1).  On that range [trim], the class [\s],
      the class [\w] and [toLowerCase] are written out exactly as ECMAScript
      defines them.
    - A JavaScript number is a binary64 float: [float] of [PrimFloat], whose
      operations are specified by the axioms of [FloatAxioms].
    - A [Map] is an association list in insertion order.  A plain object used
      with computed keys is the association list of its own properties; the
      members every object inherits from [Object.prototype] are not
      represented, so keys are meant to differ from their names.
    - [undefined] is [None]; an exception is a [Throw] of the [result] monad.
    - The built-ins [parseFloat] and [parseInt] are parameters of the
      functions that call them.
    - The DOM and Plotly are sinks: a rendering function returns the data it
      hands over (coordinates, colours, table cells), not the layout
      constants or the formatted label texts. *)

From Stdlib Require Import Bool List Ascii String ZArith Lia Floats Permutation
  Sorted.
Import ListNotations.

Local Open Scope bool_scope.
Local Open Scope string_scope.

(* ================================================================== *)
(** ** JavaScript string primitives used by the script *)
(* ================================================================== *)

Module JsString.

Definition code (c : ascii) : N := N_of_ascii c.

Definition between (lo hi : N) (c : ascii) : bool :=
  ((lo <=? code c) && (code c <=? hi))%N.

(** [\s] and the set removed by [trim]: TAB, LF, VT, FF, CR, SPACE, NBSP
    (the members of WhiteSpace and LineTerminator below 256). *)
Definition is_space (c : ascii) : bool :=
  between 9 13 c || (code c =? 32)%N || (code c =? 160)%N.

Definition is_upper (c : ascii) : bool := between 65 90 c.

(** [\w] without the [i] and [u] flags: [A-Za-z0-9_]. *)
Definition is_word (c : ascii) : bool :=
  between 65 90 c || between 97 122 c || between 48 57 c || (code c =? 95)%N.

(** Lower-case mapping of one code unit: A-Z, and U+00C0..U+00DE except the
    multiplication sign U+00D7, move up by 32; everything else is kept. *)
Definition lower_char (c : ascii) : ascii :=
  if between 65 90 c || (between 192 222 c && negb (code c =? 215)%N)
  then ascii_of_N (code c + 32)
  else c.

Fixpoint toLowerCase (s : string) : string :=
  match s with
  | EmptyString => EmptyString
  | String c s' => String (lower_char c) (toLowerCase s')
  end.

Definition is_empty (s : string) : bool :=
  match s with EmptyString => true | String _ _ => false end.

Fixpoint trimStart (s : string) : string :=
  match s with
  | EmptyString => EmptyString
  | String c s' => if is_space c then trimStart s' else s
  end.

Fixpoint trimEnd (s : string) : string :=
  match s with
  | EmptyString => EmptyString
  | String c s' =>
      let r := trimEnd s' in
      if is_space c && is_empty r then EmptyString else String c r
  end.

(** [s.trim()] *)
Definition trim (s : string) : string := trimEnd (trimStart s).

(** [s.split(sep)] for a one-character separator; never the empty list:
    the empty string splits into one empty piece. *)
Fixpoint split (sep : ascii) (s : string) : list string :=
  match s with
  | EmptyString => [EmptyString]
  | String c s' =>
      if Ascii.eqb c sep then EmptyString :: split sep s'
      else match split sep s' with
           | h :: t => String c h :: t
           | [] => [String c EmptyString]
           end
  end.

(** [s.startsWith(p)] *)
Definition startsWith (s p : string) : bool := String.prefix p s.

(** [s.replace(/[class]+/g, r)]: every maximal run of characters of the
    class [p] becomes the single character [r].  [inRun] records that the
    previous character already belonged to the run being replaced. *)
Fixpoint replaceRuns (p : ascii -> bool) (r : ascii) (inRun : bool)
    (s : string) : string :=
  match s with
  | EmptyString => EmptyString
  | String c s' =>
      if p c then
        if inRun then replaceRuns p r true s'
        else String r (replaceRuns p r true s')
      else String c (replaceRuns p r false s')
  end.

Fixpoint all_chars (p : ascii -> bool) (s : string) : bool :=
  match s with
  | EmptyString => true
  | String c s' => p c && all_chars p s'
  end.

Fixpoint count_char (x : ascii) (s : string) : nat :=
  match s with
  | EmptyString => 0
  | String c s' => (if Ascii.eqb c x then 1 else 0) + count_char x s'
  end.

End JsString.

Import JsString.

(* ================================================================== *)
(** ** Field normalizers *)
(* ================================================================== *)

(** [normalizeDatasetKey].  [(datasetValue || "")] is the identity on
    strings, the empty string being the only falsy one. *)
Definition normalizeDatasetKey (datasetValue : string) : string :=
  let v := trim datasetValue in
  if is_empty v then v
  else if (v =? "DA2k") || (toLowerCase v =? "da2k") then "DA2k"
  else if startsWith v "DA-2K" then "DA2k"
  else if (v =? "SPair") || (toLowerCase v =? "spair") then "SPair"
  else if startsWith v "SPair" then "SPair"
  else v.

(** The character class [[^\w.]]. *)
Definition not_word_or_dot (c : ascii) : bool :=
  negb (is_word c || Ascii.eqb c ".").

(** [normalizeMarkerStyleKey] *)
Definition normalizeMarkerStyleKey (markerStyleValue : string) : string :=
  let raw := trim markerStyleValue in
  if is_empty raw then raw
  else
    let v := replaceRuns is_space " " false (toLowerCase raw) in
    if v =? "default" then "default"
    else if (v =? "color blue") || (v =? "color_blue") then "color_blue"
    else if (v =? "marker type square") || (v =? "marker_square")
            || (v =? "marker type: square") then "marker_square"
    else if (v =? "radius 3") || (v =? "radius_3") then "radius_3"
    else if (v =? "text offset below") || (v =? "text_offset_below")
         then "text_offset_below"
    else if (v =? "font scale 0.2") || (v =? "font_scale_0.2")
         then "font_scale_0.2"
    else replaceRuns not_word_or_dot "_" false v.

(* ================================================================== *)
(** ** JavaScript numbers *)
(* ================================================================== *)

Module JsNumber.

Local Open Scope float_scope.

Definition isNaN (x : float) : bool :=
  match classify x with NaN => true | _ => false end.

(** [Number.isFinite(x)] on a number. *)
Definition isFinite (x : float) : bool :=
  match classify x with NaN | PInf | NInf => false | _ => true end.

Definition isNegZero (x : float) : bool :=
  match classify x with NZero => true | _ => false end.

Definition isPosZero (x : float) : bool :=
  match classify x with PZero => true | _ => false end.

(** ToNumber of an array element read, [undefined] giving NaN. *)
Definition toNumber (v : option float) : float :=
  match v with Some x => x | None => nan end.

(** The loop of [Math.min]: NaN is contagious, [-0] is below [+0]. *)
Fixpoint min_from (lowest : float) (l : list float) : float :=
  match l with
  | [] => lowest
  | number :: l' =>
      if isNaN number then nan
      else if isNegZero number && isPosZero lowest then min_from number l'
      else if number <? lowest then min_from number l'
      else min_from lowest l'
  end.

(** [Math.min(...l)] *)
Definition Math_min (l : list float) : float := min_from infinity l.

Fixpoint max_from (highest : float) (l : list float) : float :=
  match l with
  | [] => highest
  | number :: l' =>
      if isNaN number then nan
      else if isPosZero number && isNegZero highest then max_from number l'
      else if highest <? number then max_from number l'
      else max_from highest l'
  end.

(** [Math.max(...l)] *)
Definition Math_max (l : list float) : float := max_from neg_infinity l.

End JsNumber.

Import JsNumber.

(* ================================================================== *)
(** ** Keyed containers: [Set], [Map] and objects with computed keys *)
(* ================================================================== *)

Module Keyed.

(** [set.add(x)]: insertion order, first occurrence kept. *)
Definition set_add (s : list string) (x : string) : list string :=
  if existsb (String.eqb x) s then s else s ++ [x].

(** [[...new Set(l)]] *)
Definition new_Set (l : list string) : list string := fold_left set_add l [].

Section WithValue.
Context {V : Type}.

(** Entries in insertion order; a key occurs at most once. *)
Definition keyed := list (string * V).

Fixpoint get (m : keyed) (k : string) : option V :=
  match m with
  | [] => None
  | (k', v) :: m' => if k' =? k then Some v else get m' k
  end.

Definition has (m : keyed) (k : string) : bool :=
  match get m k with Some _ => true | None => false end.

(** [m.set(k, v)] and [o[k] = v]: an existing key keeps its position
    and takes the new value, a new key goes last. *)
Fixpoint set (m : keyed) (k : string) (v : V) : keyed :=
  match m with
  | [] => [(k, v)]
  | (k', v') :: m' =>
      if k' =? k then (k, v) :: m' else (k', v') :: set m' k v
  end.

Definition keys (m : keyed) : list string := map fst m.
End WithValue.

Arguments keyed V : clear implicits.

End Keyed.

(* ================================================================== *)
(** ** Exceptions *)
(* ================================================================== *)

Inductive Failure : Type :=
| NetworkFailure
| HttpError
| MissingColumns (missing : list string)
| TypeError.

Inductive result (A : Type) : Type :=
| Ok (a : A)
| Throw (f : Failure).

Arguments Ok {A} a.
Arguments Throw {A} f.

Definition bind {A B : Type} (r : result A) (k : A -> result B) : result B :=
  match r with Ok a => k a | Throw f => Throw f end.

Notation "x <- r ;; k" := (bind r (fun x => k))
  (at level 61, r at next level, right associativity).

Fixpoint mapM {A B : Type} (f : A -> result B) (l : list A) : result (list B) :=
  match l with
  | [] => Ok []
  | a :: l' => b <- f a ;; bs <- mapM f l' ;; Ok (b :: bs)
  end.

Fixpoint foldM {A S : Type} (f : S -> A -> result S) (l : list A) (s : S)
    : result S :=
  match l with
  | [] => Ok s
  | a :: l' => s' <- f s a ;; foldM f l' s'
  end.

(* ================================================================== *)
(** ** CSV reader *)
(* ================================================================== *)

Record CsvTable : Type := { headers : list string; rows : list (list string) }.

Definition newline : ascii := "010"%char.
Definition comma : ascii := ","%char.

(** [line.split(",").map((v) => v.trim())] *)
Definition fields (line : string) : list string := map trim (split comma line).

(** [parseSimpleCsv].  [filter(Boolean)] keeps the non-empty strings;
    [lines[0] || ""] is [hd ""]; [lines.slice(1)] is [tl]. *)
Definition parseSimpleCsv (csvText : string) : CsvTable :=
  let lines :=
    filter (fun l => negb (is_empty l)) (split newline (trim csvText)) in
  {| headers := fields (hd "" lines);
     rows := map fields (tl lines) |}.

(** [buildCsvHeaderIndex]: empty header names are skipped, a repeated name
    keeps its last index. *)
Fixpoint headerIndexFrom (i : nat) (hs : list string) (idx : Keyed.keyed nat)
    : Keyed.keyed nat :=
  match hs with
  | [] => idx
  | h :: hs' =>
      headerIndexFrom (S i) hs' (if is_empty h then idx else Keyed.set idx h i)
  end.

Definition buildCsvHeaderIndex (hs : list string) : Keyed.keyed nat :=
  headerIndexFrom 0 hs [].

(* ================================================================== *)
(** ** Marker comparison: data model *)
(* ================================================================== *)

(** One validated row of [marker_acc.csv] (an element of [parsedRows]). *)
Record MarkerRow : Type := {
  dataset : string;
  marker_style : string;
  model : string;
  accuracy : float;
  rank : float
}.

(** The value [{ accuracy, rank }] stored per model in a style's [Map]. *)
Record Entry : Type := { entry_accuracy : float; entry_rank : float }.

(** The value [{ accuracies, ranks }] stored per style. *)
Record StyleData : Type := { accuracies : list float; ranks : list float }.

(** The object [data[dataset]] holds its model list under the key
    ["models"] and one [{ accuracies, ranks }] record under each style key,
    all in one key space.  A property of that object is one or the other. *)
Inductive DatasetProp : Type :=
| ModelList (models : list string)
| StyleArrays (sd : StyleData).

Definition DatasetObj : Type := Keyed.keyed DatasetProp.
Definition MarkerData : Type := Keyed.keyed DatasetObj.

Definition ByModel : Type := Keyed.keyed Entry.
Definition ByStyleByModel : Type := Keyed.keyed ByModel.

(* ================================================================== *)
(** ** Marker dataset builder (the second half of [loadMarkerData]) *)
(* ================================================================== *)

(** [markerStyles.forEach((style) => byStyleByModel.set(style, new Map()))] *)
Definition emptyStyleMaps (markerStyles : list string) : ByStyleByModel :=
  fold_left (fun m style => Keyed.set m style []) markerStyles [].

(** The body of [datasetRows.forEach]: the inner [Map] of the row's style is
    updated in place, so it keeps its position in the outer [Map]. *)
Definition recordRow (m : ByStyleByModel) (row : MarkerRow) : ByStyleByModel :=
  let m1 :=
    if Keyed.has m (marker_style row) then m
    else Keyed.set m (marker_style row) [] in
  match Keyed.get m1 (marker_style row) with
  | Some modelMap =>
      Keyed.set m1 (marker_style row)
        (Keyed.set modelMap (model row)
           {| entry_accuracy := accuracy row; entry_rank := rank row |})
  | None => m1
  end.

Definition groupByStyle (datasetRows : list MarkerRow) : ByStyleByModel :=
  fold_left recordRow datasetRows
    (emptyStyleMaps (Keyed.new_Set (map marker_style datasetRows))).

(** [defaultModelMap ? [...defaultModelMap.keys()] : [...new Set(...)]];
    a [Map] is truthy even when empty. *)
Definition candidateModels (byStyleByModel : ByStyleByModel)
    (datasetRows : list MarkerRow) : list string :=
  match Keyed.get byStyleByModel "default" with
  | Some defaultModelMap => Keyed.keys defaultModelMap
  | None => Keyed.new_Set (map model datasetRows)
  end.

(** The predicate of [defaultModels.filter]. *)
Definition inEveryStyle (byStyleByModel : ByStyleByModel) (m : string) : bool :=
  forallb (fun sm => Keyed.has (snd sm) m) byStyleByModel.

(** [modelMap.get(m).accuracy]: reading a property of [undefined] throws. *)
Definition entryField (f : Entry -> float) (modelMap : ByModel) (m : string)
    : result float :=
  match Keyed.get modelMap m with
  | Some e => Ok (f e)
  | None => Throw TypeError
  end.

(** The body of the loop over [byStyleByModel.entries()]. *)
Definition putStyle (models : list string) (obj : DatasetObj)
    (sm : string * ByModel) : result DatasetObj :=
  accs <- mapM (entryField entry_accuracy (snd sm)) models ;;
  rks <- mapM (entryField entry_rank (snd sm)) models ;;
  Ok (Keyed.set obj (fst sm)
        (StyleArrays {| accuracies := accs; ranks := rks |})).

(** The body of [datasets.forEach] up to the assignment into [data]. *)
Definition buildDataset (datasetRows : list MarkerRow) : result DatasetObj :=
  let byStyleByModel := groupByStyle datasetRows in
  let defaultModels := candidateModels byStyleByModel datasetRows in
  let models := filter (inEveryStyle byStyleByModel) defaultModels in
  foldM (putStyle models) byStyleByModel
    (Keyed.set [] "models" (ModelList models)).

Definition rowsOfDataset (parsedRows : list MarkerRow) (ds : string)
    : list MarkerRow :=
  filter (fun row => dataset row =? ds) parsedRows.

(** From [parsedRows] to the object [data]. *)
Definition buildMarkerData (parsedRows : list MarkerRow) : result MarkerData :=
  foldM
    (fun data ds =>
       obj <- buildDataset (rowsOfDataset parsedRows ds) ;;
       Ok (Keyed.set data ds obj))
    (Keyed.new_Set (map dataset parsedRows)) [].

(* ================================================================== *)
(** ** Loading the marker CSV (the first half of [loadMarkerData]) *)
(* ================================================================== *)

(** What [fetch] resolved to: a rejection, or a response with its [ok]
    flag and body text. *)
Inductive FetchResult : Type :=
| FetchRejected
| Response (ok : bool) (body : string).

(** [values[i]], where the index itself may be [undefined]. *)
Definition at_index (values : list string) (i : option nat) : option string :=
  match i with Some n => nth_error values n | None => None end.

(** [v || ""] *)
Definition orEmpty (v : option string) : string :=
  match v with Some s => s | None => "" end.

(** ToString of a value handed to [parseFloat] or [parseInt]. *)
Definition toStringArg (v : option string) : string :=
  match v with Some s => s | None => "undefined" end.

(** [if (idx === undefined) missing.push(name)] *)
Definition noteMissing (idx : option nat) (name : string)
    (missing : list string) : list string :=
  match idx with None => missing ++ [name] | Some _ => missing end.

(** A non-empty string is truthy. *)
Definition truthy (s : string) : bool := negb (is_empty s).

Definition validRow (row : MarkerRow) : bool :=
  truthy (dataset row) && truthy (marker_style row) && truthy (model row)
  && isFinite (accuracy row) && isFinite (rank row).

Section Loader.

(** The built-ins [parseFloat] and [(s) => parseInt(s, 10)].  Their
    results on long digit strings are partly left to the implementation,
    so they are taken as given. *)
Variable parseFloat : string -> float.
Variable parseInt10 : string -> float.

Definition toMarkerRow (datasetIdx modelIdx markerStyleIdx accuracyIdx
    rankIdx : option nat) (values : list string) : MarkerRow :=
  {| dataset := normalizeDatasetKey (orEmpty (at_index values datasetIdx));
     marker_style :=
       normalizeMarkerStyleKey (orEmpty (at_index values markerStyleIdx));
     model := trim (orEmpty (at_index values modelIdx));
     accuracy := parseFloat (toStringArg (at_index values accuracyIdx));
     rank := parseInt10 (toStringArg (at_index values rankIdx)) |}.

(** The [try] block of [loadMarkerData]. *)
Definition loadMarkerDataBody (fetched : FetchResult) : result MarkerData :=
  match fetched with
  | FetchRejected => Throw NetworkFailure
  | Response false _ => Throw HttpError
  | Response true csvText =>
      let t := parseSimpleCsv csvText in
      let headerIdx := buildCsvHeaderIndex (headers t) in
      let datasetIdx := Keyed.get headerIdx "dataset" in
      let modelIdx := Keyed.get headerIdx "model" in
      let markerStyleIdx := Keyed.get headerIdx "marker_style" in
      let accuracyIdx := Keyed.get headerIdx "accuracy" in
      let rankIdx := Keyed.get headerIdx "rank" in
      let missing :=
        noteMissing rankIdx "rank"
          (noteMissing accuracyIdx "accuracy"
             (noteMissing markerStyleIdx "marker_style"
                (noteMissing modelIdx "model"
                   (noteMissing datasetIdx "dataset" [])))) in
      match missing with
      | _ :: _ => Throw (MissingColumns missing)
      | [] =>
          let parsedRows :=
            filter validRow
              (map (toMarkerRow datasetIdx modelIdx markerStyleIdx
                      accuracyIdx rankIdx)
                 (filter
                    (fun values =>
                       List.length (headers t) <=? List.length values)%nat
                    (rows t))) in
          buildMarkerData parsedRows
      end
  end.

(** [loadMarkerData]: the returned value and the new content of the
    global [MARKER_DATA].  The [catch] logs and returns [null] without
    touching the global. *)
Definition loadMarkerData (fetched : FetchResult)
    (MARKER_DATA : option MarkerData)
    : option MarkerData * option MarkerData :=
  match loadMarkerDataBody fetched with
  | Ok data => (Some data, Some data)
  | Throw _ => (None, MARKER_DATA)
  end.

End Loader.

(* ================================================================== *)
(** ** Visualization updater *)
(* ================================================================== *)

Local Open Scope float_scope.

Definition green : string := "#10b981".
Definition red : string := "#ef4444".
Definition grey : string := "#6b7280".

(** The callback of [deltas.map] that picks the label colour. *)
Definition deltaColor (d : float) : string :=
  if 0 <? d then green else if d <? 0 then red else grey.

(** The class of the rank-change cell. *)
Definition deltaClass (delta : float) : string :=
  if 0 <? delta then "deltaUp"
  else if delta <? 0 then "deltaDown" else "deltaZero".

(** [v.accuracies] and [v.ranks] on a property of the dataset object: the
    model list, being an array, has neither. *)
Definition accuraciesOf (v : DatasetProp) : option (list float) :=
  match v with StyleArrays sd => Some (accuracies sd) | ModelList _ => None end.

Definition ranksOf (v : DatasetProp) : option (list float) :=
  match v with StyleArrays sd => Some (ranks sd) | ModelList _ => None end.

(** [o.p] where [o] may be [undefined]. *)
Definition member {A : Type} (o : option DatasetProp)
    (p : DatasetProp -> option A) : result (option A) :=
  match o with Some v => Ok (p v) | None => Throw TypeError end.

(** [a[i]] where [a] may be [undefined]. *)
Definition element (a : option (list float)) (i : nat)
    : result (option float) :=
  match a with Some l => Ok (nth_error l i) | None => Throw TypeError end.

(** [o.p[i]] *)
Definition memberElement (o : option DatasetProp)
    (p : DatasetProp -> option (list float)) (i : nat)
    : result (option float) :=
  a <- member o p ;; element a i.

(** [selectedData.accuracies[i] - defaultData.accuracies[i]] *)
Definition accuracyDelta (selectedData defaultData : option DatasetProp)
    (i : nat) : result float :=
  s <- memberElement selectedData accuraciesOf i ;;
  d <- memberElement defaultData accuraciesOf i ;;
  Ok (toNumber s - toNumber d).

(** [markerKey.replace(/_/g, " ")] *)
Fixpoint underscoresToSpaces (s : string) : string :=
  match s with
  | EmptyString => EmptyString
  | String c s' =>
      String (if Ascii.eqb c "_" then " "%char else c) (underscoresToSpaces s')
  end.

(** The two bar traces and the axis range handed to [Plotly.newPlot].  Of
    the label texts only what is computed is kept: whether a ["+"] is put
    in front, and the delta that [toFixed(1)] prints. *)
Record Chart : Type := {
  chart_x : list string;
  chart_default_y : option (list float);
  chart_selected_y : option (list float);
  chart_selected_name : string;
  chart_deltas : list float;
  chart_text : list (bool * float);
  chart_textColors : list string;
  chart_yRange : float * float
}.

(** One [<tr>] of the leaderboard: model, selected rank, the local [delta]
    with its class and magnitude, and the accuracy that is printed. *)
Record TableRow : Type := {
  cell_model : string;
  cell_selectedRank : option float;
  cell_delta : float;
  cell_class : string;
  cell_magnitude : float;
  cell_score : float
}.

Inductive Outcome : Type :=
| NotLoaded
| Threw (drawn : option Chart)
| Drawn (chart : Chart) (table : option (list TableRow)).

(** [datasetData.models] used as an array: [.map] exists on arrays only. *)
Definition modelsOf (datasetData : DatasetObj) : result (list string) :=
  match Keyed.get datasetData "models" with
  | Some (ModelList ms) => Ok ms
  | _ => Throw TypeError
  end.

Definition buildChart (currentDataset markerKey : string)
    (models : list string) (selectedData defaultData : option DatasetProp)
    : result Chart :=
  deltas <- mapM (accuracyDelta selectedData defaultData)
              (seq 0 (List.length models)) ;;
  dy <- member defaultData accuraciesOf ;;
  sy <- member selectedData accuraciesOf ;;
  Ok {| chart_x := models;
        chart_default_y := dy;
        chart_selected_y := sy;
        chart_selected_name :=
          if (markerKey =? "default")%string then "Default"
          else underscoresToSpaces markerKey;
        chart_deltas := deltas;
        chart_text := map (fun d => (0 <=? d, d)) deltas;
        chart_textColors := map deltaColor deltas;
        chart_yRange :=
          if (currentDataset =? "DA2k")%string then (45, 100) else (20, 100) |}.

(** The body of the [models.forEach] that fills the table. *)
Definition buildTableRow (selectedData defaultData : option DatasetProp)
    (mi : string * nat) : result TableRow :=
  defaultRank <- memberElement defaultData ranksOf (snd mi) ;;
  selectedRank <- memberElement selectedData ranksOf (snd mi) ;;
  let delta := toNumber defaultRank - toNumber selectedRank in
  score <- memberElement selectedData accuraciesOf (snd mi) ;;
  match score with
  | None => Throw TypeError
  | Some acc =>
      Ok {| cell_model := fst mi;
            cell_selectedRank := selectedRank;
            cell_delta := delta;
            cell_class := deltaClass delta;
            cell_magnitude := abs delta;
            cell_score := acc |}
  end.

(** [datasetData[markerKey] || defaultData].  Every property of the dataset
    object is an object, hence truthy, so the right operand is taken
    exactly when the key is absent. *)
Definition selectedDataOf (datasetData : DatasetObj) (markerKey : string)
    : option DatasetProp :=
  match Keyed.get datasetData markerKey with
  | Some v => Some v
  | None => Keyed.get datasetData "default"
  end.

(** [updateVisualization(markerKey)] against the globals [MARKER_DATA] and
    [currentDataset]; [tbody] tells whether the table body element exists. *)
Definition updateVisualization (MARKER_DATA : option MarkerData)
    (currentDataset : string) (tbody : bool) (markerKey : string) : Outcome :=
  match MARKER_DATA with
  | None => NotLoaded
  | Some data =>
      match Keyed.get data currentDataset with
      | None => NotLoaded
      | Some datasetData =>
          let defaultData := Keyed.get datasetData "default" in
          let selectedData := selectedDataOf datasetData markerKey in
          match modelsOf datasetData with
          | Throw _ => Threw None
          | Ok models =>
              match buildChart currentDataset markerKey models
                      selectedData defaultData with
              | Throw _ => Threw None
              | Ok chart =>
                  if tbody then
                    match mapM (buildTableRow selectedData defaultData)
                            (combine models (seq 0 (List.length models))) with
                    | Throw _ => Threw (Some chart)
                    | Ok table => Drawn chart (Some table)
                    end
                  else Drawn chart None
              end
          end
      end
  end.

(* ================================================================== *)
(** ** JPEG rank chart *)
(* ================================================================== *)

Record JpegRow : Type := {
  benchmark : string;
  jpeg_model : string;
  jpeg_quality : string;
  jpeg_rank : float
}.

(** The grouping loops of [renderJpegRankChart]:
    [if (!m.has(k)) m.set(k, []); m.get(k).push(r)]. *)
Definition pushGrouped (key : JpegRow -> string)
    (m : Keyed.keyed (list JpegRow)) (r : JpegRow)
    : Keyed.keyed (list JpegRow) :=
  let m1 := if Keyed.has m (key r) then m else Keyed.set m (key r) [] in
  match Keyed.get m1 (key r) with
  | Some l => Keyed.set m1 (key r) (l ++ [r])%list
  | None => m1
  end.

Definition groupRows (key : JpegRow -> string) (l : list JpegRow)
    : Keyed.keyed (list JpegRow) :=
  fold_left (pushGrouped key) l [].

Definition is_digit (c : ascii) : bool := between 48 57 c.

Fixpoint takeDigits (s : string) : string :=
  match s with
  | EmptyString => EmptyString
  | String c s' => if is_digit c then String c (takeDigits s') else EmptyString
  end.

(** [q.match(/\d+/)]: the first maximal run of digits, if any. *)
Fixpoint firstDigits (q : string) : option string :=
  match q with
  | EmptyString => None
  | String c q' => if is_digit c then Some (takeDigits q) else firstDigits q'
  end.

Section StableSort.
Context {A : Type}.
(** A comparator as [Array.prototype.sort] takes it: a positive result
    puts the second argument first; zero, a negative result and NaN leave
    the first argument in front.  For a consistent comparator the sorted
    order is the unique stable one, computed here by insertion. *)
Variable compareFn : A -> A -> float.

Fixpoint insertSorted (x : A) (l : list A) : list A :=
  match l with
  | [] => [x]
  | y :: l' => if 0 <? compareFn x y then y :: insertSorted x l' else x :: l
  end.

Fixpoint sortWith (l : list A) : list A :=
  match l with
  | [] => []
  | x :: l' => insertSorted x (sortWith l')
  end.
End StableSort.

Definition isDefaultQuality (x : JpegRow) : bool :=
  (jpeg_quality x =? "default")%string.

(** [l.find((x) => x.jpeg_quality === "default")?.rank] *)
Definition defaultRankOf (l : list JpegRow) : option float :=
  option_map jpeg_rank (find isDefaultQuality l).

(** [v ?? 9999] *)
Definition orSentinel (v : option float) : float :=
  match v with Some r => r | None => 9999 end.

(** The four arrays filled per benchmark; [null] is [None]. *)
Record Marks : Type := {
  segmentX : list (option float);
  segmentY : list (option string);
  dotX : list float;
  dotY : list string
}.

Definition noMarks : Marks :=
  {| segmentX := []; segmentY := []; dotX := []; dotY := [] |}.

(** One benchmark panel: its key, the axis suffix, the category order of
    the y axis and the two traces' coordinates. *)
Record Panel : Type := {
  panel_key : string;
  panel_axisSuffix : string;
  panel_yCategories : list string;
  panel_marks : Marks
}.

Definition BENCHMARKS : list string := ["BLINK_RD"; "MME"].

Section JpegRenderer.

Variable parseInt10 : string -> float.

Definition qualitySortKey (q : string) : float :=
  if (q =? "default")%string then 1000
  else match firstDigits q with
       | Some digits => parseInt10 digits
       | None => 0
       end.

Definition byQuality (a b : JpegRow) : float :=
  qualitySortKey (jpeg_quality a) - qualitySortKey (jpeg_quality b).

(** The comparator that orders the models of one benchmark. *)
Definition byDefaultRank (byModel : Keyed.keyed (list JpegRow))
    (a b : string) : float :=
  orSentinel (defaultRankOf (match Keyed.get byModel a with
                             | Some l => l | None => [] end))
  - orSentinel (defaultRankOf (match Keyed.get byModel b with
                               | Some l => l | None => [] end)).

(** The body of [modelsSorted.forEach]. *)
Definition markModel (byModel : Keyed.keyed (list JpegRow)) (acc : Marks)
    (model : string) : Marks :=
  let points :=
    sortWith byQuality
      (match Keyed.get byModel model with Some l => l | None => [] end) in
  let ranks := filter isFinite (map jpeg_rank points) in
  match ranks with
  | [] => acc
  | _ :: _ =>
      let minRank := Math_min ranks in
      let maxRank := Math_max ranks in
      let defaultRank := defaultRankOf points in
      let withSegment :=
        {| segmentX := (segmentX acc ++ [Some minRank; Some maxRank; None])%list;
           segmentY := (segmentY acc ++ [Some model; Some model; None])%list;
           dotX := dotX acc;
           dotY := dotY acc |} in
      match defaultRank with
      | Some r =>
          if isFinite r then
            {| segmentX := segmentX withSegment;
               segmentY := segmentY withSegment;
               dotX := (dotX withSegment ++ [r])%list;
               dotY := (dotY withSegment ++ [model])%list |}
          else withSegment
      | None => withSegment
      end
  end.

(** The body of [BENCHMARKS.forEach]; a benchmark without rows adds no
    panel. *)
Definition renderBenchmark (byBenchmark : Keyed.keyed (list JpegRow))
    (benchIdx : nat) (key : string) : option Panel :=
  match (match Keyed.get byBenchmark key with Some l => l | None => [] end)
  with
  | [] => None
  | (_ :: _) as data =>
      let byModel := groupRows jpeg_model data in
      let modelsSorted :=
        sortWith (byDefaultRank byModel) (Keyed.keys byModel) in
      Some {| panel_key := key;
              panel_axisSuffix :=
                match benchIdx with O => "" | S _ => "2" end;
              panel_yCategories := rev modelsSorted;
              panel_marks :=
                fold_left (markModel byModel) modelsSorted noMarks |}
  end.

Fixpoint renderFrom (byBenchmark : Keyed.keyed (list JpegRow))
    (benchIdx : nat) (keys : list string) : list Panel :=
  match keys with
  | [] => []
  | key :: keys' =>
      match renderBenchmark byBenchmark benchIdx key with
      | Some p => p :: renderFrom byBenchmark (S benchIdx) keys'
      | None => renderFrom byBenchmark (S benchIdx) keys'
      end
  end.

(** [renderJpegRankChart(rows)]; [container] tells whether the mount
    element exists.  The result lists the panels handed to the plot. *)
Definition renderJpegRankChart (container : bool) (rows : list JpegRow)
    : option (list Panel) :=
  if container
  then Some (renderFrom (groupRows benchmark rows) 0 BENCHMARKS)
  else None.

(** [loadJpegRankData]: [null] on a failed response, otherwise one row
    per line with at least four fields. *)
Definition loadJpegRankData (fetched : FetchResult)
    : result (option (list JpegRow)) :=
  match fetched with
  | FetchRejected => Throw NetworkFailure
  | Response false _ => Ok None
  | Response true csvText =>
      Ok (Some
            (map (fun values =>
                    {| benchmark := nth 0 values "";
                       jpeg_model := nth 1 values "";
                       jpeg_quality := nth 2 values "";
                       jpeg_rank := parseInt10 (nth 3 values "") |})
               (filter (fun values => 4 <=? List.length values)%nat
                  (rows (parseSimpleCsv csvText)))))
  end.

End JpegRenderer.


(* ================================================================== *)
(** ** Temporary button labels *)
(* ================================================================== *)

(** A button as [setTempButtonLabel] sees it: its [textContent], which may
    be [null], and the originals that the timers it has started will write
    back.  All timers have the same delay, so they run in the order in
    which they were started. *)
Record ButtonState : Type := {
  textContent : option string;
  pendingRestores : list string
}.

(** [setTempButtonLabel(button, label)] up to the start of the timer. *)
Definition setTempButtonLabel (button : ButtonState) (label : string)
    : ButtonState :=
  {| textContent := Some label;
     pendingRestores :=
       (pendingRestores button ++ [orEmpty (textContent button)])%list |}.

(** The oldest timer runs: [button.textContent = original]. *)
Definition timerFires (button : ButtonState) : ButtonState :=
  match pendingRestores button with
  | [] => button
  | original :: rest =>
      {| textContent := Some original; pendingRestores := rest |}
  end.

Fixpoint timersFire (n : nat) (button : ButtonState) : ButtonState :=
  match n with
  | O => button
  | S n' => timersFire n' (timerFires button)
  end.

(* ================================================================== *)
(** ** Page initialisation *)
(* ================================================================== *)

(** What the [DOMContentLoaded] handler has done when it ends or is cut
    short by an exception: the global [MARKER_DATA], the outcome of the
    first [updateVisualization] if it ran, whether the listeners of the
    marker controls were added, the panels of the JPEG chart if it was
    rendered, and whether the handler ran to its end. *)
Record PageLoad : Type := {
  page_markerData : option MarkerData;
  page_firstDraw : option Outcome;
  page_listeners : bool;
  page_jpegChart : option (list Panel);
  page_completed : bool
}.

(** [firstBtn.getAttribute("data-marker") || "color_blue"]; the attribute
    of a button is [None] when it is missing. *)
Definition initialMarkerOf (firstBtn : option string) : string :=
  match firstBtn with
  | Some s => if is_empty s then "color_blue" else s
  | None => "color_blue"
  end.

Section Page.
Variable parseFloat : string -> float.
Variable parseInt10 : string -> float.

(** The [DOMContentLoaded] handler.  [buttons] lists the [data-marker]
    attributes of the [.markerBtn] elements; [currentDataset] still has its
    initial value ["DA2k"].  An exception of [updateVisualization], or the
    rejection of the JPEG load, ends the handler at that point. *)
Definition onDOMContentLoaded (markerFetch jpegFetch : FetchResult)
    (buttons : list (option string)) (tbody container : bool) : PageLoad :=
  let jpegRows := loadJpegRankData parseInt10 jpegFetch in
  let MARKER_DATA :=
    snd (loadMarkerData parseFloat parseInt10 markerFetch None) in
  let firstDraw :=
    match MARKER_DATA, buttons with
    | Some _, firstBtn :: _ =>
        Some (updateVisualization MARKER_DATA "DA2k" tbody
                (initialMarkerOf firstBtn))
    | _, _ => None
    end in
  match firstDraw with
  | Some (Threw drawn) =>
      {| page_markerData := MARKER_DATA;
         page_firstDraw := firstDraw;
         page_listeners := false;
         page_jpegChart := None;
         page_completed := false |}
  | _ =>
      let listeners :=
        match firstDraw with Some _ => true | None => false end in
      match jpegRows with
      | Throw _ =>
          {| page_markerData := MARKER_DATA;
             page_firstDraw := firstDraw;
             page_listeners := listeners;
             page_jpegChart := None;
             page_completed := false |}
      | Ok None =>
          {| page_markerData := MARKER_DATA;
             page_firstDraw := firstDraw;
             page_listeners := listeners;
             page_jpegChart := None;
             page_completed := true |}
      | Ok (Some jpegRowsValue) =>
          {| page_markerData := MARKER_DATA;
             page_firstDraw := firstDraw;
             page_listeners := listeners;
             page_jpegChart :=
               renderJpegRankChart parseInt10 container jpegRowsValue;
             page_completed := true |}
      end
  end.

End Page.

(* ================================================================== *)
(** ** Auxiliary notions used in the statements *)
(* ================================================================== *)

Local Open Scope string_scope.

(** A character of a finished slug: a word character or a dot, not an
    upper-case letter. *)
Definition slug_char (c : ascii) : bool :=
  (is_word c || Ascii.eqb c ".") && negb (is_upper c).

Ltac each_char c :=
  destruct c as [[] [] [] [] [] [] [] []]; vm_compute; try reflexivity;
  try discriminate.


(** The CSV reader as the specification words it: split the text on
    newlines, drop the blank lines, split each remaining line on commas and
    trim every field, the first remaining line being the header.  [blank]
    is the reading given to "blank line". *)
Definition readAsWorded (blank : string -> bool) (text : string) : CsvTable :=
  let lines := filter (fun l => negb (blank l)) (split newline text) in
  {| headers := fields (hd "" lines);
     rows := map fields (tl lines) |}.

(** A line of white space only. *)
Definition is_blank (s : string) : bool := all_chars is_space s.

(** [pieces.join(sep)] *)
Fixpoint join (sep : ascii) (pieces : list string) : string :=
  match pieces with
  | [] => ""
  | [p] => p
  | p :: rest => p ++ String sep (join sep rest)
  end.

(** The columns [loadMarkerData] requires. *)
Definition requiredColumns : list string :=
  ["dataset"; "model"; "marker_style"; "accuracy"; "rank"].

(** A text with a line of white space before the header and, between the
    rows, the line a blank line of a CRLF file leaves: a carriage return. *)
Definition spacedText : string :=
  join newline [" "; "h"; String "013" ""; "1"].

(** Every entry of the grouped maps was written from a row of [rows]
    with that style and that model. *)
Definition entriesFrom (rows : list MarkerRow) (m : ByStyleByModel) : Prop :=
  forall style modelMap, In (style, modelMap) m ->
  forall k e, In (k, e) modelMap ->
  exists row, In row rows /\ marker_style row = style /\ model row = k
              /\ entry_accuracy e = accuracy row /\ entry_rank e = rank row.

(** A property of a built dataset object: the model list [models], or
    style arrays aligned with it whose values come from [rows]. *)
Definition builtProp (rows : list MarkerRow) (models : list string)
    (v : DatasetProp) : Prop :=
  v = ModelList models
  \/ exists sd, v = StyleArrays sd
       /\ List.length (accuracies sd) = List.length models
       /\ List.length (ranks sd) = List.length models
       /\ Forall (fun a => exists row, In row rows /\ a = accuracy row)
            (accuracies sd)
       /\ Forall (fun r => exists row, In row rows /\ r = rank row)
            (ranks sd).

(** The model list the builder computes for the rows of one dataset. *)
Definition builtModels (datasetRows : list MarkerRow) : list string :=
  filter (inEveryStyle (groupByStyle datasetRows))
    (candidateModels (groupByStyle datasetRows) datasetRows).

(** The model list as the specification words it: the candidate ordering
    (the models of the "default" style in order of first appearance, or all
    distinct models when no row has that style) filtered to the models that
    occur with every style of the dataset. *)
Definition hasStyle (datasetRows : list MarkerRow) (s : string) : bool :=
  existsb (fun r => marker_style r =? s) datasetRows.

Definition occursWith (datasetRows : list MarkerRow) (m s : string) : bool :=
  existsb (fun r => (marker_style r =? s) && (model r =? m)) datasetRows.

Definition modelsAsWorded (datasetRows : list MarkerRow) : list string :=
  filter
    (fun m =>
       forallb (occursWith datasetRows m)
         (Keyed.new_Set (map marker_style datasetRows)))
    (if hasStyle datasetRows "default"
     then Keyed.new_Set
            (map model
               (filter (fun r => marker_style r =? "default") datasetRows))
     else Keyed.new_Set (map model datasetRows)).

(** The keys of the model map of style [s], none when there is no map. *)
Definition modelKeys (m : ByStyleByModel) (s : string) : list string :=
  match Keyed.get m s with Some mm => Keyed.keys mm | None => [] end.

(** The entry a style holds for a model: that of the last row with that
    style and that model. *)
Definition lastEntry (datasetRows : list MarkerRow) (s m : string)
    : option Entry :=
  fold_left
    (fun found r =>
       if (marker_style r =? s) && (model r =? m)
       then Some {| entry_accuracy := accuracy r; entry_rank := rank r |}
       else found)
    datasetRows None.

(** The accuracy and the rank of model [m] under style [s]. *)
Definition styleAccuracy (datasetRows : list MarkerRow) (s m : string) : float :=
  toNumber (option_map entry_accuracy (lastEntry datasetRows s m)).

Definition styleRank (datasetRows : list MarkerRow) (s m : string) : float :=
  toNumber (option_map entry_rank (lastEntry datasetRows s m)).

(** The entry found in the grouped maps for a style and a model. *)
Definition entryOf (bsm : ByStyleByModel) (s m : string) : option Entry :=
  match Keyed.get bsm s with Some mm => Keyed.get mm m | None => None end.

(** The subtraction of two aligned arrays, element by element. *)
Definition differences (xs ys : list float) : list float :=
  map (fun p => (fst p - snd p)%float) (combine xs ys).

Definition markerRow (d s m : string) (a r : float) : MarkerRow :=
  {| dataset := d; marker_style := s; model := m; accuracy := a; rank := r |}.

(** Styles "default" and "color_blue", models "A" and "B", with "B"
    missing from "color_blue". *)
Definition missingModelRows : list MarkerRow :=
  [ markerRow "DA2k" "default" "A" 80 2;
    markerRow "DA2k" "default" "B" 90 1;
    markerRow "DA2k" "color_blue" "A" 82 1 ].

(** The rows of the delta scenario: one dataset, styles "default" and "x". *)
Definition deltaRows : list MarkerRow :=
  [ markerRow "style_a" "default" "M1" 80 2;
    markerRow "style_a" "default" "M2" 90 1;
    markerRow "style_a" "x" "M1" 82 1;
    markerRow "style_a" "x" "M2" 85 2 ].

(** Rows in which one marker style is called "models". *)
Definition modelsStyleRows : list MarkerRow :=
  [ markerRow "DA2k" "default" "A" 80 2;
    markerRow "DA2k" "models" "A" 82 1 ].

(** What the builder makes of [deltaRows]. *)
Definition deltaDefault : StyleData :=
  {| accuracies := [80%float; 90%float]; ranks := [2%float; 1%float] |}.

Definition deltaSelected : StyleData :=
  {| accuracies := [82%float; 85%float]; ranks := [1%float; 2%float] |}.

Definition deltaObject : DatasetObj :=
  [("models", ModelList ["M1"; "M2"]);
   ("default", StyleArrays deltaDefault);
   ("x", StyleArrays deltaSelected)].

(** The rows of benchmark [b] and, among them, those of model [m], in
    file order. *)
Definition rowsOfBenchmark (rows : list JpegRow) (b : string) : list JpegRow :=
  filter (fun r => benchmark r =? b) rows.

Definition rowsOfModel (rows : list JpegRow) (b m : string) : list JpegRow :=
  filter (fun r => jpeg_model r =? m) (rowsOfBenchmark rows b).

Definition finiteRanks (l : list JpegRow) : list float :=
  filter isFinite (map jpeg_rank l).

(** [lo] and [hi] are the least and the greatest of [ranks]. *)
Definition isRange (ranks : list float) (lo hi : float) : Prop :=
  In lo ranks /\ In hi ranks
  /\ Forall (fun r => (lo <=? r)%float = true /\ (r <=? hi)%float = true)
       ranks.

(** The default marker of a model: the rank of its first "default" row
    when that is a finite number. *)
Definition defaultDot (l : list JpegRow) : list float :=
  match defaultRankOf l with
  | Some r => if isFinite r then [r] else []
  | None => []
  end.

Definition appendMarks (a b : Marks) : Marks :=
  {| segmentX := segmentX a ++ segmentX b;
     segmentY := segmentY a ++ segmentY b;
     dotX := dotX a ++ dotX b;
     dotY := dotY a ++ dotY b |}.

Definition concatMarks (l : list Marks) : Marks :=
  fold_left appendMarks l noMarks.

(** What model [m] with rows [l] adds to the four arrays: nothing when no
    rank is finite; otherwise the segment over the range of its finite
    ranks and, if there is one, its default marker. *)
Definition modelContribution (m : string) (l : list JpegRow) (c : Marks)
    : Prop :=
  match finiteRanks l with
  | [] => c = noMarks
  | _ :: _ =>
      exists lo hi,
        isRange (finiteRanks l) lo hi
        /\ segmentX c = [Some lo; Some hi; None]
        /\ segmentY c = [Some m; Some m; None]
        /\ dotX c = defaultDot l
        /\ dotY c = map (fun _ => m) (defaultDot l)
  end.

(** A panel presents the models of its benchmark, each once, and its four
    arrays are the contributions of those models in the order drawn (the
    reverse of the category order of the y axis). *)
Definition panelDescribes (rows : list JpegRow) (p : Panel) : Prop :=
  Permutation (rev (panel_yCategories p))
    (Keyed.new_Set (map jpeg_model (rowsOfBenchmark rows (panel_key p))))
  /\ exists cs,
       Forall2
         (fun m c => modelContribution m (rowsOfModel rows (panel_key p) m) c)
         (rev (panel_yCategories p)) cs
       /\ panel_marks p = concatMarks cs.

Definition hasRows (rows : list JpegRow) (b : string) : bool :=
  match rowsOfBenchmark rows b with [] => false | _ :: _ => true end.

Definition jpegRow (b m q : string) (r : float) : JpegRow :=
  {| benchmark := b; jpeg_model := m; jpeg_quality := q; jpeg_rank := r |}.

(** Model "M" with ranks default 3, jpeg70 5 and jpeg90 2. *)
Definition rangeRows : list JpegRow :=
  [ jpegRow "MME" "M" "default" 3;
    jpegRow "MME" "M" "jpeg70" 5;
    jpegRow "MME" "M" "jpeg90" 2 ].

(** A model whose only row, a "default" one, carries a rank that did not
    parse. *)
Definition unparsedRankRows : list JpegRow :=
  [ jpegRow "MME" "M" "default" nan ].

(** The names of the members every object inherits from
    [Object.prototype].  Reading one of them from a plain object without
    an own property of that name yields the inherited member, not
    [undefined], and an assignment to ["__proto__"] creates no own
    property.  On every other key a plain object reads as the association
    list of its own properties. *)
Definition inheritedKeys : list string :=
  [ "constructor"; "hasOwnProperty"; "isPrototypeOf"; "propertyIsEnumerable";
    "toLocaleString"; "toString"; "valueOf"; "__proto__";
    "__defineGetter__"; "__defineSetter__"; "__lookupGetter__";
    "__lookupSetter__" ].

Definition plainKey (k : string) : bool :=
  negb (existsb (String.eqb k) inheritedKeys).

(* ================================================================== *)
(** ** Proof automation *)
(* ================================================================== *)

Ltac split_key_tests y :=
  repeat match goal with
         | |- context [String.eqb y ?k] =>
             let E := fresh "E" in
             destruct (String.eqb y k) eqn:E;
             [apply String.eqb_eq in E; subst y;
              first [reflexivity
                    | match goal with
                      | H : all_chars slug_char _ = true |- _ =>
                          vm_compute in H; discriminate H
                      end]
             |]; simpl orb; cbv iota
         end.

(** Case analysis on every integer and mantissa comparison in the goal. *)
Ltac cmp_cases :=
  repeat match goal with
  | |- context [Pos.compare_cont Eq ?a ?b] =>
      change (Pos.compare_cont Eq a b) with (Pos.compare a b)
  end;
  repeat match goal with
  | |- context [Z.compare ?a ?b] => destruct (Z.compare_spec a b)
  | |- context [Pos.compare ?a ?b] => destruct (Pos.compare_spec a b)
  end; simpl; try reflexivity; try discriminate; try lia; try (intros; lia).

(* ================================================================== *)
(** * Properties *)
(* ================================================================== *)

Local Close Scope float_scope.
Local Open Scope nat_scope.
Local Open Scope string_scope.
Local Open Scope list_scope.

(** ** Strings *)

Section StringFacts.

Lemma is_empty_true (s : string) : is_empty s = true -> s = "".
Proof. destruct s; simpl; congruence. Qed.

Lemma is_empty_false (s : string) : is_empty s = false -> s <> "".
Proof. destruct s; simpl; congruence. Qed.

Lemma trimEnd_fixed (s : string) : trimEnd (trimEnd s) = trimEnd s.
Proof.
  induction s as [|c s IH]; simpl; [reflexivity|].
  destruct (is_space c && is_empty (trimEnd s)) eqn:E; simpl; [reflexivity|].
  rewrite IH, E. reflexivity.
Qed.

Lemma trimStart_head (s : string) :
  trimStart s = "" \/
  exists c t, trimStart s = String c t /\ is_space c = false.
Proof.
  induction s as [|c s IH]; simpl; [now left|].
  destruct (is_space c) eqn:E; [exact IH|].
  right. exists c, s. split; [reflexivity|exact E].
Qed.

(** [trim] leaves a string alone once it has been trimmed. *)
Lemma trim_trim (s : string) : trim (trim s) = trim s.
Proof.
  unfold trim.
  destruct (trimStart_head s) as [E | (c & t & E & Hc)]; rewrite E.
  - reflexivity.
  - assert (Hu : trimEnd (String c t) = String c (trimEnd t))
      by (simpl; rewrite Hc; reflexivity).
    rewrite Hu. simpl trimStart. rewrite Hc, <- Hu. apply trimEnd_fixed.
Qed.

Lemma all_chars_imp (p q : ascii -> bool) (s : string) :
  (forall c, p c = true -> q c = true) ->
  all_chars p s = true -> all_chars q s = true.
Proof.
  intros Hpq. induction s as [|c s IH]; simpl; [trivial|].
  intros H. apply andb_true_iff in H as [H1 H2].
  rewrite (Hpq _ H1), (IH H2). reflexivity.
Qed.

Lemma trimEnd_no_space (s : string) :
  all_chars (fun c => negb (is_space c)) s = true -> trimEnd s = s.
Proof.
  induction s as [|c s IH]; simpl; [trivial|].
  intros H. apply andb_true_iff in H as [H1 H2].
  apply negb_true_iff in H1. rewrite H1, (IH H2). reflexivity.
Qed.

Lemma trimStart_no_space (s : string) :
  all_chars (fun c => negb (is_space c)) s = true -> trimStart s = s.
Proof.
  destruct s as [|c s]; simpl; [trivial|].
  intros H. apply andb_true_iff in H as [H1 _].
  apply negb_true_iff in H1. rewrite H1. reflexivity.
Qed.

Lemma trim_no_space (s : string) :
  all_chars (fun c => negb (is_space c)) s = true -> trim s = s.
Proof.
  intros H. unfold trim. rewrite (trimStart_no_space _ H).
  apply trimEnd_no_space, H.
Qed.

Lemma replaceRuns_none (p : ascii -> bool) (r : ascii) (b : bool) (s : string) :
  all_chars (fun c => negb (p c)) s = true -> replaceRuns p r b s = s.
Proof.
  revert b. induction s as [|c s IH]; simpl; intros b H; [trivial|].
  apply andb_true_iff in H as [H1 H2].
  apply negb_true_iff in H1. rewrite H1, (IH _ H2). reflexivity.
Qed.

Lemma replaceRuns_all (p q : ascii -> bool) (r : ascii) (b : bool) (s : string) :
  q r = true ->
  all_chars (fun c => p c || q c) s = true ->
  all_chars q (replaceRuns p r b s) = true.
Proof.
  intros Hr. revert b. induction s as [|c s IH]; simpl; intros b H; [trivial|].
  apply andb_true_iff in H as [H1 H2].
  destruct (p c) eqn:Ep.
  - destruct b; simpl; [|rewrite Hr]; apply IH, H2.
  - simpl in H1. simpl. rewrite H1. apply IH, H2.
Qed.

Lemma toLowerCase_all (q : ascii -> bool) (s : string) :
  (forall c, q (lower_char c) = true) -> all_chars q (toLowerCase s) = true.
Proof.
  intros H. induction s as [|c s IH]; simpl; [trivial|].
  rewrite H, IH. reflexivity.
Qed.

Lemma toLowerCase_fixed (s : string) :
  all_chars (fun c => Ascii.eqb (lower_char c) c) s = true -> toLowerCase s = s.
Proof.
  induction s as [|c s IH]; simpl; [trivial|].
  intros H. apply andb_true_iff in H as [H1 H2].
  apply Ascii.eqb_eq in H1. rewrite H1, (IH H2). reflexivity.
Qed.

Lemma lower_char_not_upper (c : ascii) : is_upper (lower_char c) = false.
Proof. each_char c. Qed.

Lemma slug_char_facts (c : ascii) :
  slug_char c = true ->
  is_space c = false /\ lower_char c = c /\ not_word_or_dot c = false.
Proof. each_char c; intros _; repeat split. Qed.

Lemma slug_or_not (c : ascii) :
  is_upper c = false -> not_word_or_dot c || slug_char c = true.
Proof. each_char c. Qed.

Lemma space_or_not_upper (c : ascii) :
  is_upper c = false ->
  is_space c || negb (is_upper c) = true.
Proof. intros H. rewrite H. apply orb_true_r. Qed.

End StringFacts.

(** ** Field normalizers *)

Lemma toLowerCase_no_upper (s : string) :
  all_chars (fun c => negb (is_upper c)) (toLowerCase s) = true.
Proof.
  apply toLowerCase_all. intros c. now rewrite lower_char_not_upper.
Qed.

(** Whatever the input, the slug branch yields slug characters only. *)
Lemma slug_of_lowered (raw : string) :
  all_chars slug_char
    (replaceRuns not_word_or_dot "_" false
       (replaceRuns is_space " " false (toLowerCase raw))) = true.
Proof.
  apply replaceRuns_all; [reflexivity|].
  apply all_chars_imp with (p := fun c => negb (is_upper c)).
  - intros c H. apply slug_or_not. now apply negb_true_iff.
  - apply replaceRuns_all; [reflexivity|].
    apply all_chars_imp with (p := fun c => negb (is_upper c)).
    + intros c H. rewrite H. apply orb_true_r.
    + apply toLowerCase_no_upper.
Qed.

(** A string of slug characters is a fixed point of the normalizer. *)
Lemma normalizeMarkerStyleKey_slug (y : string) :
  all_chars slug_char y = true -> normalizeMarkerStyleKey y = y.
Proof.
  intros H. unfold normalizeMarkerStyleKey.
  assert (Hs : all_chars (fun c => negb (is_space c)) y = true).
  { revert H. apply all_chars_imp. intros c Hc.
    destruct (slug_char_facts c Hc) as (-> & _). reflexivity. }
  assert (Hl : toLowerCase y = y).
  { apply toLowerCase_fixed. revert H. apply all_chars_imp. intros c Hc.
    destruct (slug_char_facts c Hc) as (_ & -> & _). apply Ascii.eqb_refl. }
  assert (Hn : all_chars (fun c => negb (not_word_or_dot c)) y = true).
  { revert H. apply all_chars_imp. intros c Hc.
    destruct (slug_char_facts c Hc) as (_ & _ & ->). reflexivity. }
  rewrite (trim_no_space _ Hs). cbv zeta.
  destruct (is_empty y) eqn:E0; [reflexivity|].
  rewrite Hl, (replaceRuns_none _ _ _ _ Hs).
  split_key_tests y.
  apply replaceRuns_none, Hn.
Qed.

(** C10.  [normalizeMarkerStyleKey] is idempotent: its result, a key of the
    table or a slug of lower-case word characters, dots and underscores, is
    mapped to itself. *)
Theorem normalizeMarkerStyleKey_idempotent (x : string) :
  normalizeMarkerStyleKey (normalizeMarkerStyleKey x)
  = normalizeMarkerStyleKey x.
Proof.
  unfold normalizeMarkerStyleKey at 2 3. cbv zeta.
  destruct (is_empty (trim x)) eqn:E0.
  { rewrite (is_empty_true _ E0). reflexivity. }
  set (v := replaceRuns is_space " " false (toLowerCase (trim x))).
  repeat match goal with
         | |- context [String.eqb v ?k] =>
             destruct (String.eqb v k); simpl orb; cbv iota;
             [reflexivity|]
         end.
  apply normalizeMarkerStyleKey_slug, slug_of_lowered.
Qed.

(** C5.  [normalizeDatasetKey] is idempotent. *)
Theorem normalizeDatasetKey_idempotent (x : string) :
  normalizeDatasetKey (normalizeDatasetKey x) = normalizeDatasetKey x.
Proof.
  unfold normalizeDatasetKey at 2 3. cbv zeta.
  pose proof (trim_trim x) as Ht.
  set (v := trim x) in *.
  destruct (is_empty v) eqn:E0.
  { rewrite (is_empty_true _ E0). reflexivity. }
  destruct ((v =? "DA2k") || (toLowerCase v =? "da2k")) eqn:E1;
    [reflexivity|].
  destruct (startsWith v "DA-2K") eqn:E2; [reflexivity|].
  destruct ((v =? "SPair") || (toLowerCase v =? "spair")) eqn:E3;
    [reflexivity|].
  destruct (startsWith v "SPair") eqn:E4; [reflexivity|].
  unfold normalizeDatasetKey. rewrite Ht. cbv zeta.
  rewrite E0, E1, E2, E3, E4. reflexivity.
Qed.

(** C4, as the code has it.  ["Color Blue"] is mapped to ["color_blue"];
    ["unknown style!!"] is mapped to ["unknown_style_"], the closing run
    ["!!"] being replaced by an underscore like any other run. *)
Theorem normalizeMarkerStyleKey_examples :
  normalizeMarkerStyleKey "Color Blue" = "color_blue"
  /\ normalizeMarkerStyleKey "unknown style!!" = "unknown_style_".
Proof. split; reflexivity. Qed.

(** C4, as the specification words it, fails on its second example. *)
Lemma normalizeMarkerStyleKey_examples_as_worded_fail :
  ~ (normalizeMarkerStyleKey "Color Blue" = "color_blue"
     /\ normalizeMarkerStyleKey "unknown style!!" = "unknown_style").
Proof. intros [_ H]. vm_compute in H. discriminate H. Qed.

(** ** CSV reader *)

Lemma split_cons (sep : ascii) (s : string) :
  exists h t, split sep s = h :: t.
Proof.
  induction s as [|c s (h & t & IH)]; simpl; [now eexists; eexists|].
  destruct (Ascii.eqb c sep); [now eexists; eexists|].
  rewrite IH. now eexists; eexists.
Qed.

(** One piece more than there are separators. *)
Lemma split_length (sep : ascii) (s : string) :
  List.length (split sep s) = S (count_char sep s).
Proof.
  induction s as [|c s IH]; simpl; [reflexivity|].
  destruct (Ascii.eqb c sep); simpl; [now rewrite IH|].
  destruct (split_cons sep s) as (h & t & E). rewrite E in *. exact IH.
Qed.

(** No piece contains the separator. *)
Lemma split_pieces (sep : ascii) (s : string) :
  Forall (fun p => count_char sep p = 0) (split sep s).
Proof.
  induction s as [|c s IH]; simpl; [now repeat constructor|].
  destruct (Ascii.eqb c sep) eqn:E; [now constructor|].
  destruct (split_cons sep s) as (h & t & Es). rewrite Es in *.
  inversion IH; subst. constructor; [|assumption].
  simpl. rewrite E. assumption.
Qed.

(** Joining the pieces with the separator gives the string back. *)
Lemma join_split (sep : ascii) (s : string) : join sep (split sep s) = s.
Proof.
  induction s as [|c s IH]; simpl; [reflexivity|].
  destruct (Ascii.eqb c sep) eqn:E.
  - apply Ascii.eqb_eq in E. subst c.
    destruct (split_cons sep s) as (h & t & Es). rewrite Es in *.
    change (join sep ("" :: h :: t)) with (String sep (join sep (h :: t))).
    now rewrite IH.
  - destruct (split_cons sep s) as (h & t & Es). rewrite Es in *.
    destruct t as [|h' t].
    + simpl in *. now rewrite IH.
    + change (join sep (String c h :: h' :: t))
        with (String c (join sep (h :: h' :: t))).
      now rewrite IH.
Qed.

Lemma fields_length (line : string) :
  List.length (fields line) = S (count_char comma line).
Proof. unfold fields. rewrite length_map. apply split_length. Qed.

Lemma fields_trimmed (line : string) :
  Forall (fun f => trim f = f) (fields line).
Proof.
  unfold fields. induction (split comma line); simpl; constructor;
    [apply trim_trim | assumption].
Qed.

(** C6, as the code has it.  The reader trims the whole text first, cuts it
    at the newlines and drops the empty lines only: it is the reader of the
    specification applied to the trimmed text, with "blank" read as "empty".
    The header and every row hold the trimmed fields of their own line, one
    more than the line has commas, whatever the length of the header.  A
    line of white space inside the text is kept and gives the row [[""]]. *)
Theorem parseSimpleCsv_reads (csvText : string) :
  let lines :=
    filter (fun l => negb (is_empty l)) (split newline (trim csvText)) in
  let t := parseSimpleCsv csvText in
  t = readAsWorded is_empty (trim csvText)
  /\ join newline (split newline (trim csvText)) = trim csvText
  /\ Forall (fun l => l <> "" /\ count_char newline l = 0) lines
  /\ List.length (headers t) = S (count_char comma (hd "" lines))
  /\ Forall2
       (fun row line =>
          row = map trim (split comma line)
          /\ List.length row = S (count_char comma line))
       (rows t) (tl lines)
  /\ Forall (Forall (fun f => trim f = f)) (headers t :: rows t)
  /\ rows (parseSimpleCsv (join newline ["h,k"; " "; "1"])) = [[""]; ["1"]].
Proof.
  cbv zeta. unfold parseSimpleCsv, readAsWorded. cbn [headers rows].
  set (lines := filter _ _).
  repeat split.
  - apply join_split.
  - subst lines. apply Forall_forall. intros l Hl.
    apply filter_In in Hl as [Hin Hne]. split.
    + apply is_empty_false. now apply negb_true_iff.
    + pose proof (split_pieces newline (trim csvText)) as Hp.
      rewrite Forall_forall in Hp. now apply Hp.
  - apply fields_length.
  - induction (tl lines) as [|l ls IH]; simpl; constructor; [|exact IH].
    split; [reflexivity | apply fields_length].
  - constructor; [apply fields_trimmed|].
    induction (tl lines) as [|l ls IH]; simpl; constructor;
      [apply fields_trimmed | exact IH].
Qed.

(** C6, as the specification words it, fails: without the first trim a
    leading line of white space would become the header, and with "blank"
    read as "white space only" the inner line would be dropped. *)
Lemma parseSimpleCsv_not_as_worded :
  parseSimpleCsv spacedText <> readAsWorded is_empty spacedText
  /\ parseSimpleCsv spacedText <> readAsWorded is_blank spacedText.
Proof. split; vm_compute; discriminate. Qed.

(** ** Keyed containers *)

Module KeyedFacts.
Import Keyed.

Section WithValue.
Context {V : Type}.
Implicit Types (m : keyed V) (k : string) (v : V).

Lemma get_set_same m k v : get (set m k v) k = Some v.
Proof.
  induction m as [|[k' v'] m IH]; simpl.
  - now rewrite String.eqb_refl.
  - destruct (k' =? k) eqn:E; simpl.
    + now rewrite String.eqb_refl.
    + now rewrite E.
Qed.

Lemma get_set_other m k k' v : k' <> k -> get (set m k' v) k = get m k.
Proof.
  intros Hne. apply String.eqb_neq in Hne.
  induction m as [|[k0 v0] m IH]; simpl.
  - now rewrite Hne.
  - destruct (k0 =? k') eqn:E; simpl.
    + apply String.eqb_eq in E. subst k0. now rewrite Hne.
    + now rewrite IH.
Qed.

Lemma get_set m k k' v :
  get (set m k' v) k = if k' =? k then Some v else get m k.
Proof.
  destruct (k' =? k) eqn:E.
  - apply String.eqb_eq in E. subst. apply get_set_same.
  - apply String.eqb_neq in E. now apply get_set_other.
Qed.

Lemma has_keys m k : has m k = true <-> In k (keys m).
Proof.
  unfold has, keys. induction m as [|[k' v'] m IH]; simpl.
  - split; [discriminate | tauto].
  - destruct (k' =? k) eqn:E.
    + apply String.eqb_eq in E. tauto.
    + apply String.eqb_neq in E. rewrite IH. tauto.
Qed.

Lemma get_none_keys m k : get m k = None <-> ~ In k (keys m).
Proof.
  rewrite <- has_keys. unfold has. destruct (get m k); split;
    congruence || discriminate || tauto.
Qed.

Lemma get_some_in m k v : get m k = Some v -> In (k, v) m.
Proof.
  induction m as [|[k' v'] m IH]; simpl; [discriminate|].
  destruct (k' =? k) eqn:E.
  - apply String.eqb_eq in E. intros [= ->]. subst. now left.
  - intros H. right. now apply IH.
Qed.

Lemma keys_set m k v :
  keys (set m k v) = if has m k then keys m else keys m ++ [k].
Proof.
  unfold has, keys. induction m as [|[k' v'] m IH]; simpl; [reflexivity|].
  destruct (k' =? k) eqn:E; simpl.
  - apply String.eqb_eq in E. now subst.
  - rewrite IH. now destruct (get m k).
Qed.

Lemma in_get_nodup m k v :
  NoDup (keys m) -> In (k, v) m -> get m k = Some v.
Proof.
  unfold keys. induction m as [|[k' v'] m IH]; simpl; [tauto|].
  intros Hnd [H | H].
  - injection H as -> ->. now rewrite String.eqb_refl.
  - inversion Hnd as [|? ? Hn Hnd']; subst.
    destruct (k' =? k) eqn:E.
    + apply String.eqb_eq in E. subst k'. exfalso. apply Hn.
      apply in_map_iff. now exists (k, v).
    + now apply IH.
Qed.

Lemma nodup_keys_set m k v : NoDup (keys m) -> NoDup (keys (set m k v)).
Proof.
  intros H. rewrite keys_set. destruct (has m k) eqn:E; [exact H|].
  apply NoDup_app; [exact H | repeat constructor; simpl; tauto |].
  intros x Hx [<- | []].
  apply has_keys in Hx. congruence.
Qed.

End WithValue.
End KeyedFacts.

(** ** Sets of strings *)

Section SetFacts.
Import Keyed KeyedFacts.

Lemma has_existsb {V : Type} (m : keyed V) (k : string) :
  has m k = existsb (String.eqb k) (keys m).
Proof.
  unfold has, keys. induction m as [|[k' v] m IH]; simpl; [reflexivity|].
  rewrite (String.eqb_sym k k'). destruct (k' =? k); [reflexivity | exact IH].
Qed.

Lemma keys_set_add {V : Type} (m : keyed V) (k : string) (v : V) :
  keys (set m k v) = set_add (keys m) k.
Proof.
  rewrite keys_set. unfold set_add. rewrite <- has_existsb. reflexivity.
Qed.

Lemma has_set_same {V : Type} (m : keyed V) (k : string) (v : V) :
  has (set m k v) k = true.
Proof. unfold has. now rewrite get_set_same. Qed.

Lemma set_add_present (s : list string) (x : string) :
  In x s -> set_add s x = s.
Proof.
  intros H. unfold set_add.
  assert (E : existsb (String.eqb x) s = true).
  { apply existsb_exists. exists x. split; [exact H | apply String.eqb_refl]. }
  now rewrite E.
Qed.

Lemma in_set_add (s : list string) (x y : string) :
  In y (set_add s x) <-> y = x \/ In y s.
Proof.
  unfold set_add. destruct (existsb (String.eqb x) s) eqn:E.
  - apply existsb_exists in E as (z & Hz & Ez).
    apply String.eqb_eq in Ez. subst z. split; [tauto|].
    intros [-> | H]; assumption.
  - rewrite in_app_iff. simpl. split; intros H; intuition congruence.
Qed.

Lemma in_fold_set_add (l s : list string) (y : string) :
  In y (fold_left set_add l s) <-> In y s \/ In y l.
Proof.
  revert s. induction l as [|x l IH]; simpl; intros s; [tauto|].
  rewrite IH, in_set_add. intuition congruence.
Qed.

(** [new Set(l)] has the elements of [l]. *)
Lemma in_new_Set (l : list string) (y : string) :
  In y (new_Set l) <-> In y l.
Proof. unfold new_Set. rewrite in_fold_set_add. simpl. tauto. Qed.

End SetFacts.

(** ** Loading the marker CSV: missing columns *)

Lemma headerIndexFrom_absent (k : string) (hs : list string) :
  ~ In k hs ->
  forall i idx, Keyed.get (headerIndexFrom i hs idx) k = Keyed.get idx k.
Proof.
  induction hs as [|h hs IH]; simpl; intros Hk i idx; [reflexivity|].
  rewrite IH by tauto.
  destruct (is_empty h); [reflexivity|].
  apply KeyedFacts.get_set_other. intros ->. apply Hk. now left.
Qed.

(** A name that is not in the header row has no index. *)
Lemma buildCsvHeaderIndex_absent (k : string) (hs : list string) :
  ~ In k hs -> Keyed.get (buildCsvHeaderIndex hs) k = None.
Proof.
  intros H. unfold buildCsvHeaderIndex.
  now rewrite headerIndexFrom_absent.
Qed.

(** A name of the header row, other than the empty one, has an index. *)
Lemma headerIndexFrom_present (k : string) (hs : list string) :
  In k hs -> k <> "" ->
  forall i idx, exists n, Keyed.get (headerIndexFrom i hs idx) k = Some n.
Proof.
  intros Hin Hk. revert Hin.
  induction hs as [|h hs IH]; simpl; intros Hin i idx; [tauto|].
  destruct (in_dec string_dec k hs) as [Hl | Hl]; [now apply IH|].
  destruct Hin as [-> | Hin]; [|tauto].
  rewrite headerIndexFrom_absent by assumption.
  destruct k; [congruence|]. simpl is_empty. cbv iota.
  eexists. apply KeyedFacts.get_set_same.
Qed.

Lemma noteMissing_keeps (idx : option nat) (name x : string)
    (missing : list string) :
  In x missing -> In x (noteMissing idx name missing).
Proof.
  intros H. destruct idx; simpl; [exact H|]. apply in_or_app. now left.
Qed.

Lemma noteMissing_adds (name : string) (missing : list string) :
  In name (noteMissing None name missing).
Proof. simpl. apply in_or_app. right. now left. Qed.

(** C9.  When the header row of the marker CSV lacks one of the required
    columns, the [try] block throws the missing-columns failure naming that
    column; [loadMarkerData] then returns [null] and leaves the global
    [MARKER_DATA] as it was, so unset before the first successful load. *)
Theorem loadMarkerData_missing_column
    (parseFloat parseInt10 : string -> float)
    (csvText col : string) (MARKER_DATA : option MarkerData) :
  In col requiredColumns ->
  ~ In col (headers (parseSimpleCsv csvText)) ->
  (exists missing,
      loadMarkerDataBody parseFloat parseInt10 (Response true csvText)
      = Throw (MissingColumns missing)
      /\ In col missing)
  /\ loadMarkerData parseFloat parseInt10 (Response true csvText) MARKER_DATA
     = (None, MARKER_DATA)
  /\ loadMarkerData parseFloat parseInt10 (Response true csvText) None
     = (None, None).
Proof.
  intros Hreq Habs.
  assert (Hbody : exists missing,
             loadMarkerDataBody parseFloat parseInt10 (Response true csvText)
             = Throw (MissingColumns missing) /\ In col missing).
  { unfold loadMarkerDataBody. cbv zeta.
    set (idx := buildCsvHeaderIndex (headers (parseSimpleCsv csvText))).
    assert (Hcol : Keyed.get idx col = None)
      by now apply buildCsvHeaderIndex_absent.
    set (missing := noteMissing _ "rank" _).
    assert (Hin : In col missing).
    { subst missing. simpl in Hreq.
      destruct Hreq as [<- | [<- | [<- | [<- | [<- | []]]]]]; rewrite Hcol;
        repeat first [apply noteMissing_adds | apply noteMissing_keeps]. }
    destruct missing as [|x xs] eqn:E; [destruct Hin|].
    eexists. split; [reflexivity | exact Hin]. }
  split; [exact Hbody|].
  destruct Hbody as (missing & Hb & _).
  unfold loadMarkerData. rewrite Hb. now split.
Qed.

(** C9 at a concrete file whose header has no [rank] column. *)
Lemma loadMarkerData_missing_column_witness :
  In "rank" requiredColumns
  /\ ~ In "rank"
       (headers (parseSimpleCsv "dataset,model,marker_style,accuracy"))
  /\ loadMarkerData (fun _ => 0%float) (fun _ => 0%float)
       (Response true "dataset,model,marker_style,accuracy") None
     = (None, None).
Proof.
  assert (H1 : In "rank" requiredColumns) by (simpl; tauto).
  assert (H2 : ~ In "rank"
                 (headers
                    (parseSimpleCsv "dataset,model,marker_style,accuracy"))).
  { vm_compute. intros [H | [H | [H | [H | []]]]]; discriminate H. }
  split; [exact H1|]. split; [exact H2|].
  exact (proj2 (proj2
           (loadMarkerData_missing_column (fun _ => 0%float)
              (fun _ => 0%float) "dataset,model,marker_style,accuracy"
              "rank" None H1 H2))).
Defined.

(** ** Binary64 numbers *)

Module FloatFacts.

Local Open Scope float_scope.

(** *** The order of the specification floats *)

Lemma SFleb_trans (x y z : spec_float) :
  SFleb x y = true -> SFleb y z = true -> SFleb x z = true.
Proof.
  unfold SFleb.
  destruct x as [[]|[]| |[] mx ex], y as [[]|[]| |[] my ey],
           z as [[]|[]| |[] mz ez];
    simpl; try reflexivity; try discriminate; try (intros; discriminate).
  all: cmp_cases.
Qed.

Lemma SFcompare_swap (x y : spec_float) :
  SFcompare y x = option_map CompOpp (SFcompare x y).
Proof.
  destruct x as [[]|[]| |[] mx ex], y as [[]|[]| |[] my ey];
    simpl; try reflexivity.
  all: cmp_cases.
Qed.

Lemma SFcompare_defined (x y : spec_float) :
  x <> S754_nan -> y <> S754_nan -> exists c, SFcompare x y = Some c.
Proof.
  destruct x as [[]|[]| |[] mx ex], y as [[]|[]| |[] my ey];
    simpl; intros; try congruence; eauto.
Qed.

(** *** Rounding never yields NaN *)







(** *** Classification *)

Lemma isNaN_spec (x : float) : isNaN x = true <-> Prim2SF x = S754_nan.
Proof.
  unfold isNaN. rewrite classify_spec. unfold SF64classify, SFclassify.
  destruct (Prim2SF x) as [[]|[]| |[] m e];
    try destruct (Z.eqb _ _); split; congruence.
Qed.

Lemma isNaN_false (x : float) : isNaN x = false <-> Prim2SF x <> S754_nan.
Proof.
  rewrite <- isNaN_spec. destruct (isNaN x); split; congruence.
Qed.

Lemma isFinite_spec (x : float) :
  isFinite x = true <->
  (exists s, Prim2SF x = S754_zero s)
  \/ (exists s m e, Prim2SF x = S754_finite s m e).
Proof.
  unfold isFinite. rewrite classify_spec. unfold SF64classify, SFclassify.
  destruct (Prim2SF x) as [[]|[]| |[] m e];
    try destruct (Z.eqb _ _); split;
    try discriminate; try (intros [[? ?] | (? & ? & ? & ?)]; discriminate);
    intros _; eauto.
Qed.

Lemma isFinite_not_nan (x : float) : isFinite x = true -> isNaN x = false.
Proof.
  intros H. apply isNaN_false. apply isFinite_spec in H.
  destruct H as [[s H] | (s & m & e & H)]; rewrite H; discriminate.
Qed.


(** *** Comparisons *)

Lemma leb_trans (a b c : float) :
  (a <=? b) = true -> (b <=? c) = true -> (a <=? c) = true.
Proof. rewrite !leb_spec. apply SFleb_trans. Qed.

Lemma leb_refl (a : float) : isNaN a = false -> (a <=? a) = true.
Proof.
  intros H. apply isNaN_false in H. rewrite leb_spec. unfold SFleb.
  destruct (SFcompare_defined _ _ H H) as [c Hc].
  pose proof (SFcompare_swap (Prim2SF a) (Prim2SF a)) as Hs.
  rewrite Hc in Hs |- *. destruct c; simpl in Hs; congruence.
Qed.

Lemma ltb_leb (a b : float) : (a <? b) = true -> (a <=? b) = true.
Proof.
  rewrite ltb_spec, leb_spec. unfold SFltb, SFleb.
  destruct (SFcompare _ _) as [[]|]; congruence.
Qed.

Lemma not_ltb_leb (a b : float) :
  isNaN a = false -> isNaN b = false ->
  (a <? b) = false -> (b <=? a) = true.
Proof.
  intros Ha Hb. apply isNaN_false in Ha, Hb.
  rewrite ltb_spec, leb_spec. unfold SFltb, SFleb.
  rewrite (SFcompare_swap (Prim2SF a) (Prim2SF b)).
  destruct (SFcompare_defined _ _ Ha Hb) as [c ->].
  destruct c; simpl; congruence.
Qed.



Lemma negzero_leb_poszero (a b : float) :
  isNegZero a = true -> isPosZero b = true -> (a <=? b) = true.
Proof.
  unfold isNegZero, isPosZero. rewrite leb_spec, !classify_spec.
  unfold SF64classify, SFclassify.
  destruct (Prim2SF a) as [[]|[]| |[] ma ea], (Prim2SF b) as [[]|[]| |[] mb eb];
    repeat match goal with |- context [Z.eqb ?u ?v] => destruct (Z.eqb u v) end;
    try discriminate; try (intros; discriminate); reflexivity.
Qed.

Lemma infinity_not_leb_finite (x : float) :
  isFinite x = true -> (infinity <=? x) = false.
Proof.
  intros H. apply isFinite_spec in H. rewrite leb_spec.
  change (Prim2SF infinity) with (S754_infinity false).
  destruct H as [[s H] | (s & m & e & H)]; rewrite H; reflexivity.
Qed.

Lemma finite_not_leb_neg_infinity (x : float) :
  isFinite x = true -> (x <=? neg_infinity) = false.
Proof.
  intros H. apply isFinite_spec in H. rewrite leb_spec.
  change (Prim2SF neg_infinity) with (S754_infinity true).
  destruct H as [[s H] | (s & m & e & H)]; rewrite H; reflexivity.
Qed.

(** *** [Math.min] and [Math.max] on numbers *)

Lemma min_from_spec (l : list float) (lowest : float) :
  isNaN lowest = false ->
  Forall (fun x => isNaN x = false) l ->
  (min_from lowest l = lowest \/ In (min_from lowest l) l)
  /\ (min_from lowest l <=? lowest) = true
  /\ Forall (fun x => (min_from lowest l <=? x) = true) l.
Proof.
  revert lowest. induction l as [|number l IH]; intros lowest Hl Hall.
  - simpl. repeat split; [now left | now apply leb_refl | constructor].
  - inversion Hall as [|? ? Hn Hall']; subst. simpl. rewrite Hn.
    assert (Hstep : forall next,
               isNaN next = false ->
               (next = lowest \/ next = number) ->
               (next <=? lowest) = true -> (next <=? number) = true ->
               (min_from next l = lowest \/ In (min_from next l) (number :: l))
               /\ (min_from next l <=? lowest) = true
               /\ Forall (fun x => (min_from next l <=? x) = true)
                    (number :: l)).
    { intros next Hnn Hor H1 H2.
      destruct (IH next Hnn Hall') as (Hin & Hle & Hfa).
      repeat split.
      - destruct Hin as [-> | Hin]; [|now right; right].
        destruct Hor as [-> | ->]; [now left | now right; left].
      - eapply leb_trans; eassumption.
      - constructor; [eapply leb_trans; eassumption | exact Hfa]. }
    destruct (isNegZero number && isPosZero lowest) eqn:Ez.
    + apply andb_true_iff in Ez as [Ez1 Ez2].
      apply Hstep; [exact Hn | now right | | now apply leb_refl].
      now apply negzero_leb_poszero.
    + destruct (number <? lowest) eqn:Elt.
      * apply Hstep; [exact Hn | now right | | now apply leb_refl].
        now apply ltb_leb.
      * apply Hstep; [exact Hl | now left | now apply leb_refl |].
        now apply not_ltb_leb.
Qed.

Lemma max_from_spec (l : list float) (highest : float) :
  isNaN highest = false ->
  Forall (fun x => isNaN x = false) l ->
  (max_from highest l = highest \/ In (max_from highest l) l)
  /\ (highest <=? max_from highest l) = true
  /\ Forall (fun x => (x <=? max_from highest l) = true) l.
Proof.
  revert highest. induction l as [|number l IH]; intros highest Hl Hall.
  - simpl. repeat split; [now left | now apply leb_refl | constructor].
  - inversion Hall as [|? ? Hn Hall']; subst. simpl. rewrite Hn.
    assert (Hstep : forall next,
               isNaN next = false ->
               (next = highest \/ next = number) ->
               (highest <=? next) = true -> (number <=? next) = true ->
               (max_from next l = highest \/ In (max_from next l) (number :: l))
               /\ (highest <=? max_from next l) = true
               /\ Forall (fun x => (x <=? max_from next l) = true)
                    (number :: l)).
    { intros next Hnn Hor H1 H2.
      destruct (IH next Hnn Hall') as (Hin & Hle & Hfa).
      repeat split.
      - destruct Hin as [-> | Hin]; [|now right; right].
        destruct Hor as [-> | ->]; [now left | now right; left].
      - eapply leb_trans; eassumption.
      - constructor; [eapply leb_trans; eassumption | exact Hfa]. }
    destruct (isPosZero number && isNegZero highest) eqn:Ez.
    + apply andb_true_iff in Ez as [Ez1 Ez2].
      apply Hstep; [exact Hn | now right | | now apply leb_refl].
      now apply negzero_leb_poszero.
    + destruct (highest <? number) eqn:Elt.
      * apply Hstep; [exact Hn | now right | | now apply leb_refl].
        now apply ltb_leb.
      * apply Hstep; [exact Hl | now left | now apply leb_refl |].
        now apply not_ltb_leb.
Qed.

Lemma Forall_finite_not_nan (l : list float) :
  Forall (fun x => isFinite x = true) l ->
  Forall (fun x => isNaN x = false) l.
Proof.
  apply Forall_impl. intros x. apply isFinite_not_nan.
Qed.

(** On finite numbers [Math.min] returns one of its arguments, below or
    equal to each of them. *)
Lemma Math_min_finite (x : float) (l : list float) :
  Forall (fun y => isFinite y = true) (x :: l) ->
  In (Math_min (x :: l)) (x :: l)
  /\ Forall (fun y => (Math_min (x :: l) <=? y) = true) (x :: l).
Proof.
  intros Hfin. unfold Math_min.
  destruct (min_from_spec (x :: l) infinity eq_refl
              (Forall_finite_not_nan _ Hfin)) as (Hin & _ & Hfa).
  split; [|exact Hfa].
  destruct Hin as [E | Hin]; [|exact Hin].
  exfalso. inversion Hfa as [|? ? Hx _]; subst. rewrite E in Hx.
  inversion Hfin as [|? ? Hfx _]; subst.
  rewrite (infinity_not_leb_finite _ Hfx) in Hx. discriminate.
Qed.

Lemma Math_max_finite (x : float) (l : list float) :
  Forall (fun y => isFinite y = true) (x :: l) ->
  In (Math_max (x :: l)) (x :: l)
  /\ Forall (fun y => (y <=? Math_max (x :: l)) = true) (x :: l).
Proof.
  intros Hfin. unfold Math_max.
  destruct (max_from_spec (x :: l) neg_infinity eq_refl
              (Forall_finite_not_nan _ Hfin)) as (Hin & _ & Hfa).
  split; [|exact Hfa].
  destruct Hin as [E | Hin]; [|exact Hin].
  exfalso. inversion Hfa as [|? ? Hx _]; subst. rewrite E in Hx.
  inversion Hfin as [|? ? Hfx _]; subst.
  rewrite (finite_not_leb_neg_infinity _ Hfx) in Hx. discriminate.
Qed.

End FloatFacts.

(** ** The exception monad *)

Lemma mapM_ok_length {A B : Type} (f : A -> result B) (l : list A)
    (bs : list B) :
  mapM f l = Ok bs -> List.length bs = List.length l.
Proof.
  revert bs. induction l as [|a l IH]; simpl; intros bs H.
  - injection H as <-. reflexivity.
  - destruct (f a) as [b|]; simpl in H; [|discriminate].
    destruct (mapM f l) as [bs'|]; simpl in H; [|discriminate].
    injection H as <-. simpl. f_equal. now apply IH.
Qed.

Lemma mapM_ok_each {A B : Type} (f : A -> result B) (l : list A)
    (bs : list B) :
  mapM f l = Ok bs -> Forall2 (fun a b => f a = Ok b) l bs.
Proof.
  revert bs. induction l as [|a l IH]; simpl; intros bs H.
  - injection H as <-. constructor.
  - destruct (f a) as [b|] eqn:E; simpl in H; [|discriminate].
    destruct (mapM f l) as [bs'|]; simpl in H; [|discriminate].
    injection H as <-. constructor; [exact E | now apply IH].
Qed.

Lemma mapM_each_ok {A B : Type} (f : A -> result B) (l : list A)
    (bs : list B) :
  Forall2 (fun a b => f a = Ok b) l bs -> mapM f l = Ok bs.
Proof.
  induction 1 as [|a b l bs E _ IH]; simpl; [reflexivity|].
  now rewrite E, IH.
Qed.

Lemma mapM_total {A B : Type} (f : A -> result B) (l : list A) :
  (forall a, In a l -> exists b, f a = Ok b) -> exists bs, mapM f l = Ok bs.
Proof.
  induction l as [|a l IH]; simpl; intros H; [now eexists|].
  destruct (H a) as [b Hb]; [now left|]. rewrite Hb.
  destruct IH as [bs Hbs]; [intros; apply H; now right|]. rewrite Hbs.
  now eexists.
Qed.

Lemma foldM_invariant {A S : Type} (P : S -> Prop) (f : S -> A -> result S)
    (l : list A) :
  (forall s a s', P s -> In a l -> f s a = Ok s' -> P s') ->
  forall s r, P s -> foldM f l s = Ok r -> P r.
Proof.
  induction l as [|a l IH]; simpl; intros Hstep s r Hs H.
  - injection H as <-. exact Hs.
  - destruct (f s a) as [s'|] eqn:E; simpl in H; [|discriminate].
    apply (IH (fun s0 a0 s0' Hp Hin => Hstep s0 a0 s0' Hp (or_intror Hin))
             s' r); [|exact H].
    apply (Hstep s a s' Hs); [now left | exact E].
Qed.

Lemma foldM_total {A S : Type} (f : S -> A -> result S) (l : list A) :
  (forall s a, In a l -> exists s', f s a = Ok s') ->
  forall s, exists r, foldM f l s = Ok r.
Proof.
  induction l as [|a l IH]; simpl; intros H s; [now eexists|].
  destruct (H s a) as [s' Hs']; [now left|]. rewrite Hs'. simpl.
  apply IH. intros; apply H; now right.
Qed.

(** ** Marker dataset builder *)

Section BuilderFacts.
Import Keyed KeyedFacts.

Lemma in_set_cases {V : Type} (m : keyed V) (k k' : string) (v v' : V) :
  In (k, v) (set m k' v') -> (k = k' /\ v = v') \/ In (k, v) m.
Proof.
  induction m as [|[k0 v0] m IH]; simpl.
  - intros [[= <- <-] | []]. now left.
  - destruct (k0 =? k'); simpl.
    + intros [[= <- <-] | H]; [now left | now right; right].
    + intros [H | H]; [now right; left|].
      destruct (IH H) as [? | ?]; [now left | now right; right].
Qed.

Lemma emptyStyleMaps_empty (styles : list string) :
  forall style modelMap,
    In (style, modelMap) (emptyStyleMaps styles) -> modelMap = [].
Proof.
  unfold emptyStyleMaps.
  assert (H : forall (m : ByStyleByModel),
             (forall s mm, In (s, mm) m -> mm = []) ->
             forall s mm,
               In (s, mm) (fold_left (fun m style => set m style []) styles m)
               -> mm = []).
  { induction styles as [|x styles IH]; simpl; intros m Hm; [exact Hm|].
    apply IH. intros s mm Hin.
    destruct (in_set_cases _ _ _ _ _ Hin) as [[_ ->] | Hin']; eauto. }
  apply H. intros s mm [].
Qed.

Lemma recordRow_entriesFrom (rows : list MarkerRow) (m : ByStyleByModel)
    (row : MarkerRow) :
  In row rows -> entriesFrom rows m -> entriesFrom rows (recordRow m row).
Proof.
  intros Hrow Hm. unfold recordRow.
  set (m1 := if has m (marker_style row) then m
             else set m (marker_style row) []).
  assert (Hm1 : entriesFrom rows m1).
  { subst m1. destruct (has m (marker_style row)); [exact Hm|].
    intros style mm Hin k e He.
    destruct (in_set_cases _ _ _ _ _ Hin) as [[_ ->] | Hin'];
      [destruct He | eapply Hm; eassumption]. }
  destruct (get m1 (marker_style row)) as [modelMap|] eqn:Eg; [|exact Hm1].
  intros style mm Hin k e He.
  destruct (in_set_cases _ _ _ _ _ Hin) as [[-> ->] | Hin'];
    [|eapply Hm1; eassumption].
  destruct (in_set_cases _ _ _ _ _ He) as [[-> ->] | He'].
  - exists row. simpl. repeat split; trivial.
  - apply get_some_in in Eg. eapply Hm1; eassumption.
Qed.

Lemma groupByStyle_entriesFrom (rows : list MarkerRow) :
  entriesFrom rows (groupByStyle rows).
Proof.
  unfold groupByStyle.
  assert (H : forall l m, incl l rows -> entriesFrom rows m ->
                          entriesFrom rows (fold_left recordRow l m)).
  { induction l as [|r l IH]; simpl; intros m Hl Hm; [exact Hm|].
    apply IH; [intros x Hx; apply Hl; now right|].
    apply recordRow_entriesFrom; [apply Hl; now left | exact Hm]. }
  apply H; [apply incl_refl|].
  intros style mm Hin k e He.
  rewrite (emptyStyleMaps_empty _ _ _ Hin) in He. destruct He.
Qed.

Lemma entryField_ok (f : Entry -> float) (modelMap : ByModel) (m : string)
    (a : float) :
  entryField f modelMap m = Ok a ->
  exists e, get modelMap m = Some e /\ a = f e.
Proof.
  unfold entryField. destruct (get modelMap m) as [e|]; [|discriminate].
  intros [= <-]. now exists e.
Qed.

Lemma putStyle_ok (models : list string) (obj obj' : DatasetObj)
    (sm : string * ByModel) :
  putStyle models obj sm = Ok obj' ->
  exists accs rks,
    mapM (entryField entry_accuracy (snd sm)) models = Ok accs
    /\ mapM (entryField entry_rank (snd sm)) models = Ok rks
    /\ obj' = set obj (fst sm)
                (StyleArrays {| accuracies := accs; ranks := rks |}).
Proof.
  unfold putStyle.
  destruct (mapM (entryField entry_accuracy (snd sm)) models) as [accs|];
    simpl; [|discriminate].
  destruct (mapM (entryField entry_rank (snd sm)) models) as [rks|];
    simpl; [|discriminate].
  intros [= <-]. now exists accs, rks.
Qed.

Lemma mapM_entryField_from (rows : list MarkerRow) (style : string)
    (modelMap : ByModel) (f : Entry -> float) (g : MarkerRow -> float)
    (models : list string) (vals : list float) :
  (forall k e, In (k, e) modelMap ->
     exists row, In row rows /\ marker_style row = style /\ model row = k
                 /\ f e = g row) ->
  mapM (entryField f modelMap) models = Ok vals ->
  Forall (fun a => exists row, In row rows /\ a = g row) vals.
Proof.
  intros Hfrom H. apply mapM_ok_each in H.
  induction H as [|m a ms vs E _ IH]; constructor; [|exact IH].
  apply entryField_ok in E as (e & Hg & ->).
  apply get_some_in in Hg.
  destruct (Hfrom _ _ Hg) as (row & Hin & _ & _ & Hf). now exists row.
Qed.

(** Every property of a built dataset object is the computed model list or
    a pair of arrays of its length, filled from the rows. *)
Lemma buildDataset_built (rows : list MarkerRow) (obj : DatasetObj) :
  buildDataset rows = Ok obj ->
  forall k v, get obj k = Some v -> builtProp rows (builtModels rows) v.
Proof.
  unfold buildDataset. fold (builtModels rows).
  apply (foldM_invariant
           (fun o => forall k v, get o k = Some v ->
                                 builtProp rows (builtModels rows) v)).
  - intros o sm o' Ho Hin Hput k v Hget.
    apply putStyle_ok in Hput as (accs & rks & Ha & Hr & ->).
    rewrite get_set in Hget. destruct (fst sm =? k); [|eauto].
    injection Hget as <-. right. eexists. split; [reflexivity|]. simpl.
    pose proof (groupByStyle_entriesFrom rows) as Hfrom.
    destruct sm as [style modelMap]. simpl in *.
    repeat split.
    + now apply mapM_ok_length in Ha.
    + now apply mapM_ok_length in Hr.
    + eapply mapM_entryField_from with (style := style); [|exact Ha].
      intros k0 e He. destruct (Hfrom _ _ Hin _ _ He) as (row & ?).
      exists row. tauto.
    + eapply mapM_entryField_from with (style := style); [|exact Hr].
      intros k0 e He. destruct (Hfrom _ _ Hin _ _ He) as (row & ?).
      exists row. tauto.
  - intros k v Hget. rewrite get_set in Hget.
    destruct ("models" =? k); [|discriminate Hget].
    injection Hget as <-. now left.
Qed.

(** The builder never throws: every model kept by the filter has an entry
    in every style. *)
Lemma buildDataset_total (rows : list MarkerRow) :
  exists obj, buildDataset rows = Ok obj.
Proof.
  unfold buildDataset. apply foldM_total. intros obj sm Hin.
  assert (Hall : forall f, exists vals,
             mapM (entryField f (snd sm))
               (filter (inEveryStyle (groupByStyle rows))
                  (candidateModels (groupByStyle rows) rows)) = Ok vals).
  { intros f. apply mapM_total. intros m Hm.
    apply filter_In in Hm as [_ Hm]. unfold inEveryStyle in Hm.
    rewrite forallb_forall in Hm. specialize (Hm sm Hin).
    cbv beta in Hm. unfold has in Hm. unfold entryField, ByModel in *.
    destruct (get (snd sm) m); [now eexists | discriminate Hm]. }
  unfold putStyle.
  destruct (Hall entry_accuracy) as [accs ->].
  destruct (Hall entry_rank) as [rks ->]. simpl. now eexists.
Qed.

Lemma buildMarkerData_total (parsedRows : list MarkerRow) :
  exists data, buildMarkerData parsedRows = Ok data.
Proof.
  unfold buildMarkerData. apply foldM_total. intros data ds _.
  destruct (buildDataset_total (rowsOfDataset parsedRows ds)) as [obj ->].
  simpl. now eexists.
Qed.

(** Each dataset object of the result was built from the rows of its own
    dataset. *)
Lemma buildMarkerData_dataset (parsedRows : list MarkerRow)
    (data : MarkerData) (ds : string) (obj : DatasetObj) :
  buildMarkerData parsedRows = Ok data ->
  get data ds = Some obj ->
  buildDataset (rowsOfDataset parsedRows ds) = Ok obj.
Proof.
  unfold buildMarkerData. intros H. revert ds obj.
  revert H.
  apply (foldM_invariant
           (fun d => forall ds obj, get d ds = Some obj ->
                       buildDataset (rowsOfDataset parsedRows ds) = Ok obj)).
  - intros d ds' d' Hd _ Hstep ds obj Hget.
    destruct (buildDataset (rowsOfDataset parsedRows ds')) as [o|] eqn:E;
      simpl in Hstep; [|discriminate].
    injection Hstep as <-. rewrite get_set in Hget.
    destruct (ds' =? ds) eqn:Eq; [|eauto].
    apply String.eqb_eq in Eq. subst ds'. now injection Hget as <-.
  - intros ds obj. discriminate.
Qed.

End BuilderFacts.

(** ** The model list of the builder against its description *)

Section ModelListFacts.
Import Keyed KeyedFacts.

Lemma set_add_nodup (s : list string) (x : string) :
  NoDup s -> NoDup (set_add s x).
Proof.
  intros H. unfold set_add. destruct (existsb (String.eqb x) s) eqn:E;
    [exact H|].
  apply NoDup_app; [exact H | repeat constructor; simpl; tauto |].
  intros y Hy [Hyx | []]. subst y.
  assert (Et : existsb (String.eqb x) s = true).
  { apply existsb_exists. exists x. split; [exact Hy | apply String.eqb_refl]. }
  congruence.
Qed.

Lemma fold_set_add_nodup (l s : list string) :
  NoDup s -> NoDup (fold_left set_add l s).
Proof.
  revert s. induction l as [|x l IH]; simpl; intros s H; [exact H|].
  apply IH, set_add_nodup, H.
Qed.

Lemma new_Set_nodup (l : list string) : NoDup (new_Set l).
Proof. apply fold_set_add_nodup. constructor. Qed.

Lemma emptyStyleMaps_keys (styles : list string) (y : string) :
  In y (keys (emptyStyleMaps styles)) <-> In y styles.
Proof.
  unfold emptyStyleMaps.
  assert (H : forall m : ByStyleByModel,
             keys (fold_left (fun m style => set m style []) styles m)
             = fold_left set_add styles (keys m)).
  { induction styles as [|s styles IH]; simpl; intros m; [reflexivity|].
    now rewrite IH, keys_set_add. }
  rewrite H, in_fold_set_add. simpl. tauto.
Qed.

Lemma emptyStyleMaps_nodup (styles : list string) :
  NoDup (keys (emptyStyleMaps styles)).
Proof.
  unfold emptyStyleMaps.
  assert (H : forall m : ByStyleByModel, NoDup (keys m) ->
             NoDup (keys (fold_left (fun m style => set m style [])
                            styles m))).
  { induction styles as [|s styles IH]; simpl; intros m Hm; [exact Hm|].
    apply IH, nodup_keys_set, Hm. }
  apply H. constructor.
Qed.

Lemma recordRow_keys (m : ByStyleByModel) (row : MarkerRow) :
  keys (recordRow m row) = set_add (keys m) (marker_style row).
Proof.
  unfold recordRow.
  set (m1 := if has m (marker_style row) then m
             else set m (marker_style row) []).
  assert (H1 : keys m1 = set_add (keys m) (marker_style row)).
  { subst m1. destruct (has m (marker_style row)) eqn:E.
    - symmetry. apply set_add_present. now apply has_keys.
    - apply keys_set_add. }
  assert (H2 : has m1 (marker_style row) = true).
  { subst m1. destruct (has m (marker_style row)) eqn:E;
      [exact E | apply has_set_same]. }
  unfold has in H2.
  destruct (get m1 (marker_style row)) eqn:E; [|discriminate].
  rewrite keys_set. unfold has. now rewrite E.
Qed.

Lemma recordRow_modelKeys (m : ByStyleByModel) (row : MarkerRow) (s : string) :
  modelKeys (recordRow m row) s
  = if marker_style row =? s
    then set_add (modelKeys m s) (model row)
    else modelKeys m s.
Proof.
  unfold recordRow, modelKeys.
  set (m1 := if has m (marker_style row) then m
             else set m (marker_style row) []).
  assert (H1 : get m1 (marker_style row)
               = Some (match get m (marker_style row) with
                       | Some mm => mm | None => [] end)).
  { subst m1. unfold has. destruct (get m (marker_style row)) eqn:E;
      [exact E | apply get_set_same]. }
  assert (H2 : forall k, marker_style row <> k -> get m1 k = get m k).
  { intros k Hk. subst m1. destruct (has m (marker_style row));
      [reflexivity | now apply get_set_other]. }
  rewrite H1, get_set. destruct (marker_style row =? s) eqn:E.
  - apply String.eqb_eq in E. subst s. rewrite keys_set_add.
    now destruct (get m (marker_style row)).
  - apply String.eqb_neq in E. now rewrite H2.
Qed.

Lemma fold_recordRow_keys (l : list MarkerRow) (m : ByStyleByModel) :
  keys (fold_left recordRow l m)
  = fold_left set_add (map marker_style l) (keys m).
Proof.
  revert m. induction l as [|r l IH]; simpl; intros m; [reflexivity|].
  now rewrite IH, recordRow_keys.
Qed.

Lemma fold_recordRow_modelKeys (l : list MarkerRow) (m : ByStyleByModel)
    (s : string) :
  modelKeys (fold_left recordRow l m) s
  = fold_left set_add
      (map model (filter (fun r => marker_style r =? s) l)) (modelKeys m s).
Proof.
  revert m. induction l as [|r l IH]; simpl; intros m; [reflexivity|].
  rewrite IH, recordRow_modelKeys.
  now destruct (marker_style r =? s).
Qed.

(** The styles that have a map are the styles of the rows. *)
Lemma groupByStyle_keys (rows : list MarkerRow) (s : string) :
  In s (keys (groupByStyle rows)) <-> In s (map marker_style rows).
Proof.
  unfold groupByStyle.
  rewrite fold_recordRow_keys, in_fold_set_add, emptyStyleMaps_keys,
    in_new_Set.
  tauto.
Qed.

Lemma groupByStyle_nodup (rows : list MarkerRow) :
  NoDup (keys (groupByStyle rows)).
Proof.
  unfold groupByStyle. rewrite fold_recordRow_keys.
  apply fold_set_add_nodup, emptyStyleMaps_nodup.
Qed.

(** The map of a style lists the models of its rows in order of first
    appearance. *)
Lemma groupByStyle_modelKeys (rows : list MarkerRow) (s : string) :
  modelKeys (groupByStyle rows) s
  = new_Set (map model (filter (fun r => marker_style r =? s) rows)).
Proof.
  unfold groupByStyle. rewrite fold_recordRow_modelKeys.
  replace (modelKeys (emptyStyleMaps _) s) with (@nil string);
    [reflexivity|].
  unfold modelKeys.
  destruct (get (emptyStyleMaps _) s) as [mm|] eqn:E; [|reflexivity].
  apply get_some_in, emptyStyleMaps_empty in E. now subst mm.
Qed.

Lemma hasStyle_in (rows : list MarkerRow) (s : string) :
  hasStyle rows s = true <-> In s (map marker_style rows).
Proof.
  unfold hasStyle. rewrite existsb_exists, in_map_iff. split.
  - intros (r & Hr & E). apply String.eqb_eq in E. now exists r.
  - intros (r & E & Hr). exists r. split; [exact Hr|].
    now apply String.eqb_eq.
Qed.

Lemma occursWith_in (rows : list MarkerRow) (m s : string) :
  occursWith rows m s = true
  <-> In m (map model (filter (fun r => marker_style r =? s) rows)).
Proof.
  unfold occursWith. rewrite existsb_exists, in_map_iff. split.
  - intros (r & Hr & E). apply andb_true_iff in E as [E1 E2].
    apply String.eqb_eq in E2. exists r. split; [exact E2|].
    apply filter_In. now split.
  - intros (r & E & Hr). apply filter_In in Hr as [Hr Es].
    exists r. split; [exact Hr|]. rewrite Es. now apply String.eqb_eq.
Qed.

Lemma candidateModels_worded (rows : list MarkerRow) :
  candidateModels (groupByStyle rows) rows
  = if hasStyle rows "default"
    then new_Set
           (map model (filter (fun r => marker_style r =? "default") rows))
    else new_Set (map model rows).
Proof.
  unfold candidateModels.
  pose proof (groupByStyle_modelKeys rows "default") as Hk.
  pose proof (groupByStyle_keys rows "default") as Hs.
  rewrite <- hasStyle_in, <- has_keys in Hs. unfold has, modelKeys in *.
  destruct (get (groupByStyle rows) "default") as [dm|].
  - rewrite (proj1 Hs eq_refl). exact Hk.
  - destruct (hasStyle rows "default"); [|reflexivity].
    discriminate (proj2 Hs eq_refl).
Qed.

Lemma inEveryStyle_worded (rows : list MarkerRow) (m : string) :
  inEveryStyle (groupByStyle rows) m
  = forallb (occursWith rows m) (new_Set (map marker_style rows)).
Proof.
  apply eq_iff_eq_true. unfold inEveryStyle. rewrite !forallb_forall. split.
  - intros H s Hs. apply in_new_Set, groupByStyle_keys in Hs.
    pose proof (groupByStyle_modelKeys rows s) as Hk. unfold modelKeys in Hk.
    apply has_keys in Hs. unfold has in Hs.
    destruct (get (groupByStyle rows) s) as [mm|] eqn:E; [|discriminate].
    specialize (H (s, mm) (get_some_in _ _ _ E)). simpl in H.
    apply occursWith_in. apply in_new_Set. rewrite <- Hk.
    now apply has_keys.
  - intros H [s mm] Hin. simpl.
    assert (Hs : In s (keys (groupByStyle rows)))
      by (apply in_map_iff; now exists (s, mm)).
    pose proof (in_get_nodup _ _ _ (groupByStyle_nodup rows) Hin) as E.
    pose proof (groupByStyle_modelKeys rows s) as Hk. unfold modelKeys in Hk.
    rewrite E in Hk. apply has_keys. rewrite Hk. apply in_new_Set.
    apply occursWith_in. apply H. apply in_new_Set.
    now apply groupByStyle_keys.
Qed.

(** The list the builder computes is the list of the description. *)
Lemma builtModels_worded (rows : list MarkerRow) :
  builtModels rows = modelsAsWorded rows.
Proof.
  unfold builtModels, modelsAsWorded. rewrite candidateModels_worded.
  apply filter_ext. intros m. apply inEveryStyle_worded.
Qed.

(** When no style is called "models", the built object holds that list
    under "models". *)
Lemma buildDataset_models_list (rows : list MarkerRow) (obj : DatasetObj) :
  (forall r, In r rows -> marker_style r <> "models") ->
  buildDataset rows = Ok obj ->
  get obj "models" = Some (ModelList (modelsAsWorded rows)).
Proof.
  intros Hno. rewrite <- builtModels_worded. unfold buildDataset.
  fold (builtModels rows).
  apply (foldM_invariant
           (fun o => get o "models" = Some (ModelList (builtModels rows)))).
  - intros o sm o' Ho Hin Hput.
    apply putStyle_ok in Hput as (accs & rks & _ & _ & ->).
    rewrite get_set_other; [exact Ho|].
    intros E.
    assert (Hs : In (fst sm) (keys (groupByStyle rows)))
      by (apply in_map; exact Hin).
    apply groupByStyle_keys, in_map_iff in Hs as (r & Er & Hr).
    apply (Hno r Hr). congruence.
  - apply get_set_same.
Qed.

(** The scenario with "B" missing from "color_blue": the list is [["A"]]. *)
Lemma buildMarkerData_missing_model :
  exists obj,
    buildMarkerData missingModelRows = Ok [("DA2k", obj)]
    /\ get obj "models" = Some (ModelList ["A"])
    /\ modelsAsWorded missingModelRows = ["A"].
Proof. eexists. repeat split; reflexivity. Qed.

End ModelListFacts.

(** *** Alignment of the style arrays with the model list *)

Section AlignmentFacts.
Import Keyed KeyedFacts.

Lemma recordRow_entryOf (bsm : ByStyleByModel) (row : MarkerRow)
    (s m : string) :
  entryOf (recordRow bsm row) s m
  = if (marker_style row =? s) && (model row =? m)
    then Some {| entry_accuracy := accuracy row; entry_rank := rank row |}
    else entryOf bsm s m.
Proof.
  unfold recordRow, entryOf.
  set (m1 := if has bsm (marker_style row) then bsm
             else set bsm (marker_style row) []).
  assert (H1 : exists mm, get m1 (marker_style row) = Some mm
                 /\ get mm m
                    = match get bsm (marker_style row) with
                      | Some mm0 => get mm0 m | None => None end).
  { subst m1. unfold has. destruct (get bsm (marker_style row)) as [mm0|] eqn:E.
    - exists mm0. now split.
    - exists []. split; [apply get_set_same | reflexivity]. }
  assert (H2 : forall k, marker_style row <> k -> get m1 k = get bsm k).
  { intros k Hk. subst m1. destruct (has bsm (marker_style row));
      [reflexivity | now apply get_set_other]. }
  destruct H1 as (mm & -> & Hmm). rewrite get_set.
  destruct (marker_style row =? s) eqn:Es; simpl.
  - apply String.eqb_eq in Es. subst s. rewrite get_set.
    destruct (model row =? m); [reflexivity | exact Hmm].
  - apply String.eqb_neq in Es. now rewrite H2.
Qed.

Lemma fold_recordRow_entryOf (l : list MarkerRow) (bsm : ByStyleByModel)
    (s m : string) :
  entryOf (fold_left recordRow l bsm) s m
  = fold_left
      (fun found r =>
         if (marker_style r =? s) && (model r =? m)
         then Some {| entry_accuracy := accuracy r; entry_rank := rank r |}
         else found)
      l (entryOf bsm s m).
Proof.
  revert bsm. induction l as [|r l IH]; simpl; intros bsm; [reflexivity|].
  now rewrite IH, recordRow_entryOf.
Qed.

(** Last write wins: the maps hold, per style and model, the last row. *)
Lemma groupByStyle_entryOf (rows : list MarkerRow) (s m : string) :
  entryOf (groupByStyle rows) s m = lastEntry rows s m.
Proof.
  unfold groupByStyle, lastEntry. rewrite fold_recordRow_entryOf.
  f_equal. unfold entryOf.
  destruct (get (emptyStyleMaps _) s) as [mm|] eqn:E; [|reflexivity].
  apply get_some_in, emptyStyleMaps_empty in E. now subst mm.
Qed.

Lemma mapM_entryField_map (f : Entry -> float) (modelMap : ByModel)
    (models : list string) (vals : list float) :
  mapM (entryField f modelMap) models = Ok vals ->
  vals = map (fun m => toNumber (option_map f (get modelMap m))) models.
Proof.
  intros H. apply mapM_ok_each in H.
  induction H as [|m a ms vs E _ IH]; simpl; [reflexivity|].
  apply entryField_ok in E as (e & Hg & ->).
  unfold ByModel in *. rewrite Hg. simpl. now f_equal.
Qed.

(** The arrays stored under a style key list, model by model of the list,
    the accuracy and the rank that style holds for the model. *)
Lemma buildDataset_arrays (rows : list MarkerRow) (obj : DatasetObj)
    (k : string) (sd : StyleData) :
  buildDataset rows = Ok obj ->
  get obj k = Some (StyleArrays sd) ->
  accuracies sd = map (styleAccuracy rows k) (builtModels rows)
  /\ ranks sd = map (styleRank rows k) (builtModels rows).
Proof.
  unfold buildDataset. fold (builtModels rows). intros H. revert k sd.
  revert H.
  apply (foldM_invariant
           (fun o => forall k sd, get o k = Some (StyleArrays sd) ->
              accuracies sd = map (styleAccuracy rows k) (builtModels rows)
              /\ ranks sd = map (styleRank rows k) (builtModels rows))).
  - intros o [style modelMap] o' Ho Hin Hput k sd Hget.
    apply putStyle_ok in Hput as (accs & rks & Ha & Hr & ->).
    simpl in *. rewrite get_set in Hget.
    destruct (style =? k) eqn:Ek; [|eauto].
    apply String.eqb_eq in Ek. subst k. injection Hget as <-. simpl.
    pose proof (in_get_nodup _ _ _ (groupByStyle_nodup rows) Hin) as Hg.
    assert (He : forall m, get modelMap m = lastEntry rows style m).
    { intros m. rewrite <- groupByStyle_entryOf. unfold entryOf.
      now rewrite Hg. }
    apply mapM_entryField_map in Ha, Hr. subst accs rks.
    unfold styleAccuracy, styleRank. split; apply map_ext; intros m;
      now rewrite He.
  - intros k sd Hget. rewrite get_set in Hget.
    destruct ("models" =? k); discriminate Hget.
Qed.


End AlignmentFacts.

(** A built dataset object that still has its model list holds, under
    every style key, arrays of exactly that length. *)
Lemma buildMarkerData_aligned (parsedRows : list MarkerRow)
    (data : MarkerData) (ds : string) (obj : DatasetObj) (ms : list string) :
  buildMarkerData parsedRows = Ok data ->
  Keyed.get data ds = Some obj ->
  Keyed.get obj "models" = Some (ModelList ms) ->
  forall k sd, Keyed.get obj k = Some (StyleArrays sd) ->
    List.length (accuracies sd) = List.length ms
    /\ List.length (ranks sd) = List.length ms
    /\ Forall (fun a => exists row, In row parsedRows /\ a = accuracy row)
         (accuracies sd)
    /\ Forall (fun r => exists row, In row parsedRows /\ r = rank row)
         (ranks sd).
Proof.
  intros Hb Hd Hm k sd Hk.
  pose proof (buildMarkerData_dataset _ _ _ _ Hb Hd) as Hobj.
  pose proof (buildDataset_built _ _ Hobj) as Hall.
  assert (Hms : ms = builtModels (rowsOfDataset parsedRows ds)).
  { destruct (Hall _ _ Hm) as [E | (sd' & E & _)]; congruence. }
  destruct (Hall _ _ Hk) as [E | (sd' & E & Hl1 & Hl2 & Ha & Hr)];
    [discriminate E|].
  injection E as <-. subst ms. repeat split; trivial.
  - revert Ha. apply Forall_impl. intros a (row & Hin & ->).
    exists row. split; [|reflexivity].
    apply filter_In in Hin. tauto.
  - revert Hr. apply Forall_impl. intros a (row & Hin & ->).
    exists row. split; [|reflexivity].
    apply filter_In in Hin. tauto.
Qed.

(** C1.  The model list of a built dataset is meant to be the candidate
    ordering filtered to the models present in every style.  At rows with a
    marker style called "models", a key the normalizer lets through on rows
    that pass validation, it is not: the filtered candidate list is
    [["A"]], but the arrays of that style are stored under the key that
    held it, and the built object has no model list any more. *)
Theorem buildMarkerData_models_style_replaces_list :
  normalizeMarkerStyleKey "models" = "models"
  /\ Forall (fun row => validRow row = true) modelsStyleRows
  /\ builtModels (rowsOfDataset modelsStyleRows "DA2k") = ["A"]
  /\ buildMarkerData modelsStyleRows
     = Ok [("DA2k",
            [("models",
              StyleArrays {| accuracies := [82%float];
                             ranks := [1%float] |});
             ("default",
              StyleArrays {| accuracies := [80%float];
                             ranks := [2%float] |})])].
Proof.
  split; [reflexivity|]. split; [repeat constructor|].
  split; reflexivity.
Qed.

(** C2.  Every style's arrays are meant to have the length of the model
    list of their dataset.  At the same rows the dataset object has arrays
    of length one under "default" and no model list to compare them with:
    what is read under "models" is a pair of arrays, on which the updater
    throws. *)
Theorem buildMarkerData_models_style_no_list_length :
  exists data obj sd,
    buildMarkerData modelsStyleRows = Ok data
    /\ Keyed.get data "DA2k" = Some obj
    /\ Keyed.get obj "default" = Some (StyleArrays sd)
    /\ List.length (accuracies sd) = 1
    /\ (forall ms, Keyed.get obj "models" <> Some (ModelList ms))
    /\ modelsOf obj = Throw TypeError.
Proof.
  do 3 eexists. split; [reflexivity|].
  split; [reflexivity|]. split; [reflexivity|].
  split; [reflexivity|]. split; [|reflexivity].
  intros ms. vm_compute. discriminate.
Qed.

(** ** Visualization updater *)

Section UpdaterFacts.
Local Open Scope float_scope.

Lemma mapM_ok_map {A B : Type} (f : A -> result B) (g : A -> B)
    (l : list A) :
  (forall a, In a l -> f a = Ok (g a)) -> mapM f l = Ok (map g l).
Proof.
  induction l as [|a l IH]; simpl; intros H; [reflexivity|].
  rewrite (H a) by now left. simpl.
  rewrite IH by (intros; apply H; now right). reflexivity.
Qed.

(** Reading two arrays of length [n] index by index over [0 .. n-1] is
    the element-wise subtraction. *)
Lemma indexed_differences (xs ys : list float) (n : nat) :
  List.length xs = n -> List.length ys = n ->
  map (fun i => toNumber (nth_error xs i) - toNumber (nth_error ys i))
    (seq 0 n)
  = differences xs ys.
Proof.
  revert ys n. induction xs as [|x xs IH]; intros ys n Hx Hy.
  - simpl in Hx. subst n. reflexivity.
  - destruct n as [|n]; [discriminate Hx|].
    destruct ys as [|y ys]; [discriminate Hy|].
    injection Hx as Hx. injection Hy as Hy.
    unfold differences. simpl. f_equal.
    rewrite <- seq_shift, map_map. simpl.
    apply (IH ys n Hx Hy).
Qed.



Lemma validRow_finite (row : MarkerRow) :
  validRow row = true ->
  isFinite (accuracy row) = true /\ isFinite (rank row) = true.
Proof.
  unfold validRow. intros H.
  repeat (apply andb_true_iff in H as [H ?]). now split.
Qed.

Lemma buildChart_styles (currentDataset markerKey : string)
    (ms : list string) (sel def : StyleData) :
  List.length (accuracies sel) = List.length ms ->
  List.length (accuracies def) = List.length ms ->
  exists chart,
    buildChart currentDataset markerKey ms
      (Some (StyleArrays sel)) (Some (StyleArrays def)) = Ok chart
    /\ chart_x chart = ms
    /\ chart_default_y chart = Some (accuracies def)
    /\ chart_selected_y chart = Some (accuracies sel)
    /\ chart_deltas chart = differences (accuracies sel) (accuracies def)
    /\ chart_textColors chart = map deltaColor (chart_deltas chart).
Proof.
  intros Hs Hd. unfold buildChart.
  rewrite (mapM_ok_map _
             (fun i => toNumber (nth_error (accuracies sel) i)
                       - toNumber (nth_error (accuracies def) i)))
    by reflexivity.
  simpl. eexists. split; [reflexivity|]. simpl.
  rewrite (indexed_differences _ _ _ Hs Hd). repeat split.
Qed.

Lemma combine_seq_bound {A : Type} (l : list A) (a : A) (i : nat) :
  In (a, i) (combine l (seq 0 (List.length l))) -> (i < List.length l)%nat.
Proof.
  intros H. apply in_combine_r in H. apply in_seq in H. lia.
Qed.

Lemma map_snd_combine_seq {A : Type} (l : list A) :
  map snd (combine l (seq 0 (List.length l))) = seq 0 (List.length l).
Proof.
  generalize 0%nat. induction l as [|a l IH]; simpl; intros n;
    [reflexivity | now rewrite IH].
Qed.

Lemma map_fst_combine_seq {A : Type} (l : list A) :
  map fst (combine l (seq 0 (List.length l))) = l.
Proof.
  generalize 0%nat. induction l as [|a l IH]; simpl; intros n;
    [reflexivity | now rewrite IH].
Qed.

Lemma buildTable_styles (ms : list string) (sel def : StyleData) :
  List.length (accuracies sel) = List.length ms ->
  List.length (ranks sel) = List.length ms ->
  List.length (ranks def) = List.length ms ->
  exists table,
    mapM (buildTableRow (Some (StyleArrays sel)) (Some (StyleArrays def)))
      (combine ms (seq 0 (List.length ms))) = Ok table
    /\ map cell_model table = ms
    /\ map cell_delta table = differences (ranks def) (ranks sel)
    /\ map cell_score table = accuracies sel
    /\ Forall (fun r => cell_class r = deltaClass (cell_delta r)
                        /\ cell_magnitude r = abs (cell_delta r)) table.
Proof.
  intros Ha Hs Hd.
  set (row := fun mi : string * nat =>
         {| cell_model := fst mi;
            cell_selectedRank := nth_error (ranks sel) (snd mi);
            cell_delta := toNumber (nth_error (ranks def) (snd mi))
                          - toNumber (nth_error (ranks sel) (snd mi));
            cell_class :=
              deltaClass (toNumber (nth_error (ranks def) (snd mi))
                          - toNumber (nth_error (ranks sel) (snd mi)));
            cell_magnitude :=
              abs (toNumber (nth_error (ranks def) (snd mi))
                   - toNumber (nth_error (ranks sel) (snd mi)));
            cell_score := toNumber (nth_error (accuracies sel) (snd mi)) |}).
  exists (map row (combine ms (seq 0 (List.length ms)))).
  split; [|split; [|split; [|split]]].
  - apply mapM_ok_map. intros [m i] Hin.
    apply combine_seq_bound in Hin. rewrite <- Ha in Hin.
    apply nth_error_Some in Hin.
    unfold buildTableRow, memberElement. simpl.
    destruct (nth_error (accuracies sel) i) as [acc|] eqn:E; [|congruence].
    subst row. simpl. rewrite E. reflexivity.
  - rewrite map_map. subst row. simpl. apply map_fst_combine_seq.
  - rewrite map_map. subst row. simpl.
    rewrite <- (indexed_differences _ _ (List.length ms) Hd Hs).
    rewrite <- (map_snd_combine_seq ms) at 2. now rewrite map_map.
  - rewrite map_map. subst row. simpl.
    transitivity (map (fun i => toNumber (nth_error (accuracies sel) i))
                    (seq 0 (List.length ms))).
    { rewrite <- (map_snd_combine_seq ms) at 2. now rewrite map_map. }
    rewrite <- Ha. clear. induction (accuracies sel) as [|x xs IH];
      [reflexivity|].
    simpl. f_equal. rewrite <- seq_shift, map_map. exact IH.
  - apply Forall_forall. intros r Hr. apply in_map_iff in Hr as (mi & <- & _).
    subst row. simpl. now split.
Qed.

End UpdaterFacts.



(** C8.  A selected style that the dataset does not have is meant to fall
    back to the data of "default".  At the key "models", which names no
    style of the delta scenario, it does not: the selected data is the
    model list, not the data of "default", and the update throws before
    anything is drawn.  With a key that is in no way a property of the
    object the data of "default" is what is used. *)
Theorem updateVisualization_models_key_no_fallback :
  exists data obj,
    buildMarkerData deltaRows = Ok data
    /\ Keyed.get data "style_a" = Some obj
    /\ Keyed.keys obj = ["models"; "default"; "x"]
    /\ selectedDataOf obj "models" = Some (ModelList ["M1"; "M2"])
    /\ selectedDataOf obj "models" <> Keyed.get obj "default"
    /\ updateVisualization (Some data) "style_a" true "models" = Threw None
    /\ selectedDataOf obj "absent" = Keyed.get obj "default".
Proof.
  do 2 eexists. split; [reflexivity|].
  split; [reflexivity|]. split; [reflexivity|]. split; [reflexivity|].
  split; [vm_compute; discriminate|]. split; reflexivity.
Qed.

(** With a key that is no property of the dataset object, the selection
    is the data stored under "default". *)
Lemma selectedDataOf_absent (datasetData : DatasetObj) (markerKey : string) :
  Keyed.get datasetData markerKey = None ->
  selectedDataOf datasetData markerKey = Keyed.get datasetData "default".
Proof. unfold selectedDataOf. now intros ->. Qed.

(** ** Grouping, sorting and the JPEG rank chart *)

Section GroupingFacts.
Import Keyed KeyedFacts.

(** One step of grouping: the row goes to the end of the list of its key,
    which is created on first use. *)
Lemma pushGrouped_get (key : JpegRow -> string)
    (m : keyed (list JpegRow)) (r : JpegRow) (k : string) :
  get (pushGrouped key m r) k
  = if key r =? k
    then Some (match get m k with Some l => l | None => [] end ++ [r])
    else get m k.
Proof.
  unfold pushGrouped.
  set (m1 := if has m (key r) then m else set m (key r) []).
  assert (H1 : get m1 (key r)
               = Some (match get m (key r) with Some l => l | None => [] end)).
  { subst m1. unfold has. destruct (get m (key r)) eqn:E; [exact E|].
    apply get_set_same. }
  assert (H2 : forall k', key r <> k' -> get m1 k' = get m k').
  { intros k' Hk. subst m1. destruct (has m (key r)); [reflexivity|].
    now apply get_set_other. }
  rewrite H1, get_set. destruct (key r =? k) eqn:E.
  - apply String.eqb_eq in E. now subst k.
  - apply String.eqb_neq in E. now apply H2.
Qed.

Lemma pushGrouped_keys (key : JpegRow -> string)
    (m : keyed (list JpegRow)) (r : JpegRow) :
  keys (pushGrouped key m r) = set_add (keys m) (key r).
Proof.
  unfold pushGrouped.
  set (m1 := if has m (key r) then m else set m (key r) []).
  assert (H1 : keys m1 = set_add (keys m) (key r)).
  { subst m1. destruct (has m (key r)) eqn:E.
    - symmetry. apply set_add_present. now apply has_keys.
    - apply keys_set_add. }
  assert (H2 : has m1 (key r) = true).
  { subst m1. destruct (has m (key r)) eqn:E; [exact E | apply has_set_same]. }
  unfold has in H2. destruct (get m1 (key r)) eqn:E; [|discriminate].
  rewrite keys_set. unfold has. now rewrite E.
Qed.

Lemma fold_pushGrouped_get (key : JpegRow -> string) (l : list JpegRow)
    (m : keyed (list JpegRow)) (k : string) :
  match get (fold_left (pushGrouped key) l m) k with
  | Some rs => rs
  | None => []
  end
  = match get m k with Some rs => rs | None => [] end
    ++ filter (fun r => key r =? k) l.
Proof.
  revert m. induction l as [|r l IH]; simpl; intros m.
  - now rewrite app_nil_r.
  - rewrite IH, pushGrouped_get. destruct (key r =? k); [|reflexivity].
    now rewrite <- app_assoc.
Qed.

(** The list found under a key holds the rows with that key, in order. *)
Lemma groupRows_get (key : JpegRow -> string) (l : list JpegRow) (k : string) :
  match get (groupRows key l) k with Some rs => rs | None => [] end
  = filter (fun r => key r =? k) l.
Proof. unfold groupRows. now rewrite fold_pushGrouped_get. Qed.

(** The keys are the distinct key values in order of first appearance. *)
Lemma groupRows_keys (key : JpegRow -> string) (l : list JpegRow) :
  keys (groupRows key l) = new_Set (map key l).
Proof.
  unfold groupRows, new_Set.
  change (@nil string) with (keys (@nil (string * list JpegRow))).
  generalize (@nil (string * list JpegRow)).
  induction l as [|r l IH]; simpl; intros m; [reflexivity|].
  now rewrite IH, pushGrouped_keys.
Qed.

End GroupingFacts.

Section SortFacts.
Context {A : Type} (compareFn : A -> A -> float).

Lemma insertSorted_perm (x : A) (l : list A) :
  Permutation (insertSorted compareFn x l) (x :: l).
Proof.
  induction l as [|y l IH]; simpl; [reflexivity|].
  destruct (0 <? compareFn x y)%float; [|reflexivity].
  rewrite IH. apply perm_swap.
Qed.

(** Sorting rearranges and nothing else. *)
Lemma sortWith_perm (l : list A) : Permutation (sortWith compareFn l) l.
Proof.
  induction l as [|x l IH]; simpl; [reflexivity|].
  rewrite insertSorted_perm. now constructor.
Qed.

(** When an element [x] with property [p] is never moved behind another
    element that has it, the first such element stays the first. *)
Lemma find_insertSorted (p : A -> bool) (x : A) (l : list A) :
  (forall y, p x = true -> p y = true ->
             (0 <? compareFn x y)%float = false) ->
  find p (insertSorted compareFn x l)
  = if p x then Some x else find p l.
Proof.
  intros Hkeep. induction l as [|y l IH]; simpl; [reflexivity|].
  destruct (0 <? compareFn x y)%float eqn:E; simpl.
  - rewrite IH. destruct (p y) eqn:Ey; [|reflexivity].
    destruct (p x) eqn:Ex; [|reflexivity].
    rewrite (Hkeep y eq_refl Ey) in E. discriminate.
  - reflexivity.
Qed.

Lemma find_sortWith (p : A -> bool) (l : list A) :
  (forall x y, p x = true -> p y = true ->
               (0 <? compareFn x y)%float = false) ->
  find p (sortWith compareFn l) = find p l.
Proof.
  intros Hkeep. induction l as [|x l IH]; simpl; [reflexivity|].
  rewrite find_insertSorted by (intros; now apply Hkeep).
  now rewrite IH.
Qed.

End SortFacts.

Lemma filter_perm {A : Type} (f : A -> bool) (l l' : list A) :
  Permutation l l' -> Permutation (filter f l) (filter f l').
Proof.
  induction 1 as [|x l l' _ IH|x y l|l l' l'' _ IH1 _ IH2]; simpl.
  - reflexivity.
  - destruct (f x); [now constructor | exact IH].
  - destruct (f x), (f y); try reflexivity. apply perm_swap.
  - now rewrite IH1.
Qed.

Section JpegFacts.
Variable parseInt10 : string -> float.

Lemma byQuality_defaults (x y : JpegRow) :
  isDefaultQuality x = true -> isDefaultQuality y = true ->
  (0 <? byQuality parseInt10 x y)%float = false.
Proof.
  unfold isDefaultQuality, byQuality, qualitySortKey. intros -> ->.
  reflexivity.
Qed.

(** Sorting the points of a model by quality keeps its first "default"
    row first among the "default" rows. *)
Lemma defaultRankOf_sorted (l : list JpegRow) :
  defaultRankOf (sortWith (byQuality parseInt10) l) = defaultRankOf l.
Proof.
  unfold defaultRankOf. f_equal. apply find_sortWith.
  intros x y. apply byQuality_defaults.
Qed.

Lemma finiteRanks_sorted (l : list JpegRow) :
  Permutation (finiteRanks (sortWith (byQuality parseInt10) l))
    (finiteRanks l).
Proof.
  unfold finiteRanks. apply filter_perm, Permutation_map, sortWith_perm.
Qed.

Lemma finiteRanks_finite (l : list JpegRow) :
  Forall (fun r => isFinite r = true) (finiteRanks l).
Proof.
  apply Forall_forall. intros r Hr. unfold finiteRanks in Hr.
  now apply filter_In in Hr.
Qed.

Lemma appendMarks_noMarks (acc : Marks) : appendMarks acc noMarks = acc.
Proof.
  destruct acc. unfold appendMarks. simpl. now rewrite !app_nil_r.
Qed.

(** What a model adds does not depend on what was drawn before it. *)
Lemma markModel_append (byModel : Keyed.keyed (list JpegRow)) (acc : Marks)
    (m : string) :
  markModel parseInt10 byModel acc m
  = appendMarks acc (markModel parseInt10 byModel noMarks m).
Proof.
  unfold markModel.
  destruct (filter isFinite (map jpeg_rank _)) as [|r rs].
  - symmetry. apply appendMarks_noMarks.
  - destruct (defaultRankOf _) as [d|]; [destruct (isFinite d)|];
      unfold appendMarks; simpl; now rewrite ?app_nil_r.
Qed.

Lemma fold_markModel (byModel : Keyed.keyed (list JpegRow))
    (ms : list string) (acc : Marks) :
  fold_left (markModel parseInt10 byModel) ms acc
  = fold_left appendMarks (map (markModel parseInt10 byModel noMarks) ms) acc.
Proof.
  revert acc. induction ms as [|m ms IH]; simpl; intros acc; [reflexivity|].
  now rewrite IH, markModel_append.
Qed.

(** The marks of one model: the range of its finite ranks and the marker
    of its first "default" row. *)
Lemma markModel_contribution (byModel : Keyed.keyed (list JpegRow))
    (m : string) (l : list JpegRow) :
  match Keyed.get byModel m with Some rs => rs | None => [] end = l ->
  modelContribution m l (markModel parseInt10 byModel noMarks m).
Proof.
  intros Hl. unfold markModel, modelContribution. rewrite Hl.
  rewrite defaultRankOf_sorted.
  pose proof (finiteRanks_sorted l) as Hperm.
  pose proof (finiteRanks_finite (sortWith (byQuality parseInt10) l)) as Hfin.
  unfold finiteRanks in Hperm at 1. unfold finiteRanks in Hfin.
  destruct (filter isFinite (map jpeg_rank (sortWith _ l))) as [|p ps].
  - apply Permutation_nil in Hperm. now rewrite Hperm.
  - destruct (finiteRanks l) as [|r rs] eqn:E.
    { apply Permutation_sym, Permutation_nil in Hperm. discriminate Hperm. }
    destruct (FloatFacts.Math_min_finite p ps Hfin) as [Hlo Hlo'].
    destruct (FloatFacts.Math_max_finite p ps Hfin) as [Hhi Hhi'].
    exists (Math_min (p :: ps)), (Math_max (p :: ps)).
    split.
    { repeat split.
      - eapply Permutation_in; eassumption.
      - eapply Permutation_in; eassumption.
      - apply Forall_forall. intros x Hx.
        apply (Permutation_in _ (Permutation_sym Hperm)) in Hx.
        rewrite Forall_forall in Hlo', Hhi'. split; auto. }
    unfold defaultDot.
    destruct (defaultRankOf l) as [d|]; [destruct (isFinite d)|];
      simpl; repeat split.
Qed.

End JpegFacts.

Section JpegChart.
Variable parseInt10 : string -> float.

Lemma renderBenchmark_panel (rows : list JpegRow) (benchIdx : nat)
    (b : string) :
  match renderBenchmark parseInt10 (groupRows benchmark rows) benchIdx b with
  | None => hasRows rows b = false
  | Some p => hasRows rows b = true /\ panel_key p = b /\ panelDescribes rows p
  end.
Proof.
  unfold renderBenchmark, hasRows. rewrite groupRows_get.
  fold (rowsOfBenchmark rows b).
  destruct (rowsOfBenchmark rows b) as [|r data'] eqn:Edata; [reflexivity|].
  rewrite <- Edata. clear r data' Edata.
  split; [reflexivity|]. split; [reflexivity|].
  unfold panelDescribes. cbn [panel_key panel_yCategories panel_marks].
  rewrite rev_involutive.
  set (byModel := groupRows jpeg_model (rowsOfBenchmark rows b)).
  set (ms := sortWith (byDefaultRank byModel) (Keyed.keys byModel)).
  split.
  - subst ms. rewrite sortWith_perm. subst byModel.
    now rewrite groupRows_keys.
  - exists (map (markModel parseInt10 byModel noMarks) ms). split.
    + clear. induction ms as [|m ms IH]; simpl; constructor; [|exact IH].
      apply markModel_contribution. subst byModel. apply groupRows_get.
    + apply fold_markModel.
Qed.

Lemma renderFrom_panels (rows : list JpegRow) (keys : list string)
    (benchIdx : nat) :
  map panel_key (renderFrom parseInt10 (groupRows benchmark rows) benchIdx keys)
  = filter (hasRows rows) keys
  /\ Forall (panelDescribes rows)
       (renderFrom parseInt10 (groupRows benchmark rows) benchIdx keys).
Proof.
  revert benchIdx. induction keys as [|b keys IH]; simpl; intros benchIdx.
  - split; [reflexivity | constructor].
  - pose proof (renderBenchmark_panel rows benchIdx b) as H.
    destruct (renderBenchmark parseInt10 _ benchIdx b) as [p|].
    + destruct H as (-> & Hk & Hp). destruct (IH (S benchIdx)) as [IH1 IH2].
      simpl. rewrite IH1, Hk. split; [reflexivity | now constructor].
    + rewrite H. apply IH.
Qed.

End JpegChart.

(** C7, as the code has it.  The chart has one panel for each of the two
    benchmarks that has rows.  A panel draws each model of its benchmark
    once.  A model without a finite rank adds nothing; any other model adds
    the segment from the least to the greatest of its finite ranks and,
    when its first "default" row has a finite rank, a marker at that rank,
    otherwise no marker.  For model "M" with ranks default 3, jpeg70 5 and
    jpeg90 2 the segment runs from 2 to 5 and the marker is at 3. *)
Theorem renderJpegRankChart_marks :
  (forall (parseInt10 : string -> float) (rows : list JpegRow),
      exists panels,
        renderJpegRankChart parseInt10 true rows = Some panels
        /\ map panel_key panels = filter (hasRows rows) BENCHMARKS
        /\ Forall (panelDescribes rows) panels)
  /\ (forall parseInt10 : string -> float,
        exists p,
          renderJpegRankChart parseInt10 true rangeRows = Some [p]
          /\ segmentX (panel_marks p) = [Some 2%float; Some 5%float; None]
          /\ segmentY (panel_marks p) = [Some "M"; Some "M"; None]
          /\ dotX (panel_marks p) = [3%float]
          /\ dotY (panel_marks p) = ["M"]).
Proof.
  split.
  - intros parseInt10 rows. eexists. split; [reflexivity|].
    apply renderFrom_panels.
  - intros parseInt10.
    exists {| panel_key := "MME";
              panel_axisSuffix := "2";
              panel_yCategories := ["M"];
              panel_marks :=
                {| segmentX := [Some 2%float; Some 5%float; None];
                   segmentY := [Some "M"; Some "M"; None];
                   dotX := [3%float];
                   dotY := ["M"] |} |}.
    split; [|repeat split].
    vm_compute.
    repeat match goal with
           | |- context [PrimFloat.ltb ?a ?b] =>
               destruct (PrimFloat.ltb a b); vm_compute
           end; reflexivity.
Qed.

(** C7, as the specification words it, fails: a model of a known benchmark
    whose ranks did not parse gets neither a segment nor a marker, although
    it has a "default" row. *)
Lemma renderJpegRankChart_no_segment_without_finite_rank :
  In "M" (map jpeg_model unparsedRankRows)
  /\ exists p,
       renderJpegRankChart (fun _ => 0%float) true unparsedRankRows = Some [p]
       /\ panel_key p = "MME"
       /\ panel_yCategories p = ["M"]
       /\ panel_marks p = noMarks.
Proof.
  split; [now left|]. eexists. repeat split; reflexivity.
Qed.


(* ================================================================== *)
(** * Further properties of the code *)
(* ================================================================== *)

(** ** CSV reader and header index *)

Section CsvMore.
Local Open Scope string_scope.

Lemma headerIndexFrom_lookup (k : string) (hs : list string) :
  forall (o i : nat) (idx : Keyed.keyed nat),
    Keyed.get (headerIndexFrom o hs idx) k = Some i <->
    (k <> ""
     /\ exists pre post,
          (hs = pre ++ k :: post)%list /\ i = o + List.length pre
          /\ ~ In k post)
    \/ ((k = "" \/ ~ In k hs) /\ Keyed.get idx k = Some i).
Proof.
  induction hs as [|h hs IH]; intros o i idx.
  - simpl. split.
    + intros H. right. split; [right; tauto | exact H].
    + intros [(_ & pre & post & E & _) | [_ H]]; [|exact H].
      destruct pre; discriminate E.
  - simpl headerIndexFrom. rewrite IH. clear IH. split.
    + intros [(Hk & pre & post & -> & -> & Hpost) | [Hk Hget]].
      * left. split; [exact Hk|]. exists (h :: pre), post.
        simpl. repeat split; [lia | exact Hpost].
      * destruct (is_empty h) eqn:Eh.
        { apply is_empty_true in Eh. subst h. right. split; [|exact Hget].
          destruct Hk as [Hk | Hk]; [now left|].
          destruct (string_dec k "") as [E | E]; [now left|].
          right. simpl. intros [E' | E']; [congruence | tauto]. }
        rewrite KeyedFacts.get_set in Hget.
        destruct (h =? k) eqn:Ehk.
        { apply String.eqb_eq in Ehk. subst h. injection Hget as <-.
          left. split; [intros ->; discriminate Eh|].
          exists [], hs. simpl. repeat split; [lia|].
          destruct Hk as [-> | Hk]; [discriminate Eh | exact Hk]. }
        apply String.eqb_neq in Ehk. right. split; [|exact Hget].
        destruct Hk as [Hk | Hk]; [now left|].
        right. simpl. intros [E' | E']; [congruence | tauto].
    + intros [(Hk & pre & post & E & -> & Hpost) | [Hk Hget]].
      * destruct pre as [|p pre]; simpl in E; injection E as -> ->.
        { right. split; [now right|].
          destruct k as [|c k]; [congruence|]. simpl is_empty. cbv iota.
          rewrite KeyedFacts.get_set_same. f_equal. simpl. lia. }
        left. split; [exact Hk|]. exists pre, post.
        repeat split; [simpl; lia | exact Hpost].
      * right. split.
        { destruct Hk as [Hk | Hk]; [now left|]. right. simpl in Hk. tauto. }
        destruct (is_empty h) eqn:Eh; [exact Hget|].
        rewrite KeyedFacts.get_set_other; [exact Hget|].
        intros ->. destruct Hk as [-> | Hk]; [discriminate Eh|].
        apply Hk. now left.
Qed.

(** X1.  The index read for a header name that is no inherited member name is
    the position of the last occurrence of the name in the header row; the
    empty name and names that do not occur have no index. *)
Theorem buildCsvHeaderIndex_last_occurrence (hs : list string) (k : string)
    (i : nat) :
  plainKey k = true ->
  (Keyed.get (buildCsvHeaderIndex hs) k = Some i <->
   k <> ""
   /\ exists pre post,
        (hs = pre ++ k :: post)%list /\ List.length pre = i /\ ~ In k post).
Proof.
  intros _.
  unfold buildCsvHeaderIndex. rewrite headerIndexFrom_lookup. split.
  - intros [(Hk & pre & post & E & -> & Hp) | [_ H]]; [|discriminate H].
    split; [exact Hk|]. now exists pre, post.
  - intros (Hk & pre & post & E & <- & Hp). left. split; [exact Hk|].
    now exists pre, post.
Qed.

Lemma buildCsvHeaderIndex_last_occurrence_witness :
  plainKey "rank" = true
  /\ Keyed.get (buildCsvHeaderIndex ["rank"; "model"; "rank"]) "rank"
     = Some 2.
Proof.
  split; [reflexivity|].
  apply (proj2 (buildCsvHeaderIndex_last_occurrence
                  ["rank"; "model"; "rank"] "rank" 2 eq_refl)).
  split; [discriminate|]. exists ["rank"; "model"], [].
  split; [reflexivity|]. split; [reflexivity|]. intros [].
Defined.

Lemma count_char_trimStart (c : ascii) (s : string) :
  count_char c (trimStart s) <= count_char c s.
Proof.
  induction s as [|a s IH]; simpl; [lia|].
  destruct (is_space a); simpl; lia.
Qed.

Lemma count_char_trimEnd (c : ascii) (s : string) :
  count_char c (trimEnd s) <= count_char c s.
Proof.
  induction s as [|a s IH]; simpl; [lia|].
  destruct (is_space a && is_empty (trimEnd s)); simpl; lia.
Qed.

Lemma count_char_trim (c : ascii) (s : string) :
  count_char c s = 0 -> count_char c (trim s) = 0.
Proof.
  intros H. unfold trim.
  pose proof (count_char_trimEnd c (trimStart s)).
  pose proof (count_char_trimStart c s). lia.
Qed.

Lemma split_pieces_without (sep x : ascii) (s : string) :
  count_char x s = 0 ->
  Forall (fun p => count_char x p = 0) (split sep s).
Proof.
  induction s as [|c s IH]; simpl; intros H; [now repeat constructor|].
  assert (Hs : count_char x s = 0) by lia.
  specialize (IH Hs).
  destruct (Ascii.eqb c sep); [now constructor|].
  destruct (split_cons sep s) as (h & t & Es). rewrite Es in *.
  inversion IH; subst. constructor; [simpl; lia | assumption].
Qed.

Lemma trimStart_blank (s : string) : is_blank s = true -> trimStart s = "".
Proof.
  unfold is_blank. induction s as [|c s IH]; simpl; [trivial|].
  intros H. apply andb_true_iff in H as [H1 H2]. rewrite H1. now apply IH.
Qed.

Lemma trimStart_empty_blank (s : string) :
  trimStart s = "" -> is_blank s = true.
Proof.
  unfold is_blank. induction s as [|c s IH]; simpl; [trivial|].
  destruct (is_space c); [exact IH | discriminate].
Qed.

Lemma trimEnd_empty_blank (s : string) :
  trimEnd s = "" <-> is_blank s = true.
Proof.
  unfold is_blank. induction s as [|c s IH]; simpl; [tauto|].
  destruct (is_space c); simpl.
  - destruct (trimEnd s) eqn:E; simpl.
    + rewrite <- IH. tauto.
    + split; [discriminate|]. intros H. apply IH in H. discriminate H.
  - split; discriminate.
Qed.

(** A text is trimmed to nothing exactly when it is white space. *)
Lemma trim_empty_blank (s : string) : trim s = "" <-> is_blank s = true.
Proof.
  unfold trim. split.
  - intros H. apply trimEnd_empty_blank in H.
    destruct (trimStart_head s) as [E | (c & t & E & Hc)].
    + now apply trimStart_empty_blank.
    + rewrite E in H. unfold is_blank in H. simpl in H.
      rewrite Hc in H. discriminate H.
  - intros H. now rewrite (trimStart_blank _ H).
Qed.

(** X2.  No field of the table holds a comma or a newline, the header row and
    every data row have at least one field, and a text of white space
    only gives the single empty header and no rows. *)
Theorem parseSimpleCsv_fields (csvText : string) :
  headers (parseSimpleCsv csvText) <> []
  /\ Forall (fun row => row <> []) (rows (parseSimpleCsv csvText))
  /\ Forall
       (Forall (fun f => count_char comma f = 0 /\ count_char newline f = 0))
       (headers (parseSimpleCsv csvText) :: rows (parseSimpleCsv csvText))
  /\ (is_blank csvText = true ->
      parseSimpleCsv csvText = {| headers := [""]; rows := [] |}).
Proof.
  assert (Hne : forall line, fields line <> []).
  { intros line H. apply (f_equal (@List.length string)) in H.
    rewrite fields_length in H. discriminate H. }
  assert (Hclean : forall line, count_char newline line = 0 ->
            Forall (fun f => count_char comma f = 0
                             /\ count_char newline f = 0) (fields line)).
  { intros line Hl. unfold fields. apply Forall_forall. intros f Hf.
    apply in_map_iff in Hf as (p & <- & Hp).
    pose proof (split_pieces comma line) as H1.
    pose proof (split_pieces_without comma newline line Hl) as H2.
    rewrite Forall_forall in H1, H2.
    split; apply count_char_trim; auto. }
  unfold parseSimpleCsv. cbn [headers rows].
  set (lines := filter _ _).
  assert (Hlines : Forall (fun l => count_char newline l = 0) lines).
  { subst lines. apply Forall_forall. intros l Hl.
    apply filter_In in Hl as [Hl _].
    pose proof (split_pieces newline (trim csvText)) as H.
    rewrite Forall_forall in H. now apply H. }
  split; [apply Hne|]. split.
  { apply Forall_forall. intros row Hr.
    apply in_map_iff in Hr as (l & <- & _). apply Hne. }
  split.
  { constructor.
    - apply Hclean. destruct lines as [|l ls]; [reflexivity|].
      now inversion Hlines.
    - apply Forall_forall. intros row Hr.
      apply in_map_iff in Hr as (l & <- & Hl). apply Hclean.
      rewrite Forall_forall in Hlines. apply Hlines.
      destruct lines; [destruct Hl | now right]. }
  intros Hb. apply trim_empty_blank in Hb. subst lines. rewrite Hb.
  reflexivity.
Qed.

Lemma count_char_trimStart_eq (c : ascii) (s : string) :
  is_space c = false -> count_char c (trimStart s) = count_char c s.
Proof.
  intros Hc. induction s as [|a s IH]; simpl; [reflexivity|].
  destruct (is_space a) eqn:Ea; [|reflexivity].
  destruct (Ascii.eqb a c) eqn:E; [|exact IH].
  apply Ascii.eqb_eq in E. congruence.
Qed.

Lemma count_char_trimEnd_eq (c : ascii) (s : string) :
  is_space c = false -> count_char c (trimEnd s) = count_char c s.
Proof.
  intros Hc. induction s as [|a s IH]; simpl; [reflexivity|].
  destruct (is_space a && is_empty (trimEnd s)) eqn:E; simpl; [|lia].
  apply andb_true_iff in E as [Ea Ee]. apply is_empty_true in Ee.
  rewrite Ee in IH. simpl in IH.
  destruct (Ascii.eqb a c) eqn:Eac; [|lia].
  apply Ascii.eqb_eq in Eac. congruence.
Qed.

Lemma trimStart_app (h t : string) :
  is_blank h = false -> trimStart (h ++ t) = trimStart h ++ t.
Proof.
  unfold is_blank. induction h as [|c h IH]; simpl; [discriminate|].
  destruct (is_space c); simpl; [exact IH | reflexivity].
Qed.

Lemma trimEnd_app (a b : string) :
  trimEnd (a ++ b)
  = if is_empty (trimEnd b) then trimEnd a else a ++ trimEnd b.
Proof.
  induction a as [|c a IH]; simpl.
  - destruct (trimEnd b); reflexivity.
  - rewrite IH. destruct (is_empty (trimEnd b)) eqn:E; [reflexivity|].
    destruct (a ++ trimEnd b) eqn:Ea.
    + destruct a; [|discriminate Ea]. simpl in Ea. rewrite Ea in E.
      discriminate E.
    + now rewrite andb_false_r.
Qed.

Lemma split_without (sep : ascii) (a : string) :
  count_char sep a = 0 -> split sep a = [a].
Proof.
  induction a as [|c a IH]; simpl; [reflexivity|].
  destruct (Ascii.eqb c sep); [discriminate|]. intros H.
  now rewrite IH.
Qed.

Lemma split_app_sep (sep : ascii) (a b : string) :
  count_char sep a = 0 ->
  split sep (a ++ String sep b) = a :: split sep b.
Proof.
  induction a as [|c a IH]; simpl.
  - now rewrite Ascii.eqb_refl.
  - destruct (Ascii.eqb c sep); [discriminate|]. intros H.
    now rewrite IH.
Qed.

(** The rows of a text whose first line [h] has visible content: they
    come from what follows that line, whatever the line holds. *)
Lemma parseSimpleCsv_after_header (h body : string) :
  is_blank h = false -> count_char newline h = 0 ->
  List.length (headers (parseSimpleCsv (h ++ String newline body)))
  = S (count_char comma h)
  /\ rows (parseSimpleCsv (h ++ String newline body))
     = map fields
         (filter (fun l => negb (is_empty l))
            (split newline (trimEnd body))).
Proof.
  intros Hb Hn. unfold parseSimpleCsv. cbn [headers rows].
  unfold trim. rewrite (trimStart_app _ _ Hb), trimEnd_app.
  assert (Hh : exists c t, trimStart h = String c t /\ is_space c = false).
  { destruct (trimStart_head h) as [E | H]; [|exact H].
    apply trimStart_empty_blank in E. congruence. }
  destruct Hh as (c & t & Eh & Hc).
  assert (Hn' : count_char newline (trimStart h) = 0)
    by (pose proof (count_char_trimStart newline h); lia).
  assert (Hcomma : count_char comma (trimStart h) = count_char comma h)
    by now apply count_char_trimStart_eq.
  change (trimEnd (String newline body))
    with (if is_empty (trimEnd body) then "" else String newline (trimEnd body)).
  destruct (trimEnd body) as [|b0 bs] eqn:Eb; simpl is_empty; cbv iota.
  - assert (Hn'' : count_char newline (trimEnd (trimStart h)) = 0)
      by (pose proof (count_char_trimEnd newline (trimStart h)); lia).
    rewrite (split_without _ _ Hn'').
    rewrite Eh in *. simpl trimEnd in *. rewrite Hc in *. simpl.
    split; [|reflexivity].
    rewrite fields_length. rewrite <- Hcomma. simpl.
    rewrite (count_char_trimEnd_eq comma t); reflexivity.
  - rewrite (split_app_sep _ _ _ Hn'). rewrite Eh. simpl filter.
    simpl. split; [|reflexivity].
    rewrite fields_length, <- Hcomma, Eh. reflexivity.
Qed.

End CsvMore.

(** X3.  Whatever the first visible line holds, it is taken as the header: the
    rows are read from the lines after it, so two texts that differ in
    that line only have the same rows, and the header has one field more
    than the line has commas. *)
Theorem parseSimpleCsv_first_line_is_header (h1 h2 body : string) :
  is_blank h1 = false -> count_char newline h1 = 0 ->
  is_blank h2 = false -> count_char newline h2 = 0 ->
  rows (parseSimpleCsv (h1 ++ String newline body))
  = rows (parseSimpleCsv (h2 ++ String newline body))
  /\ List.length (headers (parseSimpleCsv (h1 ++ String newline body)))
     = S (count_char comma h1).
Proof.
  intros Hb1 Hn1 Hb2 Hn2.
  destruct (parseSimpleCsv_after_header h1 body Hb1 Hn1) as [Hh1 Hr1].
  destruct (parseSimpleCsv_after_header h2 body Hb2 Hn2) as [_ Hr2].
  split; [congruence | exact Hh1].
Qed.

Lemma parseSimpleCsv_first_line_is_header_witness :
  is_blank "a,b" = false /\ count_char newline "a,b" = 0
  /\ is_blank "x" = false /\ count_char newline "x" = 0
  /\ rows (parseSimpleCsv ("a,b" ++ String newline "1,2"))
     = rows (parseSimpleCsv ("x" ++ String newline "1,2")).
Proof.
  repeat (split; [reflexivity|]).
  exact (proj1 (parseSimpleCsv_first_line_is_header "a,b" "x" "1,2"
                  eq_refl eq_refl eq_refl eq_refl)).
Defined.

(** ** Field normalizers: range and insensitivity *)

Section NormalizerMore.
Local Open Scope string_scope.

Lemma lower_char_space (c : ascii) : is_space (lower_char c) = is_space c.
Proof. each_char c. Qed.

Lemma lower_char_twice (c : ascii) : lower_char (lower_char c) = lower_char c.
Proof. each_char c. Qed.

Lemma toLowerCase_twice (s : string) :
  toLowerCase (toLowerCase s) = toLowerCase s.
Proof.
  induction s as [|c s IH]; simpl; [reflexivity|].
  now rewrite lower_char_twice, IH.
Qed.

Lemma toLowerCase_trimStart (s : string) :
  trimStart (toLowerCase s) = toLowerCase (trimStart s).
Proof.
  induction s as [|c s IH]; simpl; [reflexivity|].
  rewrite lower_char_space. destruct (is_space c); [exact IH | reflexivity].
Qed.

Lemma toLowerCase_empty (s : string) :
  is_empty (toLowerCase s) = is_empty s.
Proof. destruct s; reflexivity. Qed.

Lemma toLowerCase_trimEnd (s : string) :
  trimEnd (toLowerCase s) = toLowerCase (trimEnd s).
Proof.
  induction s as [|c s IH]; simpl; [reflexivity|].
  rewrite lower_char_space, IH, toLowerCase_empty.
  destruct (is_space c && is_empty (trimEnd s)); reflexivity.
Qed.

Lemma toLowerCase_trim (s : string) :
  trim (toLowerCase s) = toLowerCase (trim s).
Proof.
  unfold trim. now rewrite toLowerCase_trimStart, toLowerCase_trimEnd.
Qed.

Lemma replaceRuns_nonempty (p : ascii -> bool) (r : ascii) (s : string) :
  is_empty (replaceRuns p r false s) = is_empty s.
Proof.
  destruct s as [|c s]; simpl; [reflexivity|]. now destruct (p c).
Qed.

(** Every result of the style normalizer is made of lower-case letters,
    digits, underscores and dots. *)
Lemma normalizeMarkerStyleKey_range (x : string) :
  all_chars slug_char (normalizeMarkerStyleKey x) = true.
Proof.
  unfold normalizeMarkerStyleKey. cbv zeta.
  destruct (is_empty (trim x)) eqn:E0.
  { now rewrite (is_empty_true _ E0). }
  set (v := replaceRuns is_space " " false (toLowerCase (trim x))).
  repeat match goal with
         | |- context [String.eqb v ?k] =>
             destruct (String.eqb v k); simpl orb; cbv iota;
             [reflexivity|]
         end.
  apply slug_of_lowered.
Qed.

(** X4.  The style normalizer writes only lower-case letters, digits,
    underscores and dots, gives the empty key exactly for a value of
    white space, and does not see the case of its input. *)
Theorem normalizeMarkerStyleKey_alphabet (x : string) :
  all_chars
    (fun c => between 97 122 c || between 48 57 c
              || Ascii.eqb c "_" || Ascii.eqb c ".")
    (normalizeMarkerStyleKey x) = true
  /\ (normalizeMarkerStyleKey x = "" <-> is_blank x = true)
  /\ normalizeMarkerStyleKey (toLowerCase x) = normalizeMarkerStyleKey x.
Proof.
  split; [|split].
  - apply all_chars_imp with (p := slug_char);
      [|apply normalizeMarkerStyleKey_range].
    intros c. each_char c.
  - rewrite <- trim_empty_blank. unfold normalizeMarkerStyleKey. cbv zeta.
    destruct (is_empty (trim x)) eqn:E0.
    { apply is_empty_true in E0. rewrite E0. tauto. }
    split; [|intros H; rewrite H in E0; discriminate E0].
    set (v := replaceRuns is_space " " false (toLowerCase (trim x))).
    assert (Hv : is_empty v = false).
    { subst v. now rewrite replaceRuns_nonempty, toLowerCase_empty. }
    repeat match goal with
           | |- context [String.eqb v ?k] =>
               destruct (String.eqb v k); simpl orb; cbv iota;
               [discriminate|]
           end.
    intros H. apply (f_equal is_empty) in H.
    rewrite replaceRuns_nonempty, Hv in H. discriminate H.
  - unfold normalizeMarkerStyleKey. cbv zeta.
    rewrite toLowerCase_trim, toLowerCase_empty, toLowerCase_twice.
    destruct (is_empty (trim x)) eqn:E; [|reflexivity].
    apply is_empty_true in E. now rewrite E.
Qed.

Lemma prefix_cons (p s : string) :
  String.prefix p s = true -> exists rest, s = p ++ rest.
Proof.
  revert s. induction p as [|c p IH]; intros s.
  - intros _. now exists s.
  - destruct s as [|d s]; simpl; [discriminate|].
    destruct (ascii_dec c d) as [<- | Hne]; [|discriminate].
    intros H. destruct (IH s H) as (rest & ->). now exists rest.
Qed.

(** X5.  The dataset normalizer returns a trimmed key, empty exactly for a
    value of white space; a value whose trimmed form starts with "DA-2K"
    or reads "da2k" in any case becomes "DA2k", one that starts with
    "SPair" or reads "spair" in any case becomes "SPair", and every other
    value is passed through trimmed. *)
Theorem normalizeDatasetKey_classes (x : string) :
  trim (normalizeDatasetKey x) = normalizeDatasetKey x
  /\ (normalizeDatasetKey x = "" <-> is_blank x = true)
  /\ (startsWith (trim x) "DA-2K" = true \/ toLowerCase (trim x) = "da2k"
      -> normalizeDatasetKey x = "DA2k")
  /\ (startsWith (trim x) "SPair" = true \/ toLowerCase (trim x) = "spair"
      -> normalizeDatasetKey x = "SPair")
  /\ (normalizeDatasetKey x = "DA2k" \/ normalizeDatasetKey x = "SPair"
      \/ normalizeDatasetKey x = trim x).
Proof.
  unfold normalizeDatasetKey. cbv zeta.
  pose proof (trim_trim x) as Ht. pose proof (trim_empty_blank x) as Hb.
  set (v := trim x) in *.
  assert (Hda : startsWith v "DA-2K" = true ->
                toLowerCase v <> "spair" /\ toLowerCase v <> "da2k"
                /\ startsWith v "SPair" = false /\ v <> "").
  { intros H. apply prefix_cons in H as (rest & ->).
    repeat split; discriminate. }
  assert (Hsp : startsWith v "SPair" = true ->
                toLowerCase v <> "da2k" /\ v <> "DA2k"
                /\ startsWith v "DA-2K" = false /\ v <> "").
  { intros H. apply prefix_cons in H as (rest & ->).
    repeat split; discriminate. }
  destruct (is_empty v) eqn:E0.
  { apply is_empty_true in E0. rewrite E0 in *.
    split; [reflexivity|]. split; [exact Hb|].
    split; [intros [H | H]; discriminate H|].
    split; [intros [H | H]; discriminate H|]. now right; right. }
  assert (Hv : v <> "") by now apply is_empty_false.
  assert (Hnb : is_blank x = true -> False) by (intros H; apply Hb in H; congruence).
  destruct ((v =? "DA2k") || (toLowerCase v =? "da2k")) eqn:E1.
  { split; [reflexivity|]. split; [split; [discriminate | tauto]|].
    split; [reflexivity|]. split; [|now left].
    assert (Hl : toLowerCase v = "da2k").
    { apply orb_true_iff in E1 as [E1 | E1]; apply String.eqb_eq in E1;
        [now rewrite E1 | exact E1]. }
    intros [H | H].
    - destruct (Hsp H) as (Hc & _). congruence.
    - rewrite H in Hl. discriminate Hl. }
  apply orb_false_iff in E1 as [E1a E1b].
  apply String.eqb_neq in E1a, E1b.
  destruct (startsWith v "DA-2K") eqn:E2.
  { destruct (Hda eq_refl) as (H1 & H2 & H3 & _).
    split; [reflexivity|]. split; [split; [discriminate | tauto]|].
    split; [reflexivity|]. split; [|now left].
    intros [H | H]; congruence. }
  destruct ((v =? "SPair") || (toLowerCase v =? "spair")) eqn:E3.
  { split; [reflexivity|]. split; [split; [discriminate | tauto]|].
    split; [intros [H | H]; congruence|].
    split; [reflexivity | now right; left]. }
  apply orb_false_iff in E3 as [E3a E3b].
  apply String.eqb_neq in E3a, E3b.
  destruct (startsWith v "SPair") eqn:E4.
  { split; [reflexivity|]. split; [split; [discriminate | tauto]|].
    split; [intros [H | H]; congruence|].
    split; [reflexivity | now right; left]. }
  split; [exact Ht|]. split; [split; [congruence | tauto]|].
  split; [intros [H | H]; congruence|].
  split; [intros [H | H]; congruence | now right; right].
Qed.

End NormalizerMore.

(** ** The marker dataset builder *)

Section BuilderMore.
Import Keyed KeyedFacts.

Lemma fold_set_add_fresh (l s : list string) :
  NoDup (s ++ l) -> fold_left set_add l s = s ++ l.
Proof.
  revert s. induction l as [|x l IH]; simpl; intros s H.
  - now rewrite app_nil_r.
  - assert (Hx : existsb (String.eqb x) s = false).
    { apply not_true_is_false. intros E.
      apply existsb_exists in E as (y & Hy & E).
      apply String.eqb_eq in E. subst y.
      apply NoDup_remove_2 in H. apply H, in_or_app. now left. }
    unfold set_add at 2. rewrite Hx, IH; rewrite <- app_assoc; [reflexivity|].
    exact H.
Qed.

(** A list without repetition is the list of its own distinct elements. *)
Lemma new_Set_fixed (l : list string) : NoDup l -> new_Set l = l.
Proof. intros H. unfold new_Set. now rewrite fold_set_add_fresh. Qed.

Lemma foldM_dataset_keys (parsedRows : list MarkerRow) (l : list string)
    (d data : MarkerData) :
  foldM
    (fun data ds =>
       obj <- buildDataset (rowsOfDataset parsedRows ds) ;;
       Ok (set data ds obj)) l d = Ok data ->
  keys data = fold_left set_add l (keys d).
Proof.
  revert d. induction l as [|ds l IH]; simpl; intros d H.
  - now injection H as <-.
  - destruct (buildDataset (rowsOfDataset parsedRows ds)) as [obj|];
      simpl in H; [|discriminate].
    now rewrite (IH _ H), keys_set_add.
Qed.

(** X6.  Building never throws.  Every dataset with a row has an object,
    and the object of a dataset is built from the rows of that dataset
    alone.  A dataset name without rows has no object, for a name that is
    no inherited member name and when no dataset is called "__proto__". *)
Theorem buildMarkerData_datasets (parsedRows : list MarkerRow) :
  exists data,
    buildMarkerData parsedRows = Ok data
    /\ (forall r, In r parsedRows -> has data (dataset r) = true)
    /\ (forall ds obj, get data ds = Some obj ->
          buildDataset (filter (fun r => dataset r =? ds) parsedRows)
          = Ok obj)
    /\ ((forall r, In r parsedRows -> dataset r <> "__proto__") ->
        forall ds, plainKey ds = true ->
          (forall r, In r parsedRows -> dataset r <> ds) ->
          get data ds = None).
Proof.
  destruct (buildMarkerData_total parsedRows) as [data Hd].
  exists data. split; [exact Hd|].
  assert (Hk : keys data = new_Set (map dataset parsedRows)).
  { unfold buildMarkerData in Hd. apply foldM_dataset_keys in Hd.
    rewrite Hd. apply (new_Set_fixed _ (new_Set_nodup _)). }
  split; [|split].
  - intros r Hr. rewrite has_keys, Hk, in_new_Set. now apply in_map.
  - intros ds obj Hg. exact (buildMarkerData_dataset _ _ _ _ Hd Hg).
  - intros _ ds _ Hno. apply get_none_keys. rewrite Hk, in_new_Set.
    intros Hin. apply in_map_iff in Hin as (r & E & Hr). now apply (Hno r).
Qed.

(** Only the key "models" can hold a model list. *)
Lemma buildDataset_list_key (rows : list MarkerRow) (obj : DatasetObj) :
  buildDataset rows = Ok obj ->
  forall k ms, get obj k = Some (ModelList ms) -> k = "models".
Proof.
  unfold buildDataset.
  apply (foldM_invariant
           (fun o => forall k ms, get o k = Some (ModelList ms) ->
                                  k = "models")).
  - intros o sm o' Ho _ Hput k ms Hget.
    apply putStyle_ok in Hput as (accs & rks & _ & _ & ->).
    rewrite get_set in Hget.
    destruct (fst sm =? k); [discriminate Hget | eauto].
  - intros k ms Hget. rewrite get_set in Hget.
    destruct ("models" =? k) eqn:E; [|discriminate Hget].
    apply String.eqb_eq in E. now subst k.
Qed.

Lemma foldM_putStyle_keys (models : list string) (l : ByStyleByModel)
    (o obj : DatasetObj) :
  foldM (putStyle models) l o = Ok obj ->
  keys obj = fold_left set_add (keys l) (keys o).
Proof.
  revert o. induction l as [|sm l IH]; simpl; intros o H.
  - now injection H as <-.
  - destruct (putStyle models o sm) as [o'|] eqn:E; simpl in H;
      [|discriminate].
    apply putStyle_ok in E as (accs & rks & _ & _ & ->).
    now rewrite (IH _ H), keys_set_add.
Qed.

(** The keys of a built object: "models" and the styles of the rows. *)
Lemma buildDataset_keys (rows : list MarkerRow) (obj : DatasetObj)
    (k : string) :
  buildDataset rows = Ok obj ->
  (has obj k = true <-> k = "models" \/ In k (map marker_style rows)).
Proof.
  unfold buildDataset. intros H. apply foldM_putStyle_keys in H.
  rewrite has_keys, H, in_fold_set_add, groupByStyle_keys. simpl.
  intuition congruence.
Qed.

Lemma in_builtModels (rows : list MarkerRow) (m : string) :
  In m (builtModels rows) <->
  (exists r, In r rows /\ model r = m)
  /\ forall s, In s (map marker_style rows) ->
       exists r, In r rows /\ marker_style r = s /\ model r = m.
Proof.
  rewrite builtModels_worded. unfold modelsAsWorded.
  rewrite filter_In, forallb_forall.
  assert (Hocc : forall s, occursWith rows m s = true <->
                   exists r, In r rows /\ marker_style r = s /\ model r = m).
  { intros s. rewrite occursWith_in, in_map_iff. split.
    - intros (r & E & Hr). apply filter_In in Hr as [Hr Es].
      apply String.eqb_eq in Es. now exists r.
    - intros (r & Hr & Es & E). exists r. split; [exact E|].
      apply filter_In. split; [exact Hr|]. now apply String.eqb_eq. }
  split.
  - intros [Hc Hall]. split.
    + destruct (hasStyle rows "default"); apply in_new_Set, in_map_iff in Hc;
        destruct Hc as (r & E & Hr); [apply filter_In in Hr as [Hr _]|];
        now exists r.
    + intros s Hs. apply Hocc, Hall, in_new_Set, Hs.
  - intros [(r & Hr & E) Hall]. split.
    + destruct (hasStyle rows "default") eqn:Ed.
      * apply hasStyle_in, Hall in Ed. destruct Ed as (r' & Hr' & Es & Em).
        apply in_new_Set, in_map_iff. exists r'. split; [exact Em|].
        apply filter_In. split; [exact Hr'|]. now apply String.eqb_eq.
      * apply in_new_Set, in_map_iff. now exists r.
    + intros s Hs. apply Hocc, Hall. exact (proj1 (in_new_Set _ _) Hs).
Qed.

Lemma builtModels_nodup (rows : list MarkerRow) : NoDup (builtModels rows).
Proof.
  rewrite builtModels_worded. unfold modelsAsWorded.
  apply NoDup_filter. destruct (hasStyle rows "default"); apply new_Set_nodup.
Qed.

Lemma in_rowsOfDataset (parsedRows : list MarkerRow) (ds : string)
    (r : MarkerRow) :
  In r (rowsOfDataset parsedRows ds) <-> In r parsedRows /\ dataset r = ds.
Proof.
  unfold rowsOfDataset. rewrite filter_In.
  now rewrite String.eqb_eq.
Qed.

(** X7.  When no row of a dataset has a marker style called "models", the
    object of that dataset holds under "models" a list without repetition
    of exactly the models that have a row under every marker style of the
    dataset, and under every marker style of the dataset a pair of arrays
    of the length of that list. *)
Theorem buildMarkerData_model_list (parsedRows : list MarkerRow)
    (data : MarkerData) (ds : string) (obj : DatasetObj) :
  buildMarkerData parsedRows = Ok data ->
  get data ds = Some obj ->
  (forall r, In r parsedRows -> dataset r = ds ->
             marker_style r <> "models") ->
  exists ms,
    get obj "models" = Some (ModelList ms)
    /\ NoDup ms
    /\ (forall m, In m ms <->
          (exists r, In r parsedRows /\ dataset r = ds /\ model r = m)
          /\ forall s,
               (exists r, In r parsedRows /\ dataset r = ds
                          /\ marker_style r = s) ->
               exists r, In r parsedRows /\ dataset r = ds
                         /\ marker_style r = s /\ model r = m)
    /\ (forall r, In r parsedRows -> dataset r = ds ->
          exists sd, get obj (marker_style r) = Some (StyleArrays sd)
                     /\ List.length (accuracies sd) = List.length ms
                     /\ List.length (ranks sd) = List.length ms).
Proof.
  intros Hb Hd Hno.
  pose proof (buildMarkerData_dataset _ _ _ _ Hb Hd) as Hobj.
  set (R := rowsOfDataset parsedRows ds) in *.
  assert (HnoR : forall r, In r R -> marker_style r <> "models").
  { intros r Hr. apply in_rowsOfDataset in Hr as [Hr E]. now apply Hno. }
  pose proof (buildDataset_models_list R obj HnoR Hobj) as Hm.
  rewrite <- builtModels_worded in Hm.
  exists (builtModels R). split; [exact Hm|].
  split; [apply builtModels_nodup|]. split.
  - intros m. rewrite in_builtModels. split.
    + intros [(r & Hr & E) Hall]. split.
      * apply in_rowsOfDataset in Hr as [Hr Er]. now exists r.
      * intros s (r' & Hr' & Ed & Es).
        destruct (Hall s) as (r2 & Hr2 & Es2 & Em2).
        { apply in_map_iff. exists r'. split; [exact Es|].
          now apply in_rowsOfDataset. }
        apply in_rowsOfDataset in Hr2 as [Hr2 Ed2]. now exists r2.
    + intros [(r & Hr & Ed & E) Hall]. split.
      * exists r. split; [now apply in_rowsOfDataset | exact E].
      * intros s Hs. apply in_map_iff in Hs as (r' & Es & Hr').
        apply in_rowsOfDataset in Hr' as [Hr' Ed'].
        destruct (Hall s) as (r2 & Hr2 & Ed2 & Es2 & Em2);
          [now exists r'|].
        exists r2. split; [now apply in_rowsOfDataset | now split].
  - intros r Hr Ed.
    assert (HrR : In r R) by now apply in_rowsOfDataset.
    assert (Hhas : has obj (marker_style r) = true).
    { apply (buildDataset_keys R obj _ Hobj). right. now apply in_map. }
    unfold has in Hhas.
    destruct (get obj (marker_style r)) as [v|] eqn:Ev; [|discriminate].
    destruct (buildDataset_built R obj Hobj _ v Ev)
      as [E | (sd & E & Hl1 & Hl2 & _)].
    + subst v. apply (buildDataset_list_key R obj Hobj) in Ev.
      now apply HnoR in HrR.
    + subst v. now exists sd.
Qed.

Lemma buildMarkerData_model_list_witness :
  exists data obj,
    buildMarkerData missingModelRows = Ok data
    /\ get data "DA2k" = Some obj
    /\ (forall r, In r missingModelRows -> dataset r = "DA2k" ->
                  marker_style r <> "models")
    /\ get obj "models" = Some (ModelList ["A"])
    /\ has obj "color_blue" = true.
Proof.
  pose (data := match buildMarkerData missingModelRows with
                | Ok d => d | Throw _ => [] end).
  pose (obj := match get data "DA2k" with Some o => o | None => [] end).
  assert (Hno : forall r, In r missingModelRows -> dataset r = "DA2k" ->
                          marker_style r <> "models").
  { intros r Hr _.
    repeat (destruct Hr as [<- | Hr]; [discriminate|]). destruct Hr. }
  exists data, obj. split; [reflexivity|]. split; [reflexivity|].
  split; [exact Hno|].
  destruct (buildMarkerData_model_list missingModelRows data "DA2k" obj
              eq_refl eq_refl Hno) as (ms & Hm & _).
  split; reflexivity.
Defined.

(** Every style of the rows holds arrays in the built object, also a
    style called "models". *)
Lemma buildDataset_style_arrays (rows : list MarkerRow) (obj : DatasetObj)
    (k : string) :
  buildDataset rows = Ok obj ->
  In k (map marker_style rows) ->
  exists sd, get obj k = Some (StyleArrays sd).
Proof.
  unfold buildDataset. intros H Hk. apply groupByStyle_keys in Hk.
  revert H Hk.
  generalize (filter (inEveryStyle (groupByStyle rows))
                (candidateModels (groupByStyle rows) rows)) as models.
  intros models.
  generalize (set [] "models" (ModelList models)) as o.
  induction (groupByStyle rows) as [|sm l IH]; simpl; intros o H Hk;
    [destruct Hk|].
  destruct (putStyle models o sm) as [o'|] eqn:E; simpl in H; [|discriminate].
  destruct (in_dec string_dec k (keys l)) as [Hl | Hl]; [now apply (IH o')|].
  destruct Hk as [Hk | Hk]; [|contradiction].
  revert H.
  apply (foldM_invariant
           (fun o0 => exists sd, get o0 k = Some (StyleArrays sd))).
  - intros o0 sm0 o1 (sd & Hsd) _ Hput.
    apply putStyle_ok in Hput as (accs & rks & _ & _ & ->).
    rewrite get_set. destruct (fst sm0 =? k); eauto.
  - apply putStyle_ok in E as (accs & rks & _ & _ & ->).
    rewrite Hk, get_set_same. eauto.
Qed.

Lemma lastEntry_last (pre post : list MarkerRow) (r : MarkerRow) :
  (forall r', In r' post -> marker_style r' = marker_style r ->
              model r' <> model r) ->
  lastEntry (pre ++ r :: post) (marker_style r) (model r)
  = Some {| entry_accuracy := accuracy r; entry_rank := rank r |}.
Proof.
  intros Hpost. unfold lastEntry. rewrite fold_left_app. simpl.
  rewrite !String.eqb_refl. simpl.
  generalize {| entry_accuracy := accuracy r; entry_rank := rank r |} as e.
  induction post as [|r' post IH]; simpl; intros e; [reflexivity|].
  destruct (marker_style r' =? marker_style r) eqn:Es;
    destruct (model r' =? model r) eqn:Em; simpl;
    try (apply IH; intros; apply Hpost; [now right | assumption]).
  apply String.eqb_eq in Es, Em.
  exfalso. apply (Hpost r'); [now left | assumption..].
Qed.

(** X8.  The value an array holds for a model is that of the last row of
    the file with that dataset, that marker style and that model: earlier
    rows for the same three are overwritten.  The arrays are read at the
    index the model has in the model list. *)
Theorem buildMarkerData_last_row_wins (parsedRows : list MarkerRow)
    (data : MarkerData) (obj : DatasetObj) (ms : list string)
    (pre post : list MarkerRow) (r : MarkerRow) (i : nat) :
  buildMarkerData parsedRows = Ok data ->
  parsedRows = pre ++ r :: post ->
  (forall r', In r' post -> dataset r' = dataset r ->
              marker_style r' = marker_style r -> model r' <> model r) ->
  get data (dataset r) = Some obj ->
  get obj "models" = Some (ModelList ms) ->
  nth_error ms i = Some (model r) ->
  exists sd,
    get obj (marker_style r) = Some (StyleArrays sd)
    /\ nth_error (accuracies sd) i = Some (accuracy r)
    /\ nth_error (ranks sd) i = Some (rank r).
Proof.
  intros Hb -> Hpost Hd Hm Hi.
  pose proof (buildMarkerData_dataset _ _ _ _ Hb Hd) as Hobj.
  unfold rowsOfDataset in Hobj. rewrite filter_app in Hobj. simpl in Hobj.
  rewrite String.eqb_refl in Hobj.
  set (keep := fun row => dataset row =? dataset r) in *.
  set (R := filter keep pre ++ r :: filter keep post) in *.
  assert (Hms : ms = builtModels R).
  { destruct (buildDataset_built R obj Hobj _ _ Hm) as [E | (sd' & E & _)];
      congruence. }
  destruct (buildDataset_style_arrays R obj (marker_style r) Hobj)
    as (sd & Hsd).
  { apply in_map. subst R. apply in_or_app. right. now left. }
  exists sd. split; [exact Hsd|].
  destruct (buildDataset_arrays R obj _ sd Hobj Hsd) as [Ha Hr].
  assert (Hl : lastEntry R (marker_style r) (model r)
               = Some {| entry_accuracy := accuracy r;
                         entry_rank := rank r |}).
  { apply lastEntry_last. intros r' Hr' Es.
    apply filter_In in Hr' as [Hr' Ed]. apply String.eqb_eq in Ed.
    now apply Hpost. }
  rewrite Ha, Hr, <- Hms, !nth_error_map, Hi. simpl.
  unfold styleAccuracy, styleRank. now rewrite Hl.
Qed.

Lemma buildMarkerData_last_row_wins_witness :
  exists data obj,
    buildMarkerData
      [markerRow "d" "default" "A" 1 1; markerRow "d" "default" "A" 2 3]
    = Ok data
    /\ get data "d" = Some obj
    /\ get obj "default"
       = Some (StyleArrays {| accuracies := [2%float];
                              ranks := [3%float] |}).
Proof.
  pose (rows := [markerRow "d" "default" "A" 1 1;
                 markerRow "d" "default" "A" 2 3]).
  pose (data := match buildMarkerData rows with
                | Ok d => d | Throw _ => [] end).
  pose (obj := match get data "d" with Some o => o | None => [] end).
  exists data, obj. split; [reflexivity|]. split; [reflexivity|].
  destruct (buildMarkerData_last_row_wins rows data obj ["A"]
              [markerRow "d" "default" "A" 1 1] []
              (markerRow "d" "default" "A" 2 3) 0
              eq_refl eq_refl (fun r' (H : In r' []) => match H with end)
              eq_refl eq_refl eq_refl) as (sd & Hsd & _).
  reflexivity.
Defined.

End BuilderMore.

(** ** Loading the marker CSV *)

Section LoaderMore.
Import Keyed KeyedFacts.
Variable parseFloat : string -> float.
Variable parseInt10 : string -> float.

Lemma normalizeDatasetKey_trimmed (x : string) :
  trim (normalizeDatasetKey x) = normalizeDatasetKey x.
Proof.
  unfold normalizeDatasetKey. cbv zeta.
  destruct (is_empty (trim x)); [apply trim_trim|].
  destruct (_ || _); [reflexivity|].
  destruct (startsWith _ _); [reflexivity|].
  destruct (_ || _); [reflexivity|].
  destruct (startsWith _ _); [reflexivity|].
  apply trim_trim.
Qed.

Lemma truthy_nonempty (s : string) : truthy s = true -> s <> "".
Proof.
  unfold truthy. intros H. apply is_empty_false.
  now apply negb_true_iff.
Qed.

(** What a successful run of the [try] block went through. *)
Lemma loadMarkerDataBody_ok (fetched : FetchResult) (data : MarkerData) :
  loadMarkerDataBody parseFloat parseInt10 fetched = Ok data ->
  exists csvText parsedRows,
    fetched = Response true csvText
    /\ buildMarkerData parsedRows = Ok data
    /\ noteMissing (get (buildCsvHeaderIndex (headers (parseSimpleCsv csvText)))
                      "rank") "rank"
         (noteMissing (get (buildCsvHeaderIndex
                              (headers (parseSimpleCsv csvText)))
                         "accuracy") "accuracy"
            (noteMissing (get (buildCsvHeaderIndex
                                 (headers (parseSimpleCsv csvText)))
                            "marker_style") "marker_style"
               (noteMissing (get (buildCsvHeaderIndex
                                    (headers (parseSimpleCsv csvText)))
                               "model") "model"
                  (noteMissing (get (buildCsvHeaderIndex
                                       (headers (parseSimpleCsv csvText)))
                                  "dataset") "dataset" [])))) = []
    /\ forall r, In r parsedRows ->
         validRow r = true
         /\ trim (dataset r) = dataset r
         /\ trim (model r) = model r
         /\ all_chars slug_char (marker_style r) = true.
Proof.
  unfold loadMarkerDataBody.
  destruct fetched as [|[|] csvText]; try discriminate. cbv zeta.
  set (idx := buildCsvHeaderIndex (headers (parseSimpleCsv csvText))).
  destruct (noteMissing (get idx "rank") "rank" _) as [|x xs] eqn:Em;
    [|discriminate].
  intros H. eexists csvText, _. split; [reflexivity|].
  split; [exact H|]. split; [exact Em|].
  intros r Hr. apply filter_In in Hr as [Hr Hv]. split; [exact Hv|].
  apply in_map_iff in Hr as (values & <- & _). unfold toMarkerRow. simpl.
  split; [apply normalizeDatasetKey_trimmed|].
  split; [apply trim_trim | apply normalizeMarkerStyleKey_range].
Qed.

(** X9.  Whatever the file holds, a data object that was loaded has only
    validated content: every dataset name is non-empty and trimmed, every
    key of a dataset object is a non-empty string of lower-case letters,
    digits, underscores and dots, every model name is non-empty and
    trimmed, and every accuracy and every rank is a finite number. *)
Theorem loadMarkerData_values_validated (fetched : FetchResult)
    (data : MarkerData) :
  loadMarkerDataBody parseFloat parseInt10 fetched = Ok data ->
  forall ds obj, get data ds = Some obj ->
    ds <> "" /\ trim ds = ds
    /\ forall k v, get obj k = Some v ->
         k <> "" /\ all_chars slug_char k = true
         /\ match v with
            | ModelList ms => Forall (fun m => m <> "" /\ trim m = m) ms
            | StyleArrays sd =>
                Forall (fun a => isFinite a = true) (accuracies sd)
                /\ Forall (fun a => isFinite a = true) (ranks sd)
            end.
Proof.
  intros Hload ds obj Hd.
  apply loadMarkerDataBody_ok in Hload
    as (csvText & parsedRows & _ & Hb & _ & Hrows).
  pose proof (buildMarkerData_dataset _ _ _ _ Hb Hd) as Hobj.
  assert (HR : forall r, In r (rowsOfDataset parsedRows ds) ->
                 dataset r = ds /\ In r parsedRows).
  { intros r Hr. apply filter_In in Hr as [Hr E].
    apply String.eqb_eq in E. now split. }
  assert (Hds : exists r, In r parsedRows /\ dataset r = ds).
  { unfold buildMarkerData in Hb. apply foldM_dataset_keys in Hb.
    apply get_some_in in Hd. apply (in_map fst) in Hd. fold (keys data) in Hd.
    rewrite Hb in Hd. apply in_fold_set_add in Hd as [[] | Hd].
    apply in_new_Set, in_map_iff in Hd as (r & E & Hr). now exists r. }
  destruct Hds as (r0 & Hr0 & <-).
  destruct (Hrows r0 Hr0) as (Hv0 & Ht0 & _).
  split.
  { unfold validRow in Hv0. repeat (apply andb_true_iff in Hv0 as [Hv0 _]).
    now apply truthy_nonempty. }
  split; [exact Ht0|].
  intros k v Hk.
  assert (Hkey : k = "models" \/ In k (map marker_style
                                         (rowsOfDataset parsedRows (dataset r0)))).
  { apply (buildDataset_keys _ obj k Hobj). unfold has. now rewrite Hk. }
  split; [|split].
  - destruct Hkey as [-> | Hkey]; [discriminate|].
    apply in_map_iff in Hkey as (r & <- & Hr). apply HR in Hr as [_ Hr].
    destruct (Hrows r Hr) as (Hv & _). unfold validRow in Hv.
    repeat (apply andb_true_iff in Hv as [Hv ?]).
    now apply truthy_nonempty.
  - destruct Hkey as [-> | Hkey]; [reflexivity|].
    apply in_map_iff in Hkey as (r & <- & Hr). apply HR in Hr as [_ Hr].
    now destruct (Hrows r Hr) as (_ & _ & _ & Hs).
  - destruct (buildDataset_built _ obj Hobj k v Hk)
      as [-> | (sd & -> & _ & _ & Ha & Hk')].
    + apply Forall_forall. intros m Hm.
      apply in_builtModels in Hm as [(r & Hr & <-) _].
      apply HR in Hr as [_ Hr]. destruct (Hrows r Hr) as (Hv & _ & Hm & _).
      split; [|exact Hm]. unfold validRow in Hv.
      repeat (apply andb_true_iff in Hv as [Hv ?]).
      now apply truthy_nonempty.
    + split; [revert Ha | revert Hk']; apply Forall_impl;
        intros a (r & Hr & ->); apply HR in Hr as [_ Hr];
        destruct (Hrows r Hr) as (Hv & _);
        now apply validRow_finite in Hv.
Qed.

(** X10.  The load yields a data object, which it also stores in the global,
    exactly when the response is a success and the header row holds all
    five required column names; the rows cannot make it fail. *)
Theorem loadMarkerData_loads_iff (fetched : FetchResult)
    (MARKER_DATA : option MarkerData) :
  (exists data,
      loadMarkerData parseFloat parseInt10 fetched MARKER_DATA
      = (Some data, Some data))
  <-> exists csvText,
        fetched = Response true csvText
        /\ Forall (fun c => In c (headers (parseSimpleCsv csvText)))
             requiredColumns.
Proof.
  unfold loadMarkerData. split.
  - intros (data & H).
    destruct (loadMarkerDataBody parseFloat parseInt10 fetched) as [d|] eqn:E;
      [|discriminate].
    apply loadMarkerDataBody_ok in E as (csvText & rows & -> & _ & Hm & _).
    exists csvText. split; [reflexivity|].
    set (hs := headers (parseSimpleCsv csvText)) in *.
    assert (Hin : forall c, In c requiredColumns ->
                    get (buildCsvHeaderIndex hs) c <> None -> In c hs).
    { intros c _ Hc. destruct (in_dec string_dec c hs) as [Hi | Hi];
        [exact Hi|]. now apply buildCsvHeaderIndex_absent in Hi. }
    assert (Hsome : forall o n (l : list string),
               noteMissing o n l = [] -> o <> None /\ l = []).
    { intros [i|] n l Hl; simpl in Hl; [split; [discriminate | exact Hl]|].
      now destruct l. }
    apply Hsome in Hm as [H5 Hm]. apply Hsome in Hm as [H4 Hm].
    apply Hsome in Hm as [H3 Hm]. apply Hsome in Hm as [H2 Hm].
    apply Hsome in Hm as [H1 _].
    unfold requiredColumns.
    repeat constructor; apply Hin; simpl; tauto.
  - intros (csvText & -> & Hall).
    unfold loadMarkerDataBody. cbv zeta.
    set (hs := headers (parseSimpleCsv csvText)) in *.
    assert (Hget : forall c, In c requiredColumns ->
                     exists n, get (buildCsvHeaderIndex hs) c = Some n).
    { intros c Hc. rewrite Forall_forall in Hall.
      apply headerIndexFrom_present; [now apply Hall|].
      simpl in Hc. intros ->. intuition discriminate. }
    destruct (Hget "dataset") as [n1 ->]; [simpl; tauto|].
    destruct (Hget "model") as [n2 ->]; [simpl; tauto|].
    destruct (Hget "marker_style") as [n3 ->]; [simpl; tauto|].
    destruct (Hget "accuracy") as [n4 ->]; [simpl; tauto|].
    destruct (Hget "rank") as [n5 ->]; [simpl; tauto|].
    simpl noteMissing. cbv iota.
    match goal with
    | |- context [buildMarkerData ?rows] =>
        destruct (buildMarkerData_total rows) as [data ->]
    end.
    now exists data.
Qed.

End LoaderMore.

Lemma loadMarkerData_values_validated_witness :
  exists data obj,
    loadMarkerDataBody (fun _ => 1%float) (fun _ => 2%float)
      (Response true
         (join newline ["dataset,model,marker_style,accuracy,rank";
                        " DA-2K , A ,Color Blue,80.5,1"]))
    = Ok data
    /\ Keyed.get data "DA2k" = Some obj
    /\ Keyed.keys obj = ["models"; "color_blue"]
    /\ "DA2k" <> "" /\ trim "DA2k" = "DA2k".
Proof.
  pose (fetched :=
          Response true
            (join newline ["dataset,model,marker_style,accuracy,rank";
                           " DA-2K , A ,Color Blue,80.5,1"])).
  pose (data := match loadMarkerDataBody (fun _ => 1%float)
                        (fun _ => 2%float) fetched with
                | Ok d => d | Throw _ => [] end).
  pose (obj := match Keyed.get data "DA2k" with
               | Some o => o | None => [] end).
  exists data, obj. split; [reflexivity|]. split; [reflexivity|].
  split; [reflexivity|].
  destruct (loadMarkerData_values_validated (fun _ => 1%float)
              (fun _ => 2%float) fetched data eq_refl "DA2k" obj eq_refl)
    as (H1 & H2 & _).
  split; [exact H1 | exact H2].
Defined.

(** ** The visualization updater on built data *)

Section UpdaterMore.
Import Keyed KeyedFacts.



(** A style key of a built object that carries its model list holds
    arrays of the length of the list, filled with finite numbers when the
    rows were validated. *)
Lemma buildMarkerData_style_value (parsedRows : list MarkerRow)
    (data : MarkerData) (ds : string) (obj : DatasetObj) (ms : list string)
    (k : string) (v : DatasetProp) :
  buildMarkerData parsedRows = Ok data ->
  get data ds = Some obj ->
  get obj "models" = Some (ModelList ms) ->
  get obj k = Some v -> k <> "models" ->
  exists sd,
    v = StyleArrays sd
    /\ List.length (accuracies sd) = List.length ms
    /\ List.length (ranks sd) = List.length ms
    /\ (Forall (fun row => validRow row = true) parsedRows ->
        Forall (fun a => isFinite a = true) (accuracies sd)
        /\ Forall (fun a => isFinite a = true) (ranks sd)).
Proof.
  intros Hb Hd Hm Hk Hne.
  pose proof (buildMarkerData_dataset _ _ _ _ Hb Hd) as Hobj.
  destruct v as [ms' | sd].
  { now apply (buildDataset_list_key _ obj Hobj) in Hk. }
  exists sd. split; [reflexivity|].
  destruct (buildMarkerData_aligned _ _ _ _ _ Hb Hd Hm _ _ Hk)
    as (Ha & Hr & Hfa & Hfr).
  split; [exact Ha|]. split; [exact Hr|].
  intros Hvalid. rewrite Forall_forall in Hvalid.
  split; [revert Hfa | revert Hfr]; apply Forall_impl;
    intros a (row & Hrow & ->); now apply validRow_finite, Hvalid.
Qed.



(** X12.  On built data whose dataset object carries its model list and has
    a "default" style, the update draws for every key other than "models"
    under which the object has a style, and for every key under which it
    has nothing (a key that is no inherited member name, on an object
    without a style called "__proto__"): it does not throw, and it fills
    the table exactly when the table body exists. *)
Theorem updateVisualization_draws (parsedRows : list MarkerRow)
    (data : MarkerData) (ds markerKey : string) (obj : DatasetObj)
    (ms : list string) (tbody : bool) :
  buildMarkerData parsedRows = Ok data ->
  get data ds = Some obj ->
  get obj "models" = Some (ModelList ms) ->
  has obj "default" = true ->
  markerKey <> "models" ->
  (get obj markerKey = None ->
   plainKey markerKey = true /\ get obj "__proto__" = None) ->
  exists chart table,
    updateVisualization (Some data) ds tbody markerKey = Drawn chart table
    /\ chart_x chart = ms
    /\ List.length (chart_deltas chart) = List.length ms
    /\ (if tbody
        then exists rows, table = Some rows /\ map cell_model rows = ms
        else table = None).
Proof.
  intros Hb Hd Hm Hdef Hkey _. unfold has in Hdef.
  destruct (get obj "default") as [dv|] eqn:Edv; [|discriminate].
  destruct (buildMarkerData_style_value _ _ _ _ _ _ _ Hb Hd Hm Edv)
    as (def & -> & Hda & Hdr & _); [discriminate|].
  assert (Hsel : exists sel,
             selectedDataOf obj markerKey = Some (StyleArrays sel)
             /\ List.length (accuracies sel) = List.length ms
             /\ List.length (ranks sel) = List.length ms).
  { unfold selectedDataOf.
    destruct (get obj markerKey) as [v|] eqn:Ev.
    - destruct (buildMarkerData_style_value _ _ _ _ _ _ _ Hb Hd Hm Ev Hkey)
        as (sel & -> & Hsa & Hsr & _).
      now exists sel.
    - rewrite Edv. now exists def. }
  destruct Hsel as (sel & Hsel & Hsa & Hsr).
  destruct (buildChart_styles ds markerKey ms sel def Hsa Hda)
    as (chart & Hchart & Hx & _ & _ & Hdeltas & _).
  destruct (buildTable_styles ms sel def Hsa Hsr Hdr)
    as (rows & Hrows & Hmodels & _).
  exists chart, (if tbody then Some rows else None). split.
  { unfold updateVisualization, modelsOf.
    rewrite Hd, Hm, Hsel, Edv, Hchart, Hrows. now destruct tbody. }
  split; [exact Hx|]. split.
  { rewrite Hdeltas. unfold differences.
    rewrite length_map, length_combine, Hsa, Hda. apply Nat.min_id. }
  destruct tbody; [now exists rows | reflexivity].
Qed.

Lemma updateVisualization_draws_witness :
  exists chart table,
    updateVisualization
      (Some [("style_a", deltaObject)]) "style_a" false "no such style"
    = Drawn chart table
    /\ chart_x chart = ["M1"; "M2"].
Proof.
  destruct (updateVisualization_draws deltaRows
              [("style_a", deltaObject)] "style_a" "no such style"
              deltaObject ["M1"; "M2"] false eq_refl eq_refl eq_refl eq_refl)
    as (chart & table & Hrun & Hx & _).
  - discriminate.
  - intros _. split; reflexivity.
  - exists chart, table. split; [exact Hrun | exact Hx].
Defined.

Lemma buildChart_no_default (currentDataset markerKey : string)
    (models : list string) (selectedData : option DatasetProp) :
  exists f,
    buildChart currentDataset markerKey models selectedData None = Throw f.
Proof.
  unfold buildChart.
  destruct (mapM _ _) as [deltas|f]; simpl; eauto.
Qed.

(** X13.  A dataset that has rows, none of them with the marker style
    "default", can never be drawn: the build succeeds, but every update of
    that dataset throws before anything is drawn, whatever key is
    selected. *)
Theorem updateVisualization_needs_default (parsedRows : list MarkerRow)
    (data : MarkerData) (ds : string) :
  buildMarkerData parsedRows = Ok data ->
  (exists r, In r parsedRows /\ dataset r = ds) ->
  (forall r, In r parsedRows -> dataset r = ds ->
             marker_style r <> "default") ->
  forall (tbody : bool) (markerKey : string),
    updateVisualization (Some data) ds tbody markerKey = Threw None.
Proof.
  intros Hb (r0 & Hr0 & Ed0) Hno tbody markerKey.
  assert (Hk : keys data = new_Set (map dataset parsedRows)).
  { unfold buildMarkerData in Hb. apply foldM_dataset_keys in Hb.
    rewrite Hb. apply (new_Set_fixed _ (new_Set_nodup _)). }
  unfold updateVisualization.
  destruct (get data ds) as [obj|] eqn:Ed.
  - pose proof (buildMarkerData_dataset _ _ _ _ Hb Ed) as Hobj.
    assert (Hdef : get obj "default" = None).
    { destruct (get obj "default") eqn:E; [|reflexivity]. exfalso.
      assert (Hh : has obj "default" = true) by (unfold has; now rewrite E).
      apply (buildDataset_keys _ obj _ Hobj) in Hh as [Hh | Hh];
        [discriminate Hh|].
      apply in_map_iff in Hh as (r & Es & Hr).
      apply in_rowsOfDataset in Hr as [Hr Er]. now apply (Hno r). }
    rewrite Hdef. destruct (modelsOf obj) as [models|]; [|reflexivity].
    destruct (buildChart_no_default ds markerKey models
                (selectedDataOf obj markerKey)) as [f ->].
    reflexivity.
  - exfalso. apply get_none_keys in Ed. apply Ed. rewrite Hk.
    apply in_new_Set, in_map_iff. now exists r0.
Qed.

Lemma updateVisualization_needs_default_witness :
  exists data,
    buildMarkerData [markerRow "DA2k" "color_blue" "A" 80 1] = Ok data
    /\ updateVisualization (Some data) "DA2k" true "color_blue" = Threw None.
Proof.
  pose (rows := [markerRow "DA2k" "color_blue" "A" 80 1]).
  pose (data := match buildMarkerData rows with
                | Ok d => d | Throw _ => [] end).
  assert (Hno : forall r, In r rows -> dataset r = "DA2k" ->
                          marker_style r <> "default").
  { intros r [<- | []] _. discriminate. }
  exists data. split; [reflexivity|].
  exact (updateVisualization_needs_default rows data "DA2k" eq_refl
           (ex_intro _ (markerRow "DA2k" "color_blue" "A" 80 1)
              (conj (or_introl eq_refl) eq_refl))
           Hno true "color_blue").
Defined.

End UpdaterMore.

(** ** The JPEG rank chart *)

Section JpegMore.
Import Keyed KeyedFacts.
Variable parseInt10 : string -> float.

Lemma renderBenchmark_rows (rows1 rows2 : list JpegRow) (benchIdx : nat)
    (b : string) :
  rowsOfBenchmark rows1 b = rowsOfBenchmark rows2 b ->
  renderBenchmark parseInt10 (groupRows benchmark rows1) benchIdx b
  = renderBenchmark parseInt10 (groupRows benchmark rows2) benchIdx b.
Proof.
  unfold renderBenchmark, rowsOfBenchmark. rewrite !groupRows_get.
  now intros ->.
Qed.

Lemma renderFrom_rows (rows1 rows2 : list JpegRow) (ks : list string)
    (benchIdx : nat) :
  (forall b, In b ks -> rowsOfBenchmark rows1 b = rowsOfBenchmark rows2 b) ->
  renderFrom parseInt10 (groupRows benchmark rows1) benchIdx ks
  = renderFrom parseInt10 (groupRows benchmark rows2) benchIdx ks.
Proof.
  revert benchIdx. induction ks as [|b ks IH]; simpl; intros benchIdx H;
    [reflexivity|].
  rewrite (renderBenchmark_rows rows1 rows2 benchIdx b) by (apply H; now left).
  rewrite (IH (S benchIdx)) by (intros; apply H; now right).
  reflexivity.
Qed.

Lemma filter_filter_imp {A : Type} (f g : A -> bool) (l : list A) :
  (forall x, f x = true -> g x = true) ->
  filter f (filter g l) = filter f l.
Proof.
  intros H. induction l as [|x l IH]; simpl; [reflexivity|].
  destruct (g x) eqn:Eg; simpl.
  - now rewrite IH.
  - destruct (f x) eqn:Ef; [|exact IH].
    rewrite (H x Ef) in Eg. discriminate.
Qed.

Lemma renderFrom_suffix (byBenchmark : keyed (list JpegRow))
    (ks : list string) (benchIdx : nat) (p : Panel) :
  In p (renderFrom parseInt10 byBenchmark benchIdx ks) ->
  exists i, nth_error ks i = Some (panel_key p)
            /\ renderBenchmark parseInt10 byBenchmark (benchIdx + i)
                 (panel_key p) = Some p.
Proof.
  revert benchIdx. induction ks as [|b ks IH]; simpl; intros benchIdx H;
    [destruct H|].
  assert (Hrest : In p (renderFrom parseInt10 byBenchmark (S benchIdx) ks) ->
                  exists i, nth_error (b :: ks) i = Some (panel_key p)
                    /\ renderBenchmark parseInt10 byBenchmark (benchIdx + i)
                         (panel_key p) = Some p).
  { intros Hin. destruct (IH _ Hin) as (i & Hi & Hp). exists (S i).
    split; [exact Hi|]. now rewrite Nat.add_succ_r. }
  destruct (renderBenchmark parseInt10 byBenchmark benchIdx b) as [q|] eqn:E;
    [|now apply Hrest].
  destruct H as [<- | H]; [|now apply Hrest].
  assert (Hk : panel_key q = b).
  { unfold renderBenchmark in E.
    destruct (match get byBenchmark b with Some l => l | None => [] end);
      [discriminate|]. now injection E as <-. }
  exists 0. rewrite Nat.add_0_r, Hk. now split.
Qed.

(** X14.  The chart is drawn from the rows of the two known benchmarks
    alone: rows of any other benchmark change nothing.  The panel of
    "BLINK_RD" is on the first pair of axes and the panel of "MME" on the
    second, also when only one of them is drawn, and no third panel
    exists. *)
Theorem renderJpegRankChart_known_benchmarks (container : bool)
    (rows : list JpegRow) :
  renderJpegRankChart parseInt10 container rows
  = renderJpegRankChart parseInt10 container
      (filter (fun r => existsb (String.eqb (benchmark r)) BENCHMARKS) rows)
  /\ forall panels,
       renderJpegRankChart parseInt10 container rows = Some panels ->
       (List.length panels <= 2)%nat
       /\ Forall (fun p =>
                    (panel_key p = "BLINK_RD" /\ panel_axisSuffix p = "")
                    \/ (panel_key p = "MME" /\ panel_axisSuffix p = "2"))
            panels.
Proof.
  split.
  - unfold renderJpegRankChart. destruct container; [|reflexivity].
    f_equal. apply renderFrom_rows. intros b Hb. unfold rowsOfBenchmark.
    symmetry. apply filter_filter_imp. intros r Hr.
    apply String.eqb_eq in Hr. subst b. apply existsb_exists.
    exists (benchmark r). split; [exact Hb | apply String.eqb_refl].
  - intros panels H. unfold renderJpegRankChart in H.
    destruct container; [|discriminate].
    assert (E : panels
                = renderFrom parseInt10 (groupRows benchmark rows) 0
                    BENCHMARKS) by congruence.
    clear H. subst panels. split.
    + pose proof (proj1 (renderFrom_panels parseInt10 rows BENCHMARKS 0)) as Hk.
      apply (f_equal (@List.length string)) in Hk. rewrite length_map in Hk.
      rewrite Hk. apply (filter_length_le (hasRows rows) BENCHMARKS).
    + apply Forall_forall. intros p Hp.
      apply renderFrom_suffix in Hp as (i & Hi & Hp).
      unfold renderBenchmark in Hp.
      destruct (match get _ (panel_key p) with Some l => l | None => [] end);
        [discriminate|].
      injection Hp as Hp. apply (f_equal panel_axisSuffix) in Hp.
      simpl in Hp. rewrite <- Hp.
      destruct i as [|[|i]]; simpl in Hi.
      * injection Hi as <-. now left.
      * injection Hi as <-. now right.
      * now destruct i.
Qed.

Lemma defaultRankOf_in (l : list JpegRow) (r : float) :
  defaultRankOf l = Some r -> In r (map jpeg_rank l).
Proof.
  unfold defaultRankOf. destruct (find isDefaultQuality l) as [x|] eqn:E;
    [|discriminate].
  intros H. injection H as <-. apply find_some in E as [E _].
  now apply in_map.
Qed.

(** X15.  In every panel each model that is drawn has a segment whose two
    ends are finite ranks, the left end not above the right end; a model
    has at most one default marker, the marker belongs to a model that has
    a segment, and it lies on that segment. *)
Theorem renderJpegRankChart_marker_on_segment (rows : list JpegRow)
    (panels : list Panel) (p : Panel) :
  renderJpegRankChart parseInt10 true rows = Some panels ->
  In p panels ->
  exists cs,
    panel_marks p = concatMarks cs
    /\ List.length cs = List.length (panel_yCategories p)
    /\ Forall
         (fun c =>
            c = noMarks
            \/ exists m lo hi,
                 segmentX c = [Some lo; Some hi; None]
                 /\ segmentY c = [Some m; Some m; None]
                 /\ isFinite lo = true /\ isFinite hi = true
                 /\ (lo <=? hi)%float = true
                 /\ ((dotX c = [] /\ dotY c = [])
                     \/ exists r,
                          dotX c = [r] /\ dotY c = [m]
                          /\ (lo <=? r)%float = true
                          /\ (r <=? hi)%float = true))
         cs.
Proof.
  intros H Hp. unfold renderJpegRankChart in H.
  assert (E : panels
              = renderFrom parseInt10 (groupRows benchmark rows) 0 BENCHMARKS)
    by congruence.
  clear H. subst panels.
  pose proof (proj2 (renderFrom_panels parseInt10 rows BENCHMARKS 0)) as Hall.
  rewrite Forall_forall in Hall. destruct (Hall p Hp) as (_ & cs & Hcs & Hm).
  exists cs. split; [exact Hm|]. split.
  { apply Forall2_length in Hcs. now rewrite <- Hcs, length_rev. }
  clear Hm. induction Hcs as [|m c ms cs Hc _ IH]; constructor; [|exact IH].
  unfold modelContribution in Hc.
  set (l := rowsOfModel rows (panel_key p) m) in *.
  pose proof (finiteRanks_finite l) as Hfin. rewrite Forall_forall in Hfin.
  destruct (finiteRanks l) as [|x xs] eqn:E; [now left|]. right.
  destruct Hc as (lo & hi & (Hlo & Hhi & Hbetween) & Hsx & Hsy & Hdx & Hdy).
  rewrite Forall_forall in Hbetween.
  exists m, lo, hi. split; [exact Hsx|]. split; [exact Hsy|].
  split; [now apply Hfin|]. split; [now apply Hfin|].
  split; [now apply (Hbetween lo)|].
  unfold defaultDot in Hdx, Hdy.
  destruct (defaultRankOf l) as [r|] eqn:Er; [|now left].
  destruct (isFinite r) eqn:Efr; [|now left].
  right. exists r. split; [exact Hdx|]. split; [exact Hdy|].
  apply Hbetween. rewrite <- E. unfold finiteRanks. apply filter_In.
  split; [now apply defaultRankOf_in | exact Efr].
Qed.

End JpegMore.

Lemma renderJpegRankChart_marker_on_segment_witness :
  exists panels p cs,
    renderJpegRankChart (fun _ => 0%float) true rangeRows = Some panels
    /\ In p panels
    /\ panel_marks p = concatMarks cs
    /\ List.length cs = 1.
Proof.
  pose (panels := match renderJpegRankChart (fun _ => 0%float) true rangeRows
                  with Some ps => ps | None => [] end).
  pose (p := hd {| panel_key := ""; panel_axisSuffix := "";
                   panel_yCategories := []; panel_marks := noMarks |} panels).
  assert (Hp : In p panels) by now left.
  destruct (renderJpegRankChart_marker_on_segment (fun _ => 0%float)
              rangeRows panels p eq_refl Hp) as (cs & Hm & Hl & _).
  exists panels, p, cs. split; [reflexivity|]. split; [exact Hp|].
  split; [exact Hm | exact Hl].
Defined.


(** ** The order of the models in a panel *)

Section OrderMore.
Import Keyed KeyedFacts.




Section Insertion.
Context {A : Type}.
Variable compareFn : A -> A -> float.
Hypothesis asymmetric :
  forall a b, (0 <? compareFn a b)%float = true ->
              (0 <? compareFn b a)%float = false.



End Insertion.



End OrderMore.


(** ** Loading the JPEG rank CSV *)

Section JpegLoaderMore.
Variable parseInt10 : string -> float.

Lemma filter_map_swap {A B : Type} (f : A -> B) (p : B -> bool)
    (l : list A) :
  filter p (map f l) = map f (filter (fun a => p (f a)) l).
Proof.
  induction l as [|a l IH]; simpl; [reflexivity|].
  destruct (p (f a)); simpl; now rewrite IH.
Qed.

Lemma filter_filter_and {A : Type} (p q : A -> bool) (l : list A) :
  filter p (filter q l) = filter (fun a => q a && p a) l.
Proof.
  induction l as [|a l IH]; simpl; [reflexivity|].
  destruct (q a); simpl; [destruct (p a)|]; now rewrite IH.
Qed.

(** X17.  The JPEG loader reads its columns by position and never looks at
    the header: whatever the first line says, the same rows are returned.
    It returns one row for each later non-empty line with at least three
    commas, and drops the other lines without a failure. *)
Theorem loadJpegRankData_ignores_header (h1 h2 body : string) :
  is_blank h1 = false -> count_char newline h1 = 0 ->
  is_blank h2 = false -> count_char newline h2 = 0 ->
  loadJpegRankData parseInt10 (Response true (h1 ++ String newline body))
  = loadJpegRankData parseInt10 (Response true (h2 ++ String newline body))
  /\ exists jpegRows,
       loadJpegRankData parseInt10 (Response true (h1 ++ String newline body))
       = Ok (Some jpegRows)
       /\ List.length jpegRows
          = List.length
              (filter (fun l => negb (is_empty l)
                                && (3 <=? count_char comma l)%nat)
                 (split newline (trimEnd body))).
Proof.
  intros Hb1 Hn1 Hb2 Hn2.
  destruct (parseSimpleCsv_after_header h1 body Hb1 Hn1) as [_ Hr1].
  destruct (parseSimpleCsv_after_header h2 body Hb2 Hn2) as [_ Hr2].
  unfold loadJpegRankData. rewrite Hr1, Hr2. split; [reflexivity|].
  eexists. split; [reflexivity|].
  rewrite length_map, filter_map_swap, length_map, filter_filter_and.
  f_equal. apply filter_ext. intros l. now rewrite fields_length.
Qed.

End JpegLoaderMore.

Lemma loadJpegRankData_ignores_header_witness :
  loadJpegRankData (fun _ => 1%float)
    (Response true
       ("benchmark,model,jpeg_quality,rank" ++ String newline "MME,M,default,1"))
  = loadJpegRankData (fun _ => 1%float)
      (Response true ("a" ++ String newline "MME,M,default,1")).
Proof.
  exact (proj1 (loadJpegRankData_ignores_header (fun _ => 1%float)
                  "benchmark,model,jpeg_quality,rank" "a" "MME,M,default,1"
                  eq_refl eq_refl eq_refl eq_refl)).
Defined.

(** ** Temporary button labels *)

Section LabelMore.

Lemma timersFire_idle (n : nat) (button : ButtonState) :
  pendingRestores button = [] -> timersFire n button = button.
Proof.
  revert button. induction n as [|n IH]; simpl; intros button H;
    [reflexivity|].
  unfold timerFires. rewrite H. now apply IH.
Qed.

Lemma timersFire_all (n : nat) (text : option string)
    (pending : list string) (original : string) :
  (List.length pending < n)%nat ->
  timersFire n {| textContent := text;
                  pendingRestores := pending ++ [original] |}
  = {| textContent := Some original; pendingRestores := [] |}.
Proof.
  revert n text. induction pending as [|x pending IH]; intros n text Hn.
  - destruct n as [|n]; [inversion Hn|]. simpl.
    now apply timersFire_idle.
  - destruct n as [|n]; [inversion Hn|]. simpl in *.
    unfold timerFires. simpl. apply IH. lia.
Qed.

(** X18.  Once the timers have run, a button shows what it showed just
    before the last call of [setTempButtonLabel], the empty text for a
    button without text: its own label when no temporary label was up, but
    the earlier temporary label, for good, when the call came while one
    was still shown. *)
Theorem setTempButtonLabel_restores (button : ButtonState) (label : string)
    (n : nat) :
  (List.length (pendingRestores button) < n)%nat ->
  timersFire n (setTempButtonLabel button label)
  = {| textContent := Some (orEmpty (textContent button));
       pendingRestores := [] |}.
Proof. intros Hn. unfold setTempButtonLabel. now apply timersFire_all. Qed.

Lemma setTempButtonLabel_restores_witness :
  timersFire 2
    (setTempButtonLabel
       (setTempButtonLabel
          {| textContent := Some "Copy"; pendingRestores := [] |} "Copied")
       "Copy failed")
  = {| textContent := Some "Copied"; pendingRestores := [] |}.
Proof.
  apply (setTempButtonLabel_restores
           (setTempButtonLabel
              {| textContent := Some "Copy"; pendingRestores := [] |}
              "Copied")
           "Copy failed" 2).
  simpl. lia.
Defined.

End LabelMore.

(** ** Page initialisation *)

Section PageMore.
Import Keyed KeyedFacts.
Variable parseFloat : string -> float.
Variable parseInt10 : string -> float.

(** X19.  A failed load of the marker data does not stop the page: nothing
    of the marker section is drawn or wired, and the JPEG chart is drawn
    from its own file as if the marker section were not there. *)
Theorem onDOMContentLoaded_marker_failure (markerFetch jpegFetch : FetchResult)
    (buttons : list (option string)) (tbody container : bool) :
  (forall data,
      loadMarkerDataBody parseFloat parseInt10 markerFetch <> Ok data) ->
  onDOMContentLoaded parseFloat parseInt10 markerFetch jpegFetch buttons
    tbody container
  = {| page_markerData := None;
       page_firstDraw := None;
       page_listeners := false;
       page_jpegChart :=
         match loadJpegRankData parseInt10 jpegFetch with
         | Ok (Some jpegRows) =>
             renderJpegRankChart parseInt10 container jpegRows
         | _ => None
         end;
       page_completed :=
         match loadJpegRankData parseInt10 jpegFetch with
         | Ok _ => true
         | Throw _ => false
         end |}.
Proof.
  intros Hfail. unfold onDOMContentLoaded, loadMarkerData.
  destruct (loadMarkerDataBody parseFloat parseInt10 markerFetch) as [d|f];
    [now destruct (Hfail d)|].
  simpl. now destruct (loadJpegRankData parseInt10 jpegFetch) as [[rows|]|].
Qed.

(** X20.  When the marker data loads but its dataset "DA2k" has no "default"
    style, and the page has a marker button, the first update throws and
    ends the handler there: no listener is added to the marker controls
    and the JPEG chart is not drawn, whatever the JPEG file holds. *)
Theorem onDOMContentLoaded_first_draw_throws
    (markerFetch jpegFetch : FetchResult) (data : MarkerData)
    (obj : DatasetObj) (firstBtn : option string)
    (buttons : list (option string)) (tbody container : bool) :
  loadMarkerDataBody parseFloat parseInt10 markerFetch = Ok data ->
  get data "DA2k" = Some obj ->
  get obj "default" = None ->
  onDOMContentLoaded parseFloat parseInt10 markerFetch jpegFetch
    (firstBtn :: buttons) tbody container
  = {| page_markerData := Some data;
       page_firstDraw := Some (Threw None);
       page_listeners := false;
       page_jpegChart := None;
       page_completed := false |}.
Proof.
  intros Hload Hd Hdef. unfold onDOMContentLoaded, loadMarkerData.
  rewrite Hload. simpl snd. cbv iota beta zeta.
  assert (Hdraw : updateVisualization (Some data) "DA2k" tbody
                    (initialMarkerOf firstBtn) = Threw None).
  { unfold updateVisualization. rewrite Hd, Hdef.
    destruct (modelsOf obj) as [models|]; [|reflexivity].
    destruct (buildChart_no_default "DA2k" (initialMarkerOf firstBtn) models
                (selectedDataOf obj (initialMarkerOf firstBtn))) as [f ->].
    reflexivity. }
  now rewrite Hdraw.
Qed.

End PageMore.

Lemma onDOMContentLoaded_marker_failure_witness :
  exists panels,
    page_jpegChart
      (onDOMContentLoaded (fun _ => 1%float) (fun _ => 1%float)
         FetchRejected
         (Response true
            (join newline ["benchmark,model,jpeg_quality,rank";
                           "MME,M,default,1"]))
         [Some "color_blue"] true true)
    = Some panels
    /\ map panel_key panels = ["MME"].
Proof.
  pose (jpegFetch :=
          Response true
            (join newline ["benchmark,model,jpeg_quality,rank";
                           "MME,M,default,1"])).
  pose (panels :=
          match renderJpegRankChart (fun _ => 1%float) true
                  [jpegRow "MME" "M" "default" 1] with
          | Some ps => ps | None => []
          end).
  assert (Hfail : forall data,
             loadMarkerDataBody (fun _ => 1%float) (fun _ => 1%float)
               FetchRejected <> Ok data)
    by (intros data; discriminate).
  exists panels. split; [|reflexivity].
  exact (f_equal page_jpegChart
           (onDOMContentLoaded_marker_failure (fun _ => 1%float)
              (fun _ => 1%float) FetchRejected jpegFetch [Some "color_blue"]
              true true Hfail)).
Defined.

Lemma onDOMContentLoaded_first_draw_throws_witness :
  page_jpegChart
    (onDOMContentLoaded (fun _ => 1%float) (fun _ => 1%float)
       (Response true
          (join newline ["dataset,model,marker_style,accuracy,rank";
                         "DA2k,A,color_blue,80,1"]))
       (Response true
          (join newline ["benchmark,model,jpeg_quality,rank";
                         "MME,M,default,1"]))
       [Some "color_blue"] true true)
  = None.
Proof.
  pose (markerFetch :=
          Response true
            (join newline ["dataset,model,marker_style,accuracy,rank";
                           "DA2k,A,color_blue,80,1"])).
  pose (data := match loadMarkerDataBody (fun _ => 1%float)
                        (fun _ => 1%float) markerFetch with
                | Ok d => d | Throw _ => [] end).
  pose (obj := match Keyed.get data "DA2k" with
               | Some o => o | None => [] end).
  exact (f_equal page_jpegChart
           (onDOMContentLoaded_first_draw_throws (fun _ => 1%float)
              (fun _ => 1%float) markerFetch
              (Response true
                 (join newline ["benchmark,model,jpeg_quality,rank";
                                "MME,M,default,1"]))
              data obj (Some "color_blue") [] true true
              eq_refl eq_refl eq_refl)).
Defined.
